(** * Q1ASM sequence compiler and emulator (qblox_esr): a shallow embedding

    The development follows the Python sources:
    - [qblox_emulator.py]  : module [Emu]   (the assembly emulator);
    - [qblox_esr.py]       : module [Esr]   (the sequence transform passes);
    - [simple_convert.py]  : module [Simple] (unit converters and the macro
                             assembler).

    Conventions of the embedding.
    - Python [int] is [Z]; [str] is [string] (one byte per character).
    - A program text is kept as the list of its lines, the value that
      [str.splitlines()] / [str.split('\n')] produce in the sources; a pass
      that builds its output with [prog += line + '\n'] appends lines.
    - A Python exception is a value of [exn]; a function that may raise
      returns [result].
    - [f'{n}'] on an [int] is stdpp's [pretty] on [Z]. *)

From Stdlib Require Import ZArith Ascii String List Lia Floats.
From Stdlib Require Uint63.
From stdpp Require Import base option list gmap strings pretty.

Set Warnings "-inexact-float".
Local Open Scope Z_scope.

(** ** Exceptions and the error monad *)

Inductive exn : Set :=
| ValueError
| KeyError
| IndexError
| NameError
| AttributeError
| OverflowError
| ZeroDivisionError
| NotImplementedError
| SystemError
| TypeError
| AssertionError (msg : string)
| Exception (msg : string).

Inductive result (A : Type) : Type :=
| Ok (a : A)
| Raise (e : exn).
Arguments Ok {A} a.
Arguments Raise {A} e.

Definition bind {A B : Type} (r : result A) (k : A -> result B) : result B :=
  match r with
  | Ok a => k a
  | Raise e => Raise e
  end.

Notation "'let*' x ':=' r 'in' k" := (bind r (fun x => k))
  (at level 10, x name, r at level 100, k at level 200).
Notation "'let*' ' p ':=' r 'in' k" := (bind r (fun x => let 'p := x in k))
  (at level 10, p pattern, r at level 100, k at level 200).

Definition or_raise {A : Type} (e : exn) (o : option A) : result A :=
  match o with
  | Some a => Ok a
  | None => Raise e
  end.

(** [assert c, msg] *)
Definition assert (c : bool) (msg : string) : result unit :=
  if c then Ok tt else Raise (AssertionError msg).

(** ** Python built-ins on strings and lists *)

Module Py.

(** [str.isspace] on one (ASCII) character: tab, line feed, vertical tab,
    form feed, carriage return, the four separators 0x1c-0x1f and space. *)
Definition isspace (c : ascii) : bool :=
  let n := N_of_ascii c in
  ((9 <=? n)%N && (n <=? 13)%N) || ((28 <=? n)%N && (n <=? 32)%N).

Definition isdigit_char (c : ascii) : bool :=
  let n := N_of_ascii c in (48 <=? n)%N && (n <=? 57)%N.

Fixpoint all_chars (p : ascii -> bool) (s : string) : bool :=
  match s with
  | EmptyString => true
  | String c s' => p c && all_chars p s'
  end.

(** [s.isdigit()]: at least one character, all of them decimal digits. *)
Definition isdigit (s : string) : bool :=
  match s with
  | EmptyString => false
  | _ => all_chars isdigit_char s
  end.

(** [s.lstrip()], [s.rstrip()], [s.strip()] *)
Fixpoint lstrip (s : string) : string :=
  match s with
  | EmptyString => EmptyString
  | String c s' => if isspace c then lstrip s' else s
  end.

Fixpoint rstrip (s : string) : string :=
  match s with
  | EmptyString => EmptyString
  | String c s' =>
      match rstrip s' with
      | EmptyString => if isspace c then EmptyString else String c EmptyString
      | r => String c r
      end
  end.

Definition strip (s : string) : string := lstrip (rstrip s).

(** [s.lstrip(ch)] for a single character [ch]. *)
Fixpoint lstrip_char (ch : ascii) (s : string) : string :=
  match s with
  | EmptyString => EmptyString
  | String c s' => if Ascii.eqb c ch then lstrip_char ch s' else s
  end.

(** [s.startswith(pat)], [pat in s], [s.endswith(pat)] *)
Fixpoint startswith (pat s : string) : bool :=
  match pat, s with
  | EmptyString, _ => true
  | String a p, String b t => Ascii.eqb a b && startswith p t
  | String _ _, EmptyString => false
  end.

Fixpoint contains (pat s : string) : bool :=
  startswith pat s ||
  match s with
  | EmptyString => false
  | String _ t => contains pat t
  end.

Fixpoint endswith_char (ch : ascii) (s : string) : bool :=
  match s with
  | EmptyString => false
  | String c EmptyString => Ascii.eqb c ch
  | String _ s' => endswith_char ch s'
  end.

(** [s[:-1]] and [s[1:]] *)
Fixpoint drop_last (s : string) : string :=
  match s with
  | EmptyString => EmptyString
  | String _ EmptyString => EmptyString
  | String c s' => String c (drop_last s')
  end.

Definition drop_first (s : string) : string :=
  match s with
  | EmptyString => EmptyString
  | String _ s' => s'
  end.

(** [s[:s.find(ch)]] when [ch in s], and [s] otherwise: the text before the
    first occurrence of [ch]. *)
Fixpoint before_char (ch : ascii) (s : string) : string :=
  match s with
  | EmptyString => EmptyString
  | String c s' => if Ascii.eqb c ch then EmptyString else String c (before_char ch s')
  end.

(** [s.replace(a, b)] for single characters. *)
Fixpoint replace_char (a b : ascii) (s : string) : string :=
  match s with
  | EmptyString => EmptyString
  | String c s' => String (if Ascii.eqb c a then b else c) (replace_char a b s')
  end.

(** [s.split()]: the maximal runs of non-blank characters. *)
Fixpoint split (s : string) : list string :=
  match s with
  | EmptyString => []
  | String c s' =>
      if isspace c then split s'
      else match s' with
           | EmptyString => [String c EmptyString]
           | String c' _ =>
               if isspace c' then String c EmptyString :: split s'
               else match split s' with
                    | t :: ts => String c t :: ts
                    | [] => [String c EmptyString]
                    end
           end
  end.

(** Value of one decimal digit. *)
Definition digit_val (c : ascii) : Z := Z.of_N (N_of_ascii c) - 48.

(** [int(s)] on a token without blanks: an optional sign, then decimal
    digits, single underscores allowed between two digits; anything else (for
    instance two leading dashes) is a [ValueError]. *)
Fixpoint int_digits (after_digit : bool) (acc : Z) (s : string) : option Z :=
  match s with
  | EmptyString => if after_digit then Some acc else None
  | String c s' =>
      if isdigit_char c then int_digits true (10 * acc + digit_val c) s'
      else if Ascii.eqb c "_" && after_digit then int_digits false acc s'
      else None
  end.

Definition int (s : string) : result Z :=
  match s with
  | String "-"%char d => or_raise ValueError (Z.opp <$> int_digits false 0 d)
  | String "+"%char d => or_raise ValueError (int_digits false 0 d)
  | _ => or_raise ValueError (int_digits false 0 s)
  end.

(** [l[i]] for [i >= 0], raising [IndexError] out of range. *)
Definition index {A : Type} (l : list A) (i : nat) : result A :=
  or_raise IndexError (nth_error l i).

(** [l[-1]] *)
Definition last_item {A : Type} (l : list A) : result A :=
  or_raise IndexError (last l).

(** [s == t] on strings *)
Definition streq (s t : string) : bool := String.eqb s t.

(** [[int(s) for s in tokens if s.lstrip('-').isdigit()]] *)
Definition numbers_of (tokens : list string) : result (list Z) :=
  foldr (fun s acc =>
           if isdigit (lstrip_char "-" s)
           then let* n := int s in let* ns := acc in Ok (n :: ns)
           else acc)
        (Ok []) tokens.

(** [text.rstrip()] seen on the lines of [text]: the blank lines at the end
    go, and the last line left loses its trailing blanks. *)
Fixpoint rstrip_lines (ls : list string) : list string :=
  match ls with
  | [] => []
  | l :: ls' =>
      match rstrip_lines ls' with
      | [] => match rstrip l with
              | EmptyString => []
              | r => [r]
              end
      | r => l :: r
      end
  end.

(** [s.split(ch)] for a single character [ch] *)
Fixpoint split_on (ch : ascii) (s : string) : list string :=
  match s with
  | EmptyString => [EmptyString]
  | String c s' =>
      if Ascii.eqb c ch then EmptyString :: split_on ch s'
      else match split_on ch s' with
           | t :: ts => String c t :: ts
           | [] => [String c EmptyString]
           end
  end.

(** [s[s.find(ch)+1:]] when [ch in s]: the text after the first [ch]. *)
Fixpoint after_char (ch : ascii) (s : string) : option string :=
  match s with
  | EmptyString => None
  | String c s' => if Ascii.eqb c ch then Some s' else after_char ch s'
  end.

(** [s.find(pat)] as a cut: the text before the first occurrence of [pat]
    and the text after it. *)
Fixpoint cut (pat s : string) : option (string * string) :=
  if startswith pat s then Some (EmptyString, String.substring (String.length pat) (String.length s) s)
  else match s with
       | EmptyString => None
       | String c s' =>
           match cut pat s' with
           | Some (b, a) => Some (String c b, a)
           | None => None
           end
       end.

(** [s.replace(old, new, 1)] *)
Definition replace_first (old new s : string) : string :=
  match cut old s with
  | Some (b, a) => b +:+ new +:+ a
  | None => s
  end.

(** [s[::-1]] *)
Definition reverse (s : string) : string := String.rev s.

(** [int(s, 2)] on a string of binary digits *)
Fixpoint int_base2 (acc : Z) (s : string) : Z :=
  match s with
  | EmptyString => acc
  | String c s' => int_base2 (2 * acc + digit_val c) s'
  end.

(** [x in l] on a list of ints *)
Definition mem (x : Z) (l : list Z) : bool := existsb (Z.eqb x) l.

End Py.

(** ** The assembly emulator ([qblox_emulator.py]) *)

(** The emulator computes its output samples in Python floating point
    ([10**(gain/20)], a product and a sum per sample, [np.deg2rad]).  The
    control flow, the registers, the markers and the lengths of the traces do
    not depend on the values of those samples, so the float operations are an
    interface of the embedding. *)
Class FloatOps : Type := {
  flt : Type;
  (** an [int] used where a float is expected *)
  flt_of_int : Z -> flt;
  (** [x == y] *)
  flt_eqb : flt -> flt -> bool;
  flt_mul : flt -> flt -> flt;
  flt_add : flt -> flt -> flt;
  (** [a / b] on two ints (true division) *)
  flt_truediv : Z -> Z -> flt;
  (** [10 ** x], which raises [OverflowError] when out of range *)
  flt_pow10 : flt -> result flt;
  (** [np.deg2rad(n*360/1e9)] *)
  flt_phase : Z -> flt
}.

Module Emu.
Section Emulator.
Context {FO : FloatOps}.

(** [q1asm_get_line_info(line)] of the emulator: comment removed, commas
    turned into blanks, the result stripped; and the integer tokens. *)
Definition q1asm_get_line_info (line : string) : result (string * list Z) :=
  let cleanline := Py.before_char "#" line in
  let cleanline_nospace := Py.replace_char "," " " cleanline in
  let* numbers := Py.numbers_of (Py.split cleanline_nospace) in
  Ok (Py.strip cleanline_nospace, numbers).

(** [convert_gain(gain_in_db)] *)
Definition convert_gain (gain_in_db : Z) : result flt :=
  flt_pow10 (flt_truediv gain_in_db 20).

(** One waveform of the sequence: [{"data": [...], "index": n}]. *)
Record waveform : Type := { data : list flt; index : Z }.

(** One acquisition channel: [{"num_bins": n, "index": i}] extended by the
    emulator with its scope buffers ([bins] is allocated and never written). *)
Record acq_info : Type := { num_bins : Z; acq_index : Z }.
Record acquisition : Type := {
  info : acq_info;
  scope_path0 : list flt;
  scope_path1 : list flt
}.

(** The [sequence] dictionary given to the constructor. *)
Record sequence : Type := {
  program : list string;
  seq_waveforms : list (string * waveform);
  seq_acquisitions : list (string * acq_info)
}.

(** The attributes of a [Q1ASMEmulator] object, with the program counter of
    [run].  [out_I] and [out_Q] are [self.I] and [self.Q]. *)
Record state : Type := {
  registers : gmap string Z;
  awg_gain_I : Z;
  awg_gain_Q : Z;
  nco_phase : flt;
  nco_phase_stream : list flt;
  awg_offset_I : Z;
  awg_offset_Q : Z;
  timing : Z;
  acquire : bool;
  acquisitions : gmap string acquisition;
  acquisition_channel : option string;
  index_to_aquisitions : gmap Z string;
  acquisition_bin : option Z;
  waveforms : gmap string waveform;
  markers : list (Z * Z);
  marker_state : Z;
  labels : gmap string nat;
  out_I : list flt;
  out_Q : list flt;
  current_i_waveform : option (list flt);
  current_q_waveform : option (list flt);
  current_i_start_time : Z;
  current_q_start_time : Z;
  index_to_name : gmap Z string;
  pc : nat
}.

Definition set_registers (f : gmap string Z -> gmap string Z) (s : state) : state :=
  {| registers := f (registers s); awg_gain_I := awg_gain_I s; awg_gain_Q := awg_gain_Q s;
     nco_phase := nco_phase s; nco_phase_stream := nco_phase_stream s;
     awg_offset_I := awg_offset_I s; awg_offset_Q := awg_offset_Q s; timing := timing s;
     acquire := acquire s; acquisitions := acquisitions s;
     acquisition_channel := acquisition_channel s;
     index_to_aquisitions := index_to_aquisitions s; acquisition_bin := acquisition_bin s;
     waveforms := waveforms s; markers := markers s; marker_state := marker_state s;
     labels := labels s; out_I := out_I s; out_Q := out_Q s;
     current_i_waveform := current_i_waveform s; current_q_waveform := current_q_waveform s;
     current_i_start_time := current_i_start_time s;
     current_q_start_time := current_q_start_time s;
     index_to_name := index_to_name s; pc := pc s |}.

Definition set_pc (n : nat) (s : state) : state :=
  {| registers := registers s; awg_gain_I := awg_gain_I s; awg_gain_Q := awg_gain_Q s;
     nco_phase := nco_phase s; nco_phase_stream := nco_phase_stream s;
     awg_offset_I := awg_offset_I s; awg_offset_Q := awg_offset_Q s; timing := timing s;
     acquire := acquire s; acquisitions := acquisitions s;
     acquisition_channel := acquisition_channel s;
     index_to_aquisitions := index_to_aquisitions s; acquisition_bin := acquisition_bin s;
     waveforms := waveforms s; markers := markers s; marker_state := marker_state s;
     labels := labels s; out_I := out_I s; out_Q := out_Q s;
     current_i_waveform := current_i_waveform s; current_q_waveform := current_q_waveform s;
     current_i_start_time := current_i_start_time s;
     current_q_start_time := current_q_start_time s;
     index_to_name := index_to_name s; pc := n |}.

Definition set_labels (f : gmap string nat -> gmap string nat) (s : state) : state :=
  {| registers := registers s; awg_gain_I := awg_gain_I s; awg_gain_Q := awg_gain_Q s;
     nco_phase := nco_phase s; nco_phase_stream := nco_phase_stream s;
     awg_offset_I := awg_offset_I s; awg_offset_Q := awg_offset_Q s; timing := timing s;
     acquire := acquire s; acquisitions := acquisitions s;
     acquisition_channel := acquisition_channel s;
     index_to_aquisitions := index_to_aquisitions s; acquisition_bin := acquisition_bin s;
     waveforms := waveforms s; markers := markers s; marker_state := marker_state s;
     labels := f (labels s); out_I := out_I s; out_Q := out_Q s;
     current_i_waveform := current_i_waveform s; current_q_waveform := current_q_waveform s;
     current_i_start_time := current_i_start_time s;
     current_q_start_time := current_q_start_time s;
     index_to_name := index_to_name s; pc := pc s |}.

(** [self.markers.append((self.timing, self.marker_state))] *)
Definition append_marker (s : state) : state :=
  {| registers := registers s; awg_gain_I := awg_gain_I s; awg_gain_Q := awg_gain_Q s;
     nco_phase := nco_phase s; nco_phase_stream := nco_phase_stream s;
     awg_offset_I := awg_offset_I s; awg_offset_Q := awg_offset_Q s; timing := timing s;
     acquire := acquire s; acquisitions := acquisitions s;
     acquisition_channel := acquisition_channel s;
     index_to_aquisitions := index_to_aquisitions s; acquisition_bin := acquisition_bin s;
     waveforms := waveforms s;
     markers := markers s ++ [(timing s, marker_state s)];
     marker_state := marker_state s;
     labels := labels s; out_I := out_I s; out_Q := out_Q s;
     current_i_waveform := current_i_waveform s; current_q_waveform := current_q_waveform s;
     current_i_start_time := current_i_start_time s;
     current_q_start_time := current_q_start_time s;
     index_to_name := index_to_name s; pc := pc s |}.

Definition set_marker_state (m : Z) (s : state) : state :=
  {| registers := registers s; awg_gain_I := awg_gain_I s; awg_gain_Q := awg_gain_Q s;
     nco_phase := nco_phase s; nco_phase_stream := nco_phase_stream s;
     awg_offset_I := awg_offset_I s; awg_offset_Q := awg_offset_Q s; timing := timing s;
     acquire := acquire s; acquisitions := acquisitions s;
     acquisition_channel := acquisition_channel s;
     index_to_aquisitions := index_to_aquisitions s; acquisition_bin := acquisition_bin s;
     waveforms := waveforms s; markers := markers s; marker_state := m;
     labels := labels s; out_I := out_I s; out_Q := out_Q s;
     current_i_waveform := current_i_waveform s; current_q_waveform := current_q_waveform s;
     current_i_start_time := current_i_start_time s;
     current_q_start_time := current_q_start_time s;
     index_to_name := index_to_name s; pc := pc s |}.

Definition set_nco_phase (p : flt) (s : state) : state :=
  {| registers := registers s; awg_gain_I := awg_gain_I s; awg_gain_Q := awg_gain_Q s;
     nco_phase := p; nco_phase_stream := nco_phase_stream s;
     awg_offset_I := awg_offset_I s; awg_offset_Q := awg_offset_Q s; timing := timing s;
     acquire := acquire s; acquisitions := acquisitions s;
     acquisition_channel := acquisition_channel s;
     index_to_aquisitions := index_to_aquisitions s; acquisition_bin := acquisition_bin s;
     waveforms := waveforms s; markers := markers s; marker_state := marker_state s;
     labels := labels s; out_I := out_I s; out_Q := out_Q s;
     current_i_waveform := current_i_waveform s; current_q_waveform := current_q_waveform s;
     current_i_start_time := current_i_start_time s;
     current_q_start_time := current_q_start_time s;
     index_to_name := index_to_name s; pc := pc s |}.

Definition set_awg_gain (gi gq : Z) (s : state) : state :=
  {| registers := registers s; awg_gain_I := gi; awg_gain_Q := gq;
     nco_phase := nco_phase s; nco_phase_stream := nco_phase_stream s;
     awg_offset_I := awg_offset_I s; awg_offset_Q := awg_offset_Q s; timing := timing s;
     acquire := acquire s; acquisitions := acquisitions s;
     acquisition_channel := acquisition_channel s;
     index_to_aquisitions := index_to_aquisitions s; acquisition_bin := acquisition_bin s;
     waveforms := waveforms s; markers := markers s; marker_state := marker_state s;
     labels := labels s; out_I := out_I s; out_Q := out_Q s;
     current_i_waveform := current_i_waveform s; current_q_waveform := current_q_waveform s;
     current_i_start_time := current_i_start_time s;
     current_q_start_time := current_q_start_time s;
     index_to_name := index_to_name s; pc := pc s |}.

Definition set_awg_offs (oi oq : Z) (s : state) : state :=
  {| registers := registers s; awg_gain_I := awg_gain_I s; awg_gain_Q := awg_gain_Q s;
     nco_phase := nco_phase s; nco_phase_stream := nco_phase_stream s;
     awg_offset_I := oi; awg_offset_Q := oq; timing := timing s;
     acquire := acquire s; acquisitions := acquisitions s;
     acquisition_channel := acquisition_channel s;
     index_to_aquisitions := index_to_aquisitions s; acquisition_bin := acquisition_bin s;
     waveforms := waveforms s; markers := markers s; marker_state := marker_state s;
     labels := labels s; out_I := out_I s; out_Q := out_Q s;
     current_i_waveform := current_i_waveform s; current_q_waveform := current_q_waveform s;
     current_i_start_time := current_i_start_time s;
     current_q_start_time := current_q_start_time s;
     index_to_name := index_to_name s; pc := pc s |}.

(** The assignments of the [play] branch: both waveform buffers and their
    start time. *)
Definition load_waveforms (wi wq : list flt) (s : state) : state :=
  {| registers := registers s; awg_gain_I := awg_gain_I s; awg_gain_Q := awg_gain_Q s;
     nco_phase := nco_phase s; nco_phase_stream := nco_phase_stream s;
     awg_offset_I := awg_offset_I s; awg_offset_Q := awg_offset_Q s; timing := timing s;
     acquire := acquire s; acquisitions := acquisitions s;
     acquisition_channel := acquisition_channel s;
     index_to_aquisitions := index_to_aquisitions s; acquisition_bin := acquisition_bin s;
     waveforms := waveforms s; markers := markers s; marker_state := marker_state s;
     labels := labels s; out_I := out_I s; out_Q := out_Q s;
     current_i_waveform := Some wi; current_q_waveform := Some wq;
     current_i_start_time := timing s;
     current_q_start_time := timing s;
     index_to_name := index_to_name s; pc := pc s |}.

(** The assignments of the [acquire] branch. *)
Definition start_acquire (channel : string) (bin : Z) (s : state) : state :=
  {| registers := registers s; awg_gain_I := awg_gain_I s; awg_gain_Q := awg_gain_Q s;
     nco_phase := nco_phase s; nco_phase_stream := nco_phase_stream s;
     awg_offset_I := awg_offset_I s; awg_offset_Q := awg_offset_Q s; timing := timing s;
     acquire := true; acquisitions := acquisitions s;
     acquisition_channel := Some channel;
     index_to_aquisitions := index_to_aquisitions s; acquisition_bin := Some bin;
     waveforms := waveforms s; markers := markers s; marker_state := marker_state s;
     labels := labels s; out_I := out_I s; out_Q := out_Q s;
     current_i_waveform := current_i_waveform s; current_q_waveform := current_q_waveform s;
     current_i_start_time := current_i_start_time s;
     current_q_start_time := current_q_start_time s;
     index_to_name := index_to_name s; pc := pc s |}.

(** The body of the [for] loop of [advance_time], once the two samples are
    computed: both traces grow by one sample, the scope buffers of the current
    channel too while acquiring, and the clock advances. *)
Definition record_sample (i_val q_val : flt) (acqs : gmap string acquisition)
  (s : state) : state :=
  {| registers := registers s; awg_gain_I := awg_gain_I s; awg_gain_Q := awg_gain_Q s;
     nco_phase := nco_phase s;
     nco_phase_stream := nco_phase_stream s ++ [nco_phase s];
     awg_offset_I := awg_offset_I s; awg_offset_Q := awg_offset_Q s;
     timing := timing s + 1;
     acquire := acquire s; acquisitions := acqs;
     acquisition_channel := acquisition_channel s;
     index_to_aquisitions := index_to_aquisitions s; acquisition_bin := acquisition_bin s;
     waveforms := waveforms s; markers := markers s; marker_state := marker_state s;
     labels := labels s;
     out_I := out_I s ++ [i_val]; out_Q := out_Q s ++ [q_val];
     current_i_waveform := current_i_waveform s; current_q_waveform := current_q_waveform s;
     current_i_start_time := current_i_start_time s;
     current_q_start_time := current_q_start_time s;
     index_to_name := index_to_name s; pc := pc s |}.

(** [get_waveform_value(waveform, idx)] *)
Definition get_waveform_value (waveform : option (list flt)) (idx : Z) : flt :=
  match waveform with
  | Some w =>
      if (0 <=? idx) && (idx <? Z.of_nat (length w))
      then default (flt_of_int 0) (w !! Z.to_nat idx)
      else flt_of_int 0
  | None => flt_of_int 0
  end.

Definition append_scope (i_val q_val : flt) (a : acquisition) : acquisition :=
  {| info := info a;
     scope_path0 := scope_path0 a ++ [i_val];
     scope_path1 := scope_path1 a ++ [q_val] |}.

Definition tick (G_I G_Q : flt) (s : state) : result state :=
  let i_idx := timing s - current_i_start_time s in
  let q_idx := timing s - current_q_start_time s in
  let i_val := flt_add (flt_mul G_I (get_waveform_value (current_i_waveform s) i_idx))
                       (flt_of_int (awg_offset_I s)) in
  let q_val := flt_add (flt_mul G_Q (get_waveform_value (current_q_waveform s) q_idx))
                       (flt_of_int (awg_offset_Q s)) in
  if acquire s then
    let* ch := or_raise KeyError (acquisition_channel s) in
    let* a := or_raise KeyError (acquisitions s !! ch) in
    Ok (record_sample i_val q_val (<[ch := append_scope i_val q_val a]> (acquisitions s)) s)
  else
    Ok (record_sample i_val q_val (acquisitions s) s).

Fixpoint ticks (n : nat) (G_I G_Q : flt) (s : state) : result state :=
  match n with
  | O => Ok s
  | S n' => let* s' := tick G_I G_Q s in ticks n' G_I G_Q s'
  end.

(** [advance_time(self, duration)]: [range(duration)] is empty for a
    duration below 1. *)
Definition advance_time (duration : Z) (s : state) : result state :=
  let* G_I := convert_gain (awg_gain_I s) in
  let* G_Q := convert_gain (awg_gain_Q s) in
  ticks (Z.to_nat duration) G_I G_Q s.

(** [self.registers.get(reg, 0)] and [self.registers[reg]] *)
Definition reg_get (s : state) (reg : string) : Z := default 0 (registers s !! reg).
Definition reg_at (s : state) (reg : string) : result Z :=
  or_raise KeyError (registers s !! reg).

(** [self.labels[name]] *)
Definition label_at (s : state) (name : string) : result nat :=
  or_raise KeyError (labels s !! name).

(** [numbers[0] if numbers else self.registers[parts[1]]] *)
Definition number_or_register (parts : list string) (numbers : list Z) (s : state)
  : result Z :=
  match numbers with
  | n :: _ => Ok n
  | [] => let* r := Py.index parts 1 in reg_at s r
  end.

Definition next (s : state) : state := set_pc (S (pc s)) s.

(** [x << n] and [x >> n]: a negative count is a [ValueError]. *)
Definition shl (x n : Z) : result Z :=
  if n <? 0 then Raise ValueError else Ok (Z.shiftl x n).
Definition shr (x n : Z) : result Z :=
  if n <? 0 then Raise ValueError else Ok (Z.shiftr x n).

(** The dispatch on the opcode in the loop of [run].  The result carries
    [true] when the loop is left ([break] of [stop]).  [asl] and [asr] are
    tested by two [if] statements of their own, before the [if]/[elif] chain
    that starts at [move] and ends in [else: pc += 1]: an [asl] or [asr] line
    therefore runs its branch and then the final [else] as well. *)
Definition exec (instruction : string) (parts : list string) (numbers : list Z)
  (s : state) : result (state * bool) :=
  let* s :=
    if Py.streq instruction "asl" then
      let* src := Py.index parts 1 in
      let* a := reg_at s src in
      let* n := Py.index numbers 0 in
      let* v := shl a n in
      let* dst := Py.index parts 3 in
      Ok (next (set_registers (insert dst v) s))
    else Ok s in
  let* s :=
    if Py.streq instruction "asr" then
      let* src := Py.index parts 1 in
      let* a := reg_at s src in
      let* n := Py.index numbers 0 in
      let* v := shr a n in
      let* dst := Py.index parts 3 in
      Ok (next (set_registers (insert dst v) s))
    else Ok s in
  if Py.streq instruction "move" then
    let* n := Py.index numbers 0 in
    if n >? 2 ^ 32 - 1 then Raise (Exception "Registars can only store 32 bit integers")
    else
      let* dst := Py.index parts 2 in
      let s := set_registers (insert dst n) s in
      if (64 <? size (registers s))%nat
      then Raise (Exception "Registar locations only in range 0 to 63")
      else Ok (next s, false)
  else if Py.streq instruction "add" then
    let* ra := Py.index parts 1 in
    let a := reg_get s ra in
    let* b := match numbers with
              | [] => let* rb := Py.index parts 2 in Ok (reg_get s rb)
              | n :: _ => Ok n
              end in
    let* dst := Py.index parts 3 in
    Ok (next (set_registers (insert dst (a + b)) s), false)
  else if Py.streq instruction "sub" then
    let* ra := Py.index parts 1 in
    let a := reg_get s ra in
    let* b := match numbers with
              | [] => let* rb := Py.index parts 2 in Ok (reg_get s rb)
              | n :: _ => Ok n
              end in
    let* dst := Py.index parts 3 in
    Ok (next (set_registers (insert dst (a - b)) s), false)
  else if Py.streq instruction "jmp" then
    let* l := Py.index parts 1 in
    let* target := label_at s l in
    Ok (set_pc target s, false)
  else if Py.streq instruction "jge" then
    let* reg := Py.index parts 1 in
    if reg_get s reg >=? 0 then
      let* l := Py.index parts 2 in
      let* target := label_at s l in
      Ok (set_pc target s, false)
    else Ok (next s, false)
  else if Py.streq instruction "jlt" then
    let* reg := Py.index parts 1 in
    let* immediate := Py.index numbers 0 in
    let* jump_adress := Py.index parts 3 in
    if reg_get s reg <? immediate then
      let* target := label_at s (Py.drop_first jump_adress) in
      Ok (set_pc target s, false)
    else Ok (next s, false)
  else if Py.streq instruction "loop" then
    let* reg := Py.index parts 1 in
    let* l := Py.index parts 2 in
    let jump_adress := Py.drop_first l in
    let s := set_registers (insert reg (reg_get s reg - 1)) s in
    if reg_get s reg >? 0 then
      let* target := label_at s jump_adress in
      Ok (set_pc target s, false)
    else Ok (next s, false)
  else if Py.streq instruction "play" then
    let* waveform_index_1 := Py.index numbers 0 in
    let* waveform_index_2 := Py.index numbers 1 in
    let* wait_time := Py.index numbers 2 in
    let* waveform_1_name := or_raise KeyError (index_to_name s !! waveform_index_1) in
    let* waveform_2_name := or_raise KeyError (index_to_name s !! waveform_index_2) in
    let s := append_marker s in
    let* w1 := or_raise KeyError (waveforms s !! waveform_1_name) in
    let* w2 := or_raise KeyError (waveforms s !! waveform_2_name) in
    let s := load_waveforms (data w1) (data w2) s in
    let* s := advance_time wait_time s in
    Ok (next s, false)
  else if Py.streq instruction "set_mrk" then
    let* m := number_or_register parts numbers s in
    let s := set_marker_state m s in
    if (marker_state s >? 15) && (marker_state s <? 0)
    then Raise (Exception "Marker state has to be a valid 4 bit binary number")
    else Ok (next s, false)
  else if Py.streq instruction "wait" then
    let* wait_time := number_or_register parts numbers s in
    let* s := advance_time wait_time s in
    Ok (next s, false)
  else if Py.streq instruction "upd_param" then
    let* wait_time := Py.index numbers 0 in
    let s := append_marker s in
    let* s := advance_time wait_time s in
    Ok (next s, false)
  else if Py.streq instruction "acquire" then
    let s := append_marker s in
    let* acquisition_index := Py.index numbers 0 in
    let* channel := or_raise KeyError (index_to_aquisitions s !! acquisition_index) in
    let* bin := if negb (length numbers =? 3)%nat
                then let* r := Py.index parts 2 in reg_at s r
                else Py.index numbers 1 in
    let s := start_acquire channel bin s in
    let* duration := Py.last_item numbers in
    let* s := advance_time duration s in
    Ok (next s, false)
  else if Py.streq instruction "reset_ph" then
    Ok (next (set_nco_phase (flt_of_int 0) s), false)
  else if Py.streq instruction "set_ph" then
    let* Phase_number := number_or_register parts numbers s in
    Ok (next (set_nco_phase (flt_phase Phase_number) s), false)
  else if Py.streq instruction "set_awg_gain" then
    match numbers with
    | [] =>
        let* r1 := Py.index parts 1 in
        let* g1 := reg_at s r1 in
        let* r2 := Py.index parts 2 in
        let* g2 := reg_at s r2 in
        Ok (next (set_awg_gain g1 g2 s), false)
    | g1 :: _ =>
        let* g2 := Py.index numbers 1 in
        Ok (next (set_awg_gain g1 g2 s), false)
    end
  else if Py.streq instruction "set_awg_offs" then
    match numbers with
    | [] =>
        let* r1 := Py.index parts 1 in
        let* o1 := reg_at s r1 in
        let* r2 := Py.index parts 2 in
        let* o2 := reg_at s r2 in
        Ok (next (set_awg_offs o1 o2 s), false)
    | o1 :: _ =>
        let* o2 := Py.index numbers 1 in
        Ok (next (set_awg_offs o1 o2 s), false)
    end
  else if Py.streq instruction "illegal" then
    Raise (Exception "Some sort of flags are meant to be raised")
  else if Py.streq instruction "nop" then
    Ok (next s, false)
  else if Py.streq instruction "stop" then
    Ok (append_marker s, true)
  else Ok (next s, false).

(** The state of the execution loop of [run]. *)
Inductive outcome : Type :=
| Running (s : state)
| Halted (s : state)
| Failed (e : exn).

(** One iteration of [while pc < len(lines)]. *)
Definition step_line (line : string) (s : state) : result (state * bool) :=
  let line := Py.strip line in
  let* '(cleanline, numbers) := q1asm_get_line_info line in
  match cleanline with
  | EmptyString => Ok (next s, false)
  | _ =>
      let parts := Py.split cleanline in
      let* p0 := Py.index parts 0 in
      let '(s, parts) :=
        if Py.endswith_char ":" p0
        then (set_labels (insert (Py.drop_last p0) (pc s)) s, tail parts)
        else (s, parts) in
      match parts with
      | [] => Ok (next s, false)
      | instruction :: _ => exec instruction parts numbers s
      end
  end.

Definition step (lines : list string) (s : state) : outcome :=
  match nth_error lines (pc s) with
  | None => Halted s
  | Some line =>
      match step_line line s with
      | Ok (s', false) => Running s'
      | Ok (s', true) => Halted s'
      | Raise e => Failed e
      end
  end.

(** [n] iterations of the loop. *)
Fixpoint steps (n : nat) (lines : list string) (s : state) : outcome :=
  match n with
  | O => Running s
  | S n' =>
      match step lines s with
      | Running s' => steps n' lines s'
      | o => o
      end
  end.

(** The label pre-pass of [run]: every line that ends in a colon, once
    stripped, names its own index. *)
Definition detect_labels (lines : list string) : gmap string nat :=
  fold_left (fun (acc : gmap string nat) '(i, line) =>
               let line := Py.strip line in
               if Py.endswith_char ":" line
               then <[Py.drop_last line := i]> acc
               else acc)
            (imap (fun i line => (i, line)) lines) ∅.

(** The register file of the constructor: [R0] to [R63], all zero. *)
Definition initial_registers : gmap string Z :=
  list_to_map ((fun i : nat => ("R" +:+ pretty i, 0)) <$> seq 0 64).

(** [__init__] up to the call of [run], followed by the two statements of
    [run] that precede its loop. *)
Definition init (sq : sequence) : result state :=
  let* _ := if forallb (fun '(_, a) => 0 <=? num_bins a) (seq_acquisitions sq)
            then Ok tt else Raise ValueError in
  Ok {| registers := initial_registers;
        awg_gain_I := 0; awg_gain_Q := 0;
        nco_phase := flt_of_int 0; nco_phase_stream := [];
        awg_offset_I := 0; awg_offset_Q := 0;
        timing := 0;
        acquire := false;
        acquisitions :=
          fold_left (fun (acc : gmap string acquisition) '(k, a) =>
                       <[k := {| info := a; scope_path0 := []; scope_path1 := [] |}]> acc)
                    (seq_acquisitions sq) ∅;
        acquisition_channel := None;
        index_to_aquisitions :=
          fold_left (fun (acc : gmap Z string) '(k, a) => <[acq_index a := k]> acc)
                    (seq_acquisitions sq) ∅;
        acquisition_bin := None;
        waveforms :=
          fold_left (fun (acc : gmap string waveform) '(k, w) => <[k := w]> acc)
                    (seq_waveforms sq) ∅;
        markers := [(0, 0)];
        marker_state := 0;
        labels := detect_labels (program sq);
        out_I := []; out_Q := [];
        current_i_waveform := None; current_q_waveform := None;
        current_i_start_time := 0; current_q_start_time := 0;
        index_to_name :=
          fold_left (fun (acc : gmap Z string) '(k, w) => <[index w := k]> acc)
                    (seq_waveforms sq) ∅;
        pc := 0%nat |}.

(** [Q1ASMEmulator(sequence)], the loop of [run] cut after [fuel]
    iterations. *)
Definition emulate (fuel : nat) (sq : sequence) : outcome :=
  match init sq with
  | Ok s => steps fuel (program sq) s
  | Raise e => Failed e
  end.

End Emulator.
End Emu.

(** ** The sequence transform passes ([qblox_esr.py]) *)

Module Esr.

(** [q1asm_get_line_info(line)] of the compiler: the line without its
    comment, and the integer tokens. *)
Definition q1asm_get_line_info (line : string) : result (string * list Z) :=
  let cleanline := Py.before_char "#" line in
  let cleanline_nospace := Py.replace_char "," " " cleanline in
  let* numbers := Py.numbers_of (Py.split cleanline_nospace) in
  Ok (cleanline, numbers).

(** [q1asm_line_issimplewait(line)] *)
Definition q1asm_line_issimplewait (line : string) : result bool :=
  let* '(line, nb) := q1asm_get_line_info line in
  Ok (Py.contains "wait" line
      && negb (match nb with [] => true | _ => false end)
      && negb (Py.contains "wait_sync" line)).

(** [q1asm_count_play(prog)] *)
Fixpoint q1asm_count_play (prog : list string) : result Z :=
  match prog with
  | [] => Ok 0
  | line :: rest =>
      let* '(line, nb) := q1asm_get_line_info line in
      let* n := q1asm_count_play rest in
      Ok (if Py.contains "play" line then 1 + n else n)
  end.

(** *** Long delays *)

(** [q1asm_delay(delay, loop_index)]: the lines of [delay_prog] and
    [loop_used]. *)
Definition q1asm_delay (delay : Z) (loop_index : Z) : list string * bool :=
  if delay <? 65535 then
    (Py.rstrip_lines ["wait      " +:+ pretty delay], false)
  else
    let loop_nb := delay `div` 65535 in
    let remainder := delay `mod` 65535 in
    let low_remainder := (0 <? remainder) && (remainder <? 4) in
    let loop_nb := if low_remainder then loop_nb - 1 else loop_nb in
    let '(body, loop_used) :=
      if loop_nb <? 5 then
        (replicate (Z.to_nat loop_nb) "wait      65535", false)
      else
        (["move      " +:+ pretty loop_nb +:+ ",R1";
          "loop_delay" +:+ pretty loop_index +:+ ":";
          "wait      65535";
          "loop      R1,@loop_delay" +:+ pretty loop_index], true) in
    let tail :=
      if remainder >? 0 then
        if low_remainder
        then ["wait      " +:+ pretty (65535 - 4);
              "wait      " +:+ pretty (remainder + 4)]
        else ["wait      " +:+ pretty remainder]
      else [] in
    (Py.rstrip_lines (body ++ tail), loop_used).

(** [q1asm_transform_long_delay(simple_prog)] *)
Fixpoint transform_long_delay_from (loop_delay_idx : Z) (lines : list string)
  : result (list string) :=
  match lines with
  | [] => Ok []
  | line :: rest =>
      let* w := q1asm_line_issimplewait line in
      if w then
        let* '(_, nb) := q1asm_get_line_info line in
        let* d := Py.index nb 0 in
        let '(wait_instruction, looped) := q1asm_delay d (loop_delay_idx + 1) in
        let* out := transform_long_delay_from
                      (if looped then loop_delay_idx + 1 else loop_delay_idx) rest in
        Ok (wait_instruction ++ out)
      else
        let* out := transform_long_delay_from loop_delay_idx rest in
        Ok (line :: out)
  end.

Definition q1asm_transform_long_delay (simple_prog : list string) : result (list string) :=
  let* prog := transform_long_delay_from 0 simple_prog in
  Ok (Py.rstrip_lines prog).

(** The time waited by a block of [wait] lines and counted loops around
    them, each loop counted with its number of iterations: a [wait n] line
    adds [n] times the count of the loop it stands in; [move c,R] opens a loop
    of [c] iterations and [loop R,@label] closes it. *)
Fixpoint waited (count : Z) (lines : list string) : result Z :=
  match lines with
  | [] => Ok 0
  | line :: rest =>
      let* '(clean, nb) := q1asm_get_line_info line in
      let* w := q1asm_line_issimplewait line in
      if w then
        let* n := Py.index nb 0 in
        let* r := waited count rest in
        Ok (count * n + r)
      else if Py.startswith "move" clean then
        let* c := Py.index nb 0 in waited c rest
      else if Py.startswith "loop " clean then waited 1 rest
      else waited count rest
  end.

(** *** The overtrigger validator *)

(** The three variables of the loop of [q1asm_check_amp_overtrigger]. *)
Record amp_scan : Type := { amp : bool; amp_time : Z; amp_time_max : Z }.

Definition check_line (st : amp_scan) (line : string) : result amp_scan :=
  let* '(line, nb) := q1asm_get_line_info line in
  let* st :=
    if Py.contains "set_mrk" line then
      let* m := Py.index nb 0 in
      if Py.mem m [15; 1111] then
        Ok {| amp := true; amp_time := amp_time st; amp_time_max := amp_time_max st |}
      else
        Ok {| amp := false; amp_time := 0;
              amp_time_max := if amp_time st >? amp_time_max st
                              then amp_time st else amp_time_max st |}
    else Ok st in
  if amp st then
    let* w := q1asm_line_issimplewait line in
    if w || Py.contains "upd_param" line then
      let* n := Py.index nb 0 in
      Ok {| amp := amp st; amp_time := amp_time st + n; amp_time_max := amp_time_max st |}
    else if Py.contains "play" line then
      let* n := Py.last_item nb in
      Ok {| amp := amp st; amp_time := amp_time st + n; amp_time_max := amp_time_max st |}
    else Ok st
  else Ok st.

Fixpoint check_lines (st : amp_scan) (prog : list string) : result amp_scan :=
  match prog with
  | [] => Ok st
  | line :: rest => let* st := check_line st line in check_lines st rest
  end.

Definition amp_still_on : exn := AssertionError "amplifier trigger should be stopped".

(** [q1asm_check_amp_overtrigger(prog, max_time)] *)
Definition q1asm_check_amp_overtrigger (prog : list string) (max_time : Z) : result Z :=
  let* st := check_lines {| amp := false; amp_time := 0; amp_time_max := 0 |} prog in
  if amp st then Raise amp_still_on
  else
    let* _ := assert (amp_time_max st <? max_time) "amplifier trigger longer than max_time" in
    Ok (amp_time_max st).

(** *** Protection markers *)

(** The five optional delays of [q1asm_insert_twt_switch_markers]. *)
Record twt_delays : Type := {
  switch_open_postdelay : Z;
  amp_on_postdelay : Z;
  amp_off_predelay : Z;
  amp_off_postdelay : Z;
  switch_closed_postdelay : Z
}.

Definition default_delays : twt_delays :=
  {| switch_open_postdelay := 0; amp_on_postdelay := 250; amp_off_predelay := 50;
     amp_off_postdelay := 250; switch_closed_postdelay := 150 |}.

(** The variables of the loop of the pass; [out] is [prog]. *)
Record twt_state : Type := {
  out : list string;
  amp_on : bool;
  switch_open : bool;
  wfm_counter : Z;
  delay_reduction : Z
}.

(** [cond ? xs : []] *)
Definition when {A : Type} (c : bool) (xs : list A) : list A := if c then xs else [].

Definition twt_line (d : twt_delays) (wfm_nb : Z) (st : twt_state) (line : string)
  : result twt_state :=
  let* '(line, nb) := q1asm_get_line_info line in
  let* w := q1asm_line_issimplewait line in
  if w then
    let* n := Py.index nb 0 in
    let off := (1 <=? wfm_counter st) && (wfm_counter st <? wfm_nb)
               && (n >? 1000) && amp_on st in
    let pre := off && (amp_off_predelay d >? 4) in
    let prog := out st
                ++ when pre ["wait      " +:+ pretty (amp_off_predelay d)]
                ++ when off ["set_mrk   11"; "upd_param 4"] in
    let delay_reduction :=
      if off then
        (if pre then delay_reduction st + amp_off_predelay d else delay_reduction st)
        + (switch_open_postdelay d + amp_on_postdelay d + 4)
      else delay_reduction st in
    let amp := if off then false else amp_on st in
    let* n :=
      if delay_reduction >? 0 then
        let* _ := assert (n - delay_reduction >? 0) "wait delay is too short" in
        Ok (n - delay_reduction)
      else Ok n in
    let delay_reduction := if delay_reduction >? 0 then 0 else delay_reduction in
    Ok {| out := prog ++ ["wait      " +:+ pretty n];
          amp_on := amp; switch_open := switch_open st;
          wfm_counter := wfm_counter st; delay_reduction := delay_reduction |}
  else if Py.contains "play" line then
    let wfm_counter := wfm_counter st + 1 in
    let open := negb (switch_open st) && (switch_open_postdelay d >? 0) in
    let prog := out st
                ++ when open ["set_mrk   7";
                              "upd_param " +:+ pretty (switch_open_postdelay d)] in
    let switch_open := if open then true else switch_open st in
    let on := negb (amp_on st) in
    let prog := prog
                ++ when on ["set_mrk   15";
                            "upd_param " +:+ pretty (amp_on_postdelay d)] in
    let switch_open := if on then true else switch_open in
    let prog := prog ++ [line] in
    if wfm_counter =? wfm_nb then
      let* _ := assert (delay_reduction st =? 0) "previous delay reduction not applied" in
      let pre := amp_off_predelay d >? 4 in
      let post := amp_off_postdelay d >? 4 in
      let closed := switch_closed_postdelay d >? 4 in
      let prog := prog
                  ++ when pre ["wait      " +:+ pretty (amp_off_predelay d)]
                  ++ when (pre || post) ["set_mrk   11"]
                  ++ when post ["upd_param " +:+ pretty (amp_off_postdelay d)]
                  ++ ["set_mrk   3"]
                  ++ when closed ["upd_param " +:+ pretty (switch_closed_postdelay d)] in
      let delay_reduction :=
        delay_reduction st
        + (if pre then amp_off_predelay d else 0)
        + (if post then amp_off_postdelay d else 0)
        + (if closed then switch_closed_postdelay d else 0) in
      Ok {| out := prog; amp_on := true; switch_open := switch_open;
            wfm_counter := wfm_counter; delay_reduction := delay_reduction |}
    else
      Ok {| out := prog; amp_on := true; switch_open := switch_open;
            wfm_counter := wfm_counter; delay_reduction := delay_reduction st |}
  else
    let* _ := if Py.streq (Py.strip line) "end"
              then assert (delay_reduction st =? 0) "wait time expected before end instruction"
              else Ok tt in
    Ok {| out := out st ++ [line];
          amp_on := amp_on st; switch_open := switch_open st;
          wfm_counter := wfm_counter st; delay_reduction := delay_reduction st |}.

Fixpoint twt_lines (d : twt_delays) (wfm_nb : Z) (st : twt_state) (prog : list string)
  : result twt_state :=
  match prog with
  | [] => Ok st
  | line :: rest => let* st := twt_line d wfm_nb st line in twt_lines d wfm_nb st rest
  end.

Definition delay_ok (x : Z) : bool := (x =? 0) || (x >? 4).

(** [q1asm_insert_twt_switch_markers(simple_prog, ...)] *)
Definition q1asm_insert_twt_switch_markers (simple_prog : list string) (d : twt_delays)
  : result (list string) :=
  let* _ := assert (forallb delay_ok
                      [switch_open_postdelay d; amp_on_postdelay d; amp_off_predelay d;
                       amp_off_postdelay d; switch_closed_postdelay d])
                   "optional delays should be 0 or >4" in
  let* wfm_nb := q1asm_count_play simple_prog in
  let* st := twt_lines d wfm_nb
               {| out := []; amp_on := false; switch_open := false;
                  wfm_counter := 0; delay_reduction := 0 |} simple_prog in
  let* _ := assert (delay_reduction st =? 0)
                   "error with delay for markers (ex: missing delay after last pulse)" in
  Ok (Py.rstrip_lines (out st)).

(** *** What the claims on the marker pass speak of *)

(** Whether a line mentions [play], as [q1asm_count_play] and the passes
    test it (the comment apart). *)
Definition mentions_play (line : string) : bool :=
  Py.contains "play" (Py.before_char "#" line).

(** The validator's test for "amplifier on": a [set_mrk] line whose first
    number is 15 or 1111. *)
Definition turns_amp_on (line : string) : bool :=
  match q1asm_get_line_info line with
  | Ok (clean, m :: _) => Py.contains "set_mrk" clean && Py.mem m [15; 1111]
  | _ => false
  end.

(** A line that mentions [play] is taken for a pulse unless it is a simple
    wait. *)
Definition pulse_if_play (l : string) : Prop :=
  mentions_play l = true -> q1asm_line_issimplewait l = Ok false.

(** A line carries the number that the validator reads from it: when it
    mentions [set_mrk], [upd_param] or [play] (the comment apart), one of its
    tokens is an integer. *)
Definition carries_number (line : string) : bool :=
  match q1asm_get_line_info line with
  | Ok (clean, nb) =>
      negb (Py.contains "set_mrk" clean || Py.contains "upd_param" clean
            || Py.contains "play" clean)
      || negb (match nb with [] => true | _ => false end)
  | Raise _ => true
  end.

(** *** Waveform tables as objects

    A waveform table is a Python [dict] from names to entries, each entry a
    [dict] [{'data': [...], 'index': n}].  Both are mutable objects that the
    caller shares with the passes, so they live in a store: a table is a list
    of (name, reference) in insertion order, an entry a record.  The sample
    lists are never updated in place by the passes (slices build new lists)
    and are kept as values.  A reference to nothing is a broken store, kept
    apart from the Python exceptions as [SystemError]. *)

Section Waveforms.
Context {FO : FloatOps}.

Record wfm : Type := { data : list flt; index : Z }.

Definition loc : Type := nat.

Record heap : Type := {
  dicts : gmap loc (list (string * loc));
  entries : gmap loc wfm
}.

(** [d[k]] / [k in d.keys()] / [d[k] = v] on the items of a [dict]: a new
    key goes last, a known key keeps its place. *)
Fixpoint dict_get {V : Type} (items : list (string * V)) (k : string) : option V :=
  match items with
  | [] => None
  | (k', v) :: rest => if Py.streq k' k then Some v else dict_get rest k
  end.

Definition dict_has {V : Type} (items : list (string * V)) (k : string) : bool :=
  match dict_get items k with Some _ => true | None => false end.

Fixpoint dict_set {V : Type} (items : list (string * V)) (k : string) (v : V)
  : list (string * V) :=
  match items with
  | [] => [(k, v)]
  | (k', v') :: rest =>
      if Py.streq k' k then (k', v) :: rest else (k', v') :: dict_set rest k v
  end.

Definition dict_at (h : heap) (r : loc) : result (list (string * loc)) :=
  or_raise SystemError (dicts h !! r).
Definition entry_at (h : heap) (l : loc) : result wfm :=
  or_raise SystemError (entries h !! l).

Definition alloc_entry (h : heap) (w : wfm) : heap * loc :=
  let l := fresh (dom (entries h)) in
  ({| dicts := dicts h; entries := <[l := w]> (entries h) |}, l).

Definition alloc_dict (h : heap) (items : list (string * loc)) : heap * loc :=
  let r := fresh (dom (dicts h)) in
  ({| dicts := <[r := items]> (dicts h); entries := entries h |}, r).

Definition write_dict (h : heap) (r : loc) (items : list (string * loc)) : heap :=
  {| dicts := <[r := items]> (dicts h); entries := entries h |}.

Definition write_entry (h : heap) (l : loc) (w : wfm) : heap :=
  {| dicts := dicts h; entries := <[l := w]> (entries h) |}.

(** [copy.deepcopy(waveforms)]: a new table whose entries are new objects;
    an entry reached twice is copied once (the memo of [deepcopy]). *)
Fixpoint deepcopy_items (h : heap) (memo : gmap loc loc) (items : list (string * loc))
  : result (heap * list (string * loc)) :=
  match items with
  | [] => Ok (h, [])
  | (k, l) :: rest =>
      match memo !! l with
      | Some l' =>
          let* '(h, rest') := deepcopy_items h memo rest in
          Ok (h, (k, l') :: rest')
      | None =>
          let* w := entry_at h l in
          let '(h, l') := alloc_entry h w in
          let* '(h, rest') := deepcopy_items h (<[l := l']> memo) rest in
          Ok (h, (k, l') :: rest')
      end
  end.

Definition deepcopy (h : heap) (r : loc) : result (heap * loc) :=
  let* items := dict_at h r in
  let* '(h, items') := deepcopy_items h ∅ items in
  Ok (alloc_dict h items').

(** *** Long waveforms *)

(** The first loop of [q1asm_transform_long_waveforms]: the names of the
    waveforms longer than 1000 samples ([wfm_2loop]) and
    [wfm_2loop_indexes], from index to [[name, nb_loop]]. *)
Fixpoint find_long (h : heap) (items : list (string * loc)) (step : Z)
  (acc : list string * gmap Z (string * Z)) : result (list string * gmap Z (string * Z)) :=
  match items with
  | [] => Ok acc
  | (wfm_name, l) :: rest =>
      let* wfm_value := entry_at h l in
      if Z.of_nat (length (data wfm_value)) >? 1000 then
        let* _ := assert (3 * step <? Z.of_nat (length (data wfm_value)))
                         "step value should be < 3*len(data)" in
        let* _ := assert (step >=? 24)
                         "step value should be >= 24ns, high risk of underflow" in
        find_long h rest step
          (fst acc ++ [wfm_name], <[index wfm_value := (wfm_name, 0)]> (snd acc))
      else find_long h rest step acc
  end.

(** [wfm.count(wfm[0]) == len(wfm)] *)
Definition is_constant (wfm : list flt) : result bool :=
  let* x := Py.index wfm 0 in
  Ok (length (filter (fun y => flt_eqb y x = true) wfm) =? length wfm)%nat.

(** The state of the second loop: the store, [nb_compl] and
    [wfm_2loop_indexes]. *)
Record fold_state : Type := {
  fs_heap : heap;
  nb_compl : Z;
  wfm_2loop_indexes : gmap Z (string * Z)
}.

(** One iteration of the second loop, on the copied table [wfms]. *)
Definition fold_waveform (wfms : loc) (step : Z) (st : fold_state) (name : string)
  : result fold_state :=
  let h := fs_heap st in
  let* items := dict_at h wfms in
  let* l := or_raise KeyError (dict_get items name) in
  let* w := entry_at h l in
  let wfm := data w in
  let* c := is_constant wfm in
  let* _ := assert c "waveform to be looped should be constant" in
  let wfm_duration := Z.of_nat (length wfm) in
  let* _ := if step =? 0 then Raise ZeroDivisionError else Ok tt in
  let nb_loop := wfm_duration `div` step in
  let* '(h, nb_loop, nb_compl) :=
    if wfm_duration `mod` step >? 0 then
      let comp_name := name +:+ "_compl" in
      let comp_idx := 1023 - nb_compl st in
      let comp_duration := wfm_duration `mod` step in
      let '(comp_duration, nb_loop) :=
        if comp_duration <? 4 then (comp_duration + step, nb_loop - 1)
        else (comp_duration, nb_loop) in
      let comp_data := take (Z.to_nat comp_duration) wfm in
      let* _ := assert (negb (dict_has items comp_name))
                       "free the index of the complementary waveform" in
      let '(h, lc) := alloc_entry h {| data := comp_data; index := comp_idx |} in
      let h := write_dict h wfms (dict_set items comp_name lc) in
      Ok (h, nb_loop, nb_compl st + 1)
    else Ok (h, nb_loop, nb_compl st) in
  let* '(nm, _) := or_raise KeyError (wfm_2loop_indexes st !! index w) in
  let idxs := <[index w := (nm, nb_loop)]> (wfm_2loop_indexes st) in
  let* items := dict_at h wfms in
  let* l := or_raise KeyError (dict_get items name) in
  let* w := entry_at h l in
  let h := write_entry h l {| data := take (Z.to_nat step) (data w); index := index w |} in
  Ok {| fs_heap := h; nb_compl := nb_compl; wfm_2loop_indexes := idxs |}.

Fixpoint fold_waveforms (wfms : loc) (step : Z) (st : fold_state) (names : list string)
  : result fold_state :=
  match names with
  | [] => Ok st
  | name :: rest =>
      let* st := fold_waveform wfms step st name in
      fold_waveforms wfms step st rest
  end.

(** The rewriting of the program: a [play] of two folded waveforms becomes
    a counted loop, followed by a [play] of the complementary pair when the
    first waveform has one. *)
Definition loop_play (h : heap) (wfms : loc) (idxs : gmap Z (string * Z)) (step : Z)
  (loop_index : Z) (line : string) : result (list string * Z) :=
  if Py.startswith "play" line then
    let* '(line, nb) := q1asm_get_line_info line in
    let* n0 := Py.index nb 0 in
    match idxs !! n0 with
    | Some (wfm_name1, nb_loop) =>
        let* n1 := Py.index nb 1 in
        match idxs !! n1 with
        | Some (wfm_name2, _) =>
            let block :=
              ["move      " +:+ pretty nb_loop +:+ ",R2";
               "loop_play" +:+ pretty loop_index +:+ ":";
               "play      " +:+ pretty n0 +:+ "," +:+ pretty n1 +:+ "," +:+ pretty step;
               "loop      R2,@loop_play" +:+ pretty loop_index] in
            let* items := dict_at h wfms in
            match dict_get items (wfm_name1 +:+ "_compl") with
            | Some l1 =>
                let* w1 := entry_at h l1 in
                let* l2 := or_raise KeyError (dict_get items (wfm_name2 +:+ "_compl")) in
                let* w2 := entry_at h l2 in
                let wait_time := Z.of_nat (length (data w1)) in
                Ok (block ++ ["play      " +:+ pretty (index w1) +:+ ","
                              +:+ pretty (index w2) +:+ "," +:+ pretty wait_time],
                    loop_index + 1)
            | None => Ok (block, loop_index + 1)
            end
        | None => Raise ValueError
        end
    | None =>
        let* n1 := Py.index nb 1 in
        match idxs !! n1 with
        | Some _ => Raise ValueError
        | None => Ok ([line], loop_index)
        end
    end
  else Ok ([line], loop_index).

Fixpoint loop_plays (h : heap) (wfms : loc) (idxs : gmap Z (string * Z)) (step : Z)
  (loop_index : Z) (prog : list string) : result (list string) :=
  match prog with
  | [] => Ok []
  | line :: rest =>
      let* '(block, loop_index) := loop_play h wfms idxs step loop_index line in
      let* out := loop_plays h wfms idxs step loop_index rest in
      Ok (block ++ out)
  end.

(** The table part of [q1asm_transform_long_waveforms]: the copy, the two
    loops over the waveforms. *)
Definition fold_table (h : heap) (waveforms : loc) (step : Z)
  : result (fold_state * loc * list string) :=
  let* '(h, wfms) := deepcopy h waveforms in
  let* items := dict_at h waveforms in
  let* '(wfm_2loop, idxs) := find_long h items step ([], ∅) in
  let* st := fold_waveforms wfms step
               {| fs_heap := h; nb_compl := 0; wfm_2loop_indexes := idxs |} wfm_2loop in
  Ok (st, wfms, wfm_2loop).

(** [q1asm_transform_long_waveforms(simple_prog, waveforms, step)]: the
    store after the call, the program and the reference returned as
    [wfms]. *)
Definition q1asm_transform_long_waveforms (h : heap) (simple_prog : list string)
  (waveforms : loc) (step : Z) : result (heap * list string * loc) :=
  let* '(st, wfms, wfm_2loop) := fold_table h waveforms step in
  match wfm_2loop with
  | [] => Ok (fs_heap st, simple_prog, wfms)
  | _ =>
      let* prog := loop_plays (fs_heap st) wfms (wfm_2loop_indexes st) step 1 simple_prog in
      Ok (fs_heap st, Py.rstrip_lines prog, wfms)
  end.

End Waveforms.

(** *** Long chirps *)

(** What [q1asm_transform_long_chirps] obtains from Python's library and
    from floating-point arithmetic: the dictionary literal of the line, read
    by [ast.literal_eval] (here with integer values), and the numbers that
    are computed through a float before [int()]. *)
Record chirp_numbers : Type := {
  chirp_start : Z;
  chirp_end : Z;
  end_ramp_up : Z;
  end_cst : Z;
  freq_step : Z;
  gain_step : Z
}.

Class ChirpOps {FO : FloatOps} : Type := {
  (** [ast.literal_eval(line[line.find('{'):line.find('}')+1])] *)
  literal_eval : string -> result (list (string * Z));
  (** [int(gain*32767)] *)
  scale_gain : flt -> result Z;
  (** [chirp_start], [chirp_end], [end_ramp_up], [end_cst] (before the
      adjustment by one), [freq_step] and [int(gain/(ns*sm/100))], from
      [gain], [bw], [sm], [delta_f] and [ns] *)
  chirp_ints : Z -> Z -> Z -> Z -> Z -> result chirp_numbers;
  (** [[np.round((i/step)/(ns*sm/100), 8) for i in range(0, step)]] *)
  chirp_ramp : Z -> Z -> Z -> result (list flt)
}.

Section Chirps.
Context {FO : FloatOps} {CO : ChirpOps}.

(** The block of instructions of one chirp. *)
Definition chirp_block (gain : Z) (c : chirp_numbers) (bw delta_f step : Z)
  (chirp_index : Z) : list string :=
  let '(sweep_cond, sweep_cmd, up, cst, down) :=
    if bw >? 0
    then ("jlt", "add", end_ramp_up c + 1, end_cst c + 1, chirp_end c + 1)
    else ("jge", "sub", end_ramp_up c, end_cst c, chirp_end c) in
  let idx := pretty chirp_index in
  let wf := pretty (chirp_index + 300) in
  let play := "play      " +:+ wf +:+ "," +:+ wf +:+ "," +:+ pretty step in
  let sweep := sweep_cmd +:+ "       R8," +:+ pretty (freq_step c) +:+ ",R8" in
  let jump (bound : Z) (label : string) :=
    sweep_cond +:+ "       R8," +:+ pretty bound +:+ ",@" +:+ label +:+ idx in
  ["set_awg_gain " +:+ pretty gain +:+ ", " +:+ pretty gain;
   "move      0,R9";
   "move      " +:+ pretty (chirp_start c) +:+ ",R8";
   "ramp_up" +:+ idx +:+ ":";
   "add       R9," +:+ pretty (gain_step c) +:+ ",R9";
   "set_freq  R8";
   play;
   sweep;
   "set_awg_offs R9,R9";
   jump up "ramp_up";
   "sweep" +:+ idx +:+ ":";
   "set_freq  R8";
   sweep;
   "upd_param " +:+ pretty step;
   jump cst "sweep";
   "set_awg_gain " +:+ pretty (- gain) +:+ ", " +:+ pretty (- gain);
   "ramp_down" +:+ idx +:+ ":";
   "sub       R9," +:+ pretty (gain_step c) +:+ ",R9";
   "set_freq  R8";
   play;
   sweep;
   "set_awg_offs R9,R9";
   jump down "ramp_down";
   "set_freq  " +:+ pretty (delta_f * 4);
   "set_awg_gain " +:+ pretty gain +:+ ", " +:+ pretty gain;
   "set_awg_offs 0,0";
   "upd_param 8"].

(** One line of the loop of [q1asm_transform_long_chirps]: the store, the
    lines added to [prog] and [chirp_index] after it.  A mandatory key that
    is missing ends in a [NameError]: the handler of the [KeyError] prints
    [key], a name bound only inside the comprehension. *)
Definition chirp_line (gain : Z) (waveforms : loc) (h : heap) (chirp_index : Z)
  (line : string) : result (heap * list string * Z) :=
  if Py.startswith "play_lg_chirp" line then
    let* '(line, nb) := q1asm_get_line_info line in
    let* chirp_param := literal_eval line in
    let* bw := or_raise NameError (dict_get chirp_param "bw") in
    let* sm := or_raise NameError (dict_get chirp_param "sm") in
    let* delta_f := or_raise NameError (dict_get chirp_param "delta_f") in
    if delta_f <? 0 then Raise ValueError
    else
      let step := default 50 (dict_get chirp_param "step") in
      let* total := Py.last_item nb in
      let duration := total - 8 in
      let* _ := if step =? 0 then Raise ZeroDivisionError else Ok tt in
      if negb (duration `mod` step =? 0) then Raise ValueError
      else if negb ((duration * sm) `mod` step =? 0) then Raise ValueError
      else
        let ns := duration `div` step in
        let* c := chirp_ints gain bw sm delta_f ns in
        let* ramp := chirp_ramp step ns sm in
        let* items := dict_at h waveforms in
        let '(h, l) := alloc_entry h {| data := ramp; index := chirp_index + 300 |} in
        let h := write_dict h waveforms
                   (dict_set items ("chirpsm" +:+ pretty chirp_index) l) in
        Ok (h, chirp_block gain c bw delta_f step chirp_index, chirp_index + 1)
  else Ok (h, [line], chirp_index).

Fixpoint chirp_lines (gain : Z) (waveforms : loc) (h : heap) (chirp_index : Z)
  (prog : list string) : result (heap * list string) :=
  match prog with
  | [] => Ok (h, [])
  | line :: rest =>
      let* '(h, block, chirp_index) := chirp_line gain waveforms h chirp_index line in
      let* '(h, out) := chirp_lines gain waveforms h chirp_index rest in
      Ok (h, block ++ out)
  end.

(** [q1asm_transform_long_chirps(simple_prog, waveforms, gain)]: the store
    after the call, the program and the reference returned as
    [waveforms]. *)
Definition q1asm_transform_long_chirps (h : heap) (simple_prog : list string)
  (waveforms : loc) (gain : flt) : result (heap * list string * loc) :=
  let* gain := scale_gain gain in
  let* '(h, prog) := chirp_lines gain waveforms h 1 simple_prog in
  Ok (h, Py.rstrip_lines prog, waveforms).

End Chirps.

(** *** Other passes of the converter *)

(** [get_grid_duration(prog)] *)
Fixpoint grid_duration_from (grid_duration : Z) (prog : list string) : result Z :=
  match prog with
  | [] => Ok grid_duration
  | line :: rest =>
      let* '(line, nb) := q1asm_get_line_info line in
      let* w := q1asm_line_issimplewait line in
      let* grid_duration :=
        if w || Py.contains "upd_param" line
        then let* n := Py.index nb 0 in Ok (grid_duration + n)
        else Ok grid_duration in
      let* grid_duration :=
        if Py.contains "play" line || Py.contains "acquire" line
        then let* n := Py.last_item nb in Ok (grid_duration + n)
        else Ok grid_duration in
      grid_duration_from grid_duration rest
  end.

Definition get_grid_duration (prog : list string) : result Z :=
  grid_duration_from 0 prog.

(** [int(s, 2)] on a token without blanks: an optional sign, an optional
    [0b] or [0B] that one underscore may follow, then binary digits with
    single underscores between them. *)
Fixpoint bin_digits (after_digit : bool) (acc : Z) (s : string) : option Z :=
  match s with
  | EmptyString => if after_digit then Some acc else None
  | String c s' =>
      if Ascii.eqb c "0" || Ascii.eqb c "1"
      then bin_digits true (2 * acc + Py.digit_val c) s'
      else if Ascii.eqb c "_" && after_digit then bin_digits false acc s'
      else None
  end.

Definition int_base2 (s : string) : result Z :=
  let '(negative, s) :=
    match s with
    | String "-"%char r => (true, r)
    | String "+"%char r => (false, r)
    | _ => (false, s)
    end in
  let s :=
    match s with
    | String "0"%char (String b r) =>
        if Ascii.eqb b "b" || Ascii.eqb b "B"
        then match r with String "_"%char r' => r' | _ => r end
        else s
    | _ => s
    end in
  let* n := or_raise ValueError (bin_digits false 0 s) in
  Ok (if negative then - n else n).

(** One line of the loop of [q1asm_convert_markers]. *)
Definition convert_marker (line : string) : result string :=
  if Py.startswith "set_mrk" line then
    let* arg := Py.index (Py.split line) 1 in
    if (2 <? String.length arg)%nat then
      let* _ := assert (String.length arg =? 4)%nat
                       "marker binary command should have a length of 4." in
      let* int_cmd := int_base2 arg in
      let* _ := assert ((0 <=? int_cmd) && (int_cmd <=? 15))
                       "binary command not correctly converted to 0 <= int <= 15." in
      Ok ("set_mrk   " +:+ pretty int_cmd)
    else Ok line
  else Ok line.

Fixpoint convert_marker_lines (prog : list string) : result (list string) :=
  match prog with
  | [] => Ok []
  | line :: rest =>
      let* l := convert_marker line in
      let* out := convert_marker_lines rest in
      Ok (l :: out)
  end.

(** [q1asm_convert_markers(simple_prog)] *)
Definition q1asm_convert_markers (simple_prog : list string) : result (list string) :=
  let* prog := convert_marker_lines simple_prog in
  Ok (Py.rstrip_lines prog).

Section Stage.
Context {FO : FloatOps} {CO : ChirpOps}.

(** [prog += '\nstop'] on the lines of [prog]; an empty text has no line. *)
Definition add_stop (prog : list string) : list string :=
  match prog with
  | [] => [""; "stop"]
  | _ => prog ++ ["stop"]
  end.

(** The end of [simple2real_Q1ASM] when [waveforms] is given: the two
    waveform passes, the [stop] line and the values returned. *)
Definition waveform_stage (h : heap) (prog : list string) (waveforms : loc)
  : result (heap * list string * loc) :=
  let* '(h, prog, wfms) := q1asm_transform_long_waveforms h prog waveforms 32 in
  let* '(h, prog, wfms) := q1asm_transform_long_chirps h prog waveforms (flt_truediv 3 10) in
  Ok (h, add_stop prog, wfms).

End Stage.

(** [q1asm_add_avg_loop(prog, avg_nb, loop_register, loop_label)]: two
    lines before the program and one after it; an empty program is one empty
    line between them. *)
Definition q1asm_add_avg_loop (prog : list string) (avg_nb : Z)
    (loop_register loop_label : string) : list string :=
  ["move      " +:+ pretty avg_nb +:+ "," +:+ loop_register; loop_label +:+ ":"]
  ++ match prog with [] => [""] | _ => prog end
  ++ ["loop      " +:+ loop_register +:+ ",@" +:+ loop_label].

(** [q1asm_get_prog_dummy(prog, dummy_nb)]: the loop over the lines, then
    the loop around them. *)
Fixpoint dummy_lines (prog : list string) : result (list string) :=
  match prog with
  | [] => Ok []
  | line :: rest =>
      let* l :=
        if Py.contains "acquire" line then
          let* '(_, nb) := q1asm_get_line_info line in
          let* n := Py.last_item nb in
          Ok ("wait      " +:+ pretty n)
        else Ok line in
      let* out := dummy_lines rest in
      Ok (l :: out)
  end.

Definition q1asm_get_prog_dummy (prog : list string) (dummy_nb : Z)
  : result (list string) :=
  let* prog_dummy := dummy_lines prog in
  let prog_dummy := Py.rstrip_lines prog_dummy in
  Ok (if dummy_nb >? 1
      then q1asm_add_avg_loop prog_dummy dummy_nb "R63" "loop_dummy"
      else prog_dummy).

End Esr.

(** ** Unit converters and the macro assembler ([simple_convert.py]) *)

(** *** Python floats (binary64) *)

Module PyFloat.

(** A Python number given to a converter. *)
Inductive number : Type :=
| PyInt (z : Z)
| PyFloat (f : float).

(** [float(z)] for an [int] below [2^53] in magnitude (exact). *)
Definition of_Z (z : Z) : float :=
  match z with
  | Z0 => PrimFloat.zero
  | Zpos p => SF2Prim (S754_finite false p 0)
  | Zneg p => SF2Prim (S754_finite true p 0)
  end.

(** [int(x)]: truncation towards zero; [ValueError] on a NaN,
    [OverflowError] on an infinity. *)
Definition to_Z (x : float) : result Z :=
  match Prim2SF x with
  | S754_nan => Raise ValueError
  | S754_infinity _ => Raise OverflowError
  | S754_zero _ => Ok 0
  | S754_finite s m e =>
      let mag := if (0 <=? e) then Z.shiftl (Zpos m) e else Z.shiftr (Zpos m) (- e) in
      Ok (if s then - mag else mag)
  end.

(** [np.round(x)]: the nearest integer, ties to even.  Below [2^52] in
    magnitude it is obtained by adding and removing [2^52]; a larger float
    is an integer already. *)
Definition two52 : float := 4503599627370496%float.

Definition round (x : float) : float :=
  if PrimFloat.ltb (PrimFloat.abs x) two52 then
    if PrimFloat.ltb x PrimFloat.zero
    then PrimFloat.add (PrimFloat.sub x two52) two52
    else PrimFloat.sub (PrimFloat.add x two52) two52
  else x.

(** C's [fmod(x, y)] for finite [x] and finite non-zero [y]: the exact
    remainder of the magnitudes, with the sign of [x]. *)
Definition fmod (x y : float) : float :=
  match Prim2SF x, Prim2SF y with
  | S754_finite sx mx ex, S754_finite _ my ey =>
      let e := Z.min ex ey in
      let r := (Z.shiftl (Zpos mx) (ex - e)) `mod` (Z.shiftl (Zpos my) (ey - e)) in
      match r with
      | Zpos p => SF2Prim (S754_finite sx p e)
      | _ => SF2Prim (S754_zero sx)
      end
  | S754_zero sx, S754_finite _ _ _ => SF2Prim (S754_zero sx)
  | S754_finite _ _ _, S754_infinity _ => x
  | S754_zero _, S754_infinity _ => x
  | _, _ => PrimFloat.nan
  end.

(** [x % y] on floats ([float_rem] of CPython): the remainder takes the
    sign of [y]; a zero divisor raises. *)
Definition rem (x y : float) : result float :=
  if PrimFloat.eqb y PrimFloat.zero then Raise ZeroDivisionError
  else
    let m := fmod x y in
    if PrimFloat.eqb m PrimFloat.zero then
      Ok (if PrimFloat.ltb y PrimFloat.zero then PrimFloat.neg_zero else PrimFloat.zero)
    else if Bool.eqb (PrimFloat.ltb y PrimFloat.zero) (PrimFloat.ltb m PrimFloat.zero)
    then Ok m
    else Ok (PrimFloat.add m y).

(** The value of a finite float, counted in units of [2^-1074], the smallest
    positive float: every finite float is a whole number of them.  It tells
    whether a float operation was exact. *)
Definition units (x : float) : option Z :=
  match Prim2SF x with
  | S754_zero _ => Some 0
  | S754_finite s m e =>
      Some (if s then - (Zpos m * 2 ^ (e + 1074)) else Zpos m * 2 ^ (e + 1074))
  | _ => None
  end.

End PyFloat.

(** [float(text)], the parser of Python's runtime. *)
Class FloatParse : Type := { py_float : string -> result float }.

Module Simple.

(** *** Unit converters *)

(** [q1asm_ph(phase, deg)].  An [int] phase is wrapped in integer
    arithmetic and becomes a float in the product; a float phase is wrapped
    with the float remainder. *)
Definition rad2deg (x : float) : float := PrimFloat.mul x 57.29577951308232%float.

Definition q1asm_ph (phase : PyFloat.number) (deg : bool) : result Z :=
  let phase := if deg then phase
               else match phase with
                    | PyFloat.PyInt z => PyFloat.PyFloat (rad2deg (PyFloat.of_Z z))
                    | PyFloat.PyFloat f => PyFloat.PyFloat (rad2deg f)
                    end in
  let* phase_wrapped :=
    match phase with
    | PyFloat.PyInt z => Ok (PyFloat.of_Z (z `mod` 360))
    | PyFloat.PyFloat f => PyFloat.rem f 360%float
    end in
  let q1asm_phase := PrimFloat.mul phase_wrapped 2777777.777778%float in
  PyFloat.to_Z (PyFloat.round q1asm_phase).

(** [q1asm_gain(gain)] *)
Definition q1asm_gain (gain : float) : result Z :=
  if PrimFloat.ltb gain (-1)%float || PrimFloat.ltb 1%float gain then Raise ValueError
  else
    let scale := if PrimFloat.leb 0%float gain then 32767%float else 32768%float in
    PyFloat.to_Z (PyFloat.round (PrimFloat.mul gain scale)).

(** [q1asm_freq(freq)] *)
Definition q1asm_freq (freq : float) : result Z :=
  if PrimFloat.ltb freq (-500000000)%float || PrimFloat.ltb 500000000%float freq
  then Raise ValueError
  else PyFloat.to_Z (PyFloat.round (PrimFloat.mul freq 4%float)).

(** *** Regular expressions of the module, as scanners

    [\w] is a letter, a digit or an underscore; [\s] is [str.isspace]. *)
Definition is_word (c : ascii) : bool :=
  let n := N_of_ascii c in
  Py.isdigit_char c
  || ((65 <=? n)%N && (n <=? 90)%N)
  || ((97 <=? n)%N && (n <=? 122)%N)
  || (n =? 95)%N.

(** The longest prefix of word characters, and the rest. *)
Fixpoint span_word (s : string) : string * string :=
  match s with
  | EmptyString => (EmptyString, EmptyString)
  | String c s' =>
      if is_word c then let '(w, r) := span_word s' in (String c w, r)
      else (EmptyString, s)
  end.

(** [\s*(\w+)] at the start of [s]: the word and what follows it. *)
Definition scan_word (s : string) : option (string * string) :=
  match span_word (Py.lstrip s) with
  | (EmptyString, _) => None
  | (w, r) => Some (w, r)
  end.

(** [\s*c] at the start of [s], for a character [c] that is not blank. *)
Definition scan_char (p : ascii -> bool) (s : string) : option (ascii * string) :=
  match Py.lstrip s with
  | String c r => if p c then Some (c, r) else None
  | EmptyString => None
  end.

Definition at_end (s : string) : bool :=
  match Py.lstrip s with EmptyString => true | _ => false end.

(** [re.match(r'^\s*(\w+)\s*=\s*(\w+)\s*$', line)] *)
Definition match_equal (line : string) : option (string * string) :=
  '(destination, r) ← scan_word line;
  '(_, r) ← scan_char (Ascii.eqb "=") r;
  '(source, r) ← scan_word r;
  if at_end r then Some (destination, source) else None.

Definition is_operator (c : ascii) : bool :=
  Ascii.eqb c "+" || Ascii.eqb c "-" || Ascii.eqb c "*" || Ascii.eqb c "/".

(** [re.match(r'^\s*(\w+)\s*=\s*(\w+)\s*([+\-*/])\s*(\w+)\s*$', line)] *)
Definition match_operator (line : string) : option (string * string * ascii * string) :=
  '(dest, r) ← scan_word line;
  '(_, r) ← scan_char (Ascii.eqb "=") r;
  '(op1, r) ← scan_word r;
  '(operator, r) ← scan_char is_operator r;
  '(op2, r) ← scan_word r;
  if at_end r then Some (dest, op1, operator, op2) else None.

(** [re.search(r'\bR1\b', line)]: [R1] neither preceded nor followed by a
    word character. *)
Fixpoint search_R1 (prev_word : bool) (s : string) : bool :=
  match s with
  | EmptyString => false
  | String c s' =>
      (negb prev_word && Py.startswith "R1" s
       && match s' with
          | String _ (String c2 _) => negb (is_word c2)
          | _ => true
          end)
      || search_R1 (is_word c) s'
  end.

(** [s[0] != 'R'] for a word [s] *)
Definition not_register (s : string) : bool := negb (Py.startswith "R" s).

(** *** Operators *)

(** [equal2q1asm(line)] *)
Definition equal2q1asm (line : string) : result string :=
  let* '(destination, source) := or_raise AttributeError (match_equal line) in
  Ok ("move      " +:+ destination +:+ "," +:+ source).

(** The unrolled additions of a multiplication: [count] lines. *)
Definition add_lines (dest reg : string) (count : Z) : list string :=
  replicate (Z.to_nat count) ("add       " +:+ dest +:+ "," +:+ reg +:+ "," +:+ dest).

(** [f'{mult_loop_index}'] for an [int] or [None] *)
Definition pretty_index (i : option Z) : string :=
  match i with Some n => pretty n | None => "None" end.

(** [operator2q1asm(line, mult_loop_index)]: the lines of [q1asm_line] and
    the index returned. *)
Definition operator2q1asm (line : string) (mult_loop_index : option Z)
  : result (list string * option Z) :=
  let* '(dest, op1, operator, op2) := or_raise AttributeError (match_operator line) in
  if Ascii.eqb operator "+" || Ascii.eqb operator "-" then
    let op_cmd := if Ascii.eqb operator "+" then "add" else "sub" in
    if not_register op1 && not_register op2 then Raise NotImplementedError
    else if not_register op1 then
      Ok ([op_cmd +:+ "       " +:+ op2 +:+ "," +:+ op1 +:+ "," +:+ dest], mult_loop_index)
    else
      Ok ([op_cmd +:+ "       " +:+ op1 +:+ "," +:+ op2 +:+ "," +:+ dest], mult_loop_index)
  else if Ascii.eqb operator "*" then
    if not_register op1 && not_register op2 then Raise NotImplementedError
    else if negb (not_register op1) && negb (not_register op2) then Raise NotImplementedError
    else
      (* [reg, count = op1, op2] in one branch, [count, reg = op2, op1] in
         the other: the same assignment twice *)
      let '(reg, count) :=
        if negb (not_register op1) then (op1, op2) else (op1, op2) in
      if Py.streq reg dest then Raise NotImplementedError
      else
        let q1asm_line := ["move      " +:+ dest +:+ "," +:+ reg] in
        let* count := Py.int count in
        let count := count - 1 in
        if count <? 0 then Raise NotImplementedError
        else if count <? 5 then
          Ok (Py.rstrip_lines (q1asm_line ++ add_lines dest reg count), mult_loop_index)
        else
          let q1asm_line :=
            q1asm_line ++
            ["move      R1," +:+ pretty count;
             "loop_mult" +:+ pretty_index mult_loop_index +:+ ":";
             "add       " +:+ dest +:+ "," +:+ reg +:+ "," +:+ dest;
             "nop";
             "loop     R1,@loop_mult" +:+ pretty_index mult_loop_index] in
          let* i := or_raise TypeError mult_loop_index in
          Ok (Py.rstrip_lines q1asm_line, Some (i + 1))
  else Raise NotImplementedError.

(** *** Command helpers *)

Section Helpers.
Context {FP : FloatParse}.

(** [_arg_between_parens(s)] *)
Definition _arg_between_parens (s : string) : result string :=
  let* after := or_raise ValueError (Py.after_char "(" s) in
  let* _ := or_raise ValueError (Py.after_char ")" after) in
  Ok (Py.strip (Py.before_char ")" after)).

(** The inner [while] of [_replace_function_calls]: from the character
    after the opening parenthesis, the text up to the matching closing one
    and the text after it. *)
Fixpoint matching_paren (depth : nat) (s : string) : option (string * string) :=
  match s with
  | EmptyString => None
  | String c s' =>
      let depth := if Ascii.eqb c "(" then S depth
                   else if Ascii.eqb c ")" then Nat.pred depth else depth in
      match depth with
      | O => Some (EmptyString, s')
      | _ => match matching_paren depth s' with
             | Some (a, r) => Some (String c a, r)
             | None => None
             end
      end
  end.

(** [_replace_function_calls(line, func_name, converter)]; [fuel] bounds
    the number of calls on the line (its length is enough). *)
Fixpoint replace_calls (fuel : nat) (func_name : string) (converter : float -> result Z)
  (line : string) : result string :=
  match fuel with
  | O => Ok line
  | S fuel' =>
      match Py.cut (func_name +:+ "(") line with
      | None => Ok line
      | Some (before, after) =>
          let* '(arg_text, rest) := or_raise ValueError (matching_paren 1 after) in
          let* val := py_float (Py.strip arg_text) in
          let* v := converter val in
          let* rest' := replace_calls fuel' func_name converter rest in
          Ok (before +:+ pretty v +:+ rest')
      end
  end.

Definition _replace_function_calls (line func_name : string)
  (converter : float -> result Z) : result string :=
  replace_calls (String.length line) func_name converter line.

(** [_check_arg_not_register(line, arg)] *)
Definition _check_arg_not_register (arg : string) : result unit :=
  if Py.startswith "R" arg then Raise ValueError else Ok tt.

(** [r'^\s*set_mrk\(\s*t1t2t3t4\s*=\s*([01]{4})\s*\)\s*$'] *)
Definition is_bit (c : ascii) : bool := Ascii.eqb c "0" || Ascii.eqb c "1".

(** [\\s*lit] at the start of [s]: what follows the literal. *)
Definition scan_lit (lit s : string) : option string :=
  let s := Py.lstrip s in
  if Py.startswith lit s
  then Some (String.substring (String.length lit) (String.length s) s)
  else None.

Definition match_set_mrk (line : string) : option string :=
  r ← scan_lit "set_mrk(" line;
  r ← scan_lit "t1t2t3t4" r;
  '(_, r) ← scan_char (Ascii.eqb "=") r;
  match Py.lstrip r with
  | String b1 (String b2 (String b3 (String b4 r))) =>
      if is_bit b1 && is_bit b2 && is_bit b3 && is_bit b4 then
        '(_, r) ← scan_char (Ascii.eqb ")") r;
        if at_end r then Some (String b1 (String b2 (String b3 (String b4 EmptyString))))
        else None
      else None
  | _ => None
  end.

(** [set_mrk(line)] *)
Definition set_mrk (line : string) : result string :=
  let* binary := or_raise (AssertionError "invalid set_mrk() syntax") (match_set_mrk line) in
  let int_cmd := Py.int_base2 0 (Py.reverse binary) in
  let* _ := assert ((0 <=? int_cmd) && (int_cmd <=? 15)) "marker value must be in [0..15]" in
  Ok ("set_mrk   " +:+ pretty int_cmd).

(** [set_ph(line)] and [set_ph_delta(line)] *)
Definition set_ph (line : string) : result string :=
  let* arg := _arg_between_parens line in
  let* _ := _check_arg_not_register arg in
  let* x := py_float arg in
  let* q1asm_phase := q1asm_ph (PyFloat.PyFloat x) true in
  Ok ("set_ph    " +:+ pretty q1asm_phase).

Definition set_ph_delta (line : string) : result string :=
  let* l := set_ph line in
  Ok (Py.replace_first "set_ph   " "set_ph_delta" l).

(** [set_awg_gain(line)] and [set_awg_offs(line)] *)
Definition set_awg_gain (line : string) : result string :=
  let* args_str := _arg_between_parens line in
  match Py.split_on "," args_str with
  | [a0; a1] =>
      let* _ := _check_arg_not_register a0 in
      let* _ := _check_arg_not_register a1 in
      let* x0 := py_float a0 in
      let* gi := q1asm_gain x0 in
      let* x1 := py_float a1 in
      let* gq := q1asm_gain x1 in
      Ok ("set_awg_gain " +:+ pretty gi +:+ "," +:+ pretty gq)
  | _ => Raise ValueError
  end.

Definition set_awg_offs (line : string) : result string :=
  let* l := set_awg_gain line in
  Ok (Py.replace_first "set_awg_gain" "set_awg_offs" l).

(** [set_freq(line)] *)
Definition set_freq (line : string) : result string :=
  let* arg := _arg_between_parens line in
  let* _ := _check_arg_not_register arg in
  let* x := py_float arg in
  let* q1asm_frequency := q1asm_freq x in
  Ok ("set_freq  " +:+ pretty q1asm_frequency).

(** *** The main conversion *)

(** One iteration of the loop of [simple_convert_q1asm]: the lines that
    replace [prog[i]] and [mult_loop_index] after it. *)
Definition convert_line (mult_loop_index : Z) (line : string) : result (list string * Z) :=
  let line := Py.before_char "#" line in
  if search_R1 false line then Raise NameError
  else
    let line := Py.strip line in
    let* line :=
      if Py.contains "q1asm_ph(" line then
        _replace_function_calls line "q1asm_ph" (fun v => q1asm_ph (PyFloat.PyFloat v) true)
      else if Py.contains "q1asm_gain(" line then
        _replace_function_calls line "q1asm_gain" q1asm_gain
      else if Py.contains "q1asm_freq(" line then
        _replace_function_calls line "q1asm_freq" q1asm_freq
      else Ok line in
    let one (r : result string) : result (list string * Z) :=
      let* l := r in Ok ([l], mult_loop_index) in
    match match_equal line with
    | Some _ => one (equal2q1asm line)
    | None =>
        match match_operator line with
        | Some _ =>
            let* '(lines, mult_loop_i) := operator2q1asm line (Some mult_loop_index) in
            Ok (lines, default mult_loop_index mult_loop_i)
        | None =>
            if Py.startswith "set_mrk(" line then one (set_mrk line)
            else if Py.startswith "set_ph(" line then one (set_ph line)
            else if Py.startswith "set_ph_delta(" line then one (set_ph_delta line)
            else if Py.startswith "set_awg_gain(" line then one (set_awg_gain line)
            else if Py.startswith "set_awg_offs(" line then one (set_awg_offs line)
            else if Py.startswith "set_freq(" line then one (set_freq line)
            else Ok ([Py.strip line], mult_loop_index)
        end
    end.

Fixpoint convert_lines (mult_loop_index : Z) (prog : list string) : result (list string) :=
  match prog with
  | [] => Ok []
  | line :: rest =>
      let* '(lines, mult_loop_index) := convert_line mult_loop_index line in
      let* out := convert_lines mult_loop_index rest in
      Ok (lines ++ out)
  end.

(** [simple_convert_q1asm(simple_prog)] *)
Definition simple_convert_q1asm (simple_prog : list string) : result (list string) :=
  convert_lines 0 simple_prog.

End Helpers.

End Simple.

(** * Theorems *)

(** ** The error monad *)

Lemma bind_Ok {A B : Type} (r : result A) (k : A -> result B) (b : B) :
  bind r k = Ok b -> exists a, r = Ok a /\ k a = Ok b.
Proof. destruct r as [a|e]; simpl; [eauto | discriminate]. Qed.

Ltac inv_bind H :=
  let a := fresh "a" in
  let Ha := fresh "Ha" in
  apply bind_Ok in H; destruct H as (a & Ha & H).

(** Case analysis on the outcome of a monadic computation that returned. *)
Ltac ok_step :=
  match goal with
  | H : Ok _ = Ok _ |- _ => injection H as H; try subst
  | H : Raise _ = Ok _ |- _ => discriminate H
  | H : bind ?r _ = Ok _ |- _ => inv_bind H
  | H : (if ?c then _ else _) = Ok _ |- _ => destruct c eqn:?
  | H : match (if ?c then _ else _) with _ => _ end = Ok _ |- _ => destruct c eqn:?
  | H : match ?x with _ => _ end = Ok _ |- _ => destruct x eqn:?
  end.
Ltac ok_steps := repeat (ok_step; cbv beta iota zeta in * ).

(** ** The emulator *)

Module EmuFacts.
Section Facts.
Context {FO : FloatOps}.
Import Emu.

(** The I and Q traces have one sample per unit of simulated time. *)
Definition traces_in_step (s : state) : Prop :=
  length (out_I s) = length (out_Q s) /\ Z.of_nat (length (out_I s)) = timing s.

(** State updates that leave the traces and the clock alone. *)
Definition same_traces (s s' : state) : Prop :=
  out_I s' = out_I s /\ out_Q s' = out_Q s /\ timing s' = timing s.

Lemma same_traces_in_step s s' :
  same_traces s s' -> traces_in_step s -> traces_in_step s'.
Proof. unfold same_traces, traces_in_step. intros (-> & -> & ->). auto. Qed.

Lemma tick_traces G_I G_Q s s' :
  tick G_I G_Q s = Ok s' ->
  length (out_I s') = S (length (out_I s)) /\
  length (out_Q s') = S (length (out_Q s)) /\
  timing s' = timing s + 1.
Proof.
  unfold tick. intros H.
  destruct (acquire s); ok_steps; cbn [out_I out_Q timing record_sample];
    rewrite !length_app; cbn [length]; lia.
Qed.

Lemma ticks_traces n : forall G_I G_Q s s',
  ticks n G_I G_Q s = Ok s' ->
  length (out_I s') = (length (out_I s) + n)%nat /\
  length (out_Q s') = (length (out_Q s) + n)%nat /\
  timing s' = timing s + Z.of_nat n.
Proof.
  induction n as [|n IH]; cbn [ticks]; intros G_I G_Q s s' H.
  - injection H as <-. lia.
  - inv_bind H. apply tick_traces in Ha. apply IH in H. lia.
Qed.

Lemma advance_time_traces duration s s' :
  advance_time duration s = Ok s' ->
  length (out_I s') = (length (out_I s) + Z.to_nat duration)%nat /\
  length (out_Q s') = (length (out_Q s) + Z.to_nat duration)%nat /\
  timing s' = timing s + Z.max 0 duration.
Proof.
  unfold advance_time. intros H. do 2 inv_bind H.
  apply ticks_traces in H. lia.
Qed.

Lemma advance_time_in_step duration s s' :
  advance_time duration s = Ok s' -> traces_in_step s -> traces_in_step s'.
Proof.
  intros H [H1 H2]. apply advance_time_traces in H. unfold traces_in_step. lia.
Qed.

Ltac solve_traces :=
  match goal with
  | Hs : traces_in_step ?s |- traces_in_step ?s => exact Hs
  | H : advance_time _ ?x = Ok ?a |- traces_in_step _ =>
      apply (same_traces_in_step a); [repeat split; reflexivity|];
      apply (advance_time_in_step _ _ _ H);
      match goal with
      | Hs : traces_in_step ?s |- _ =>
          apply (same_traces_in_step s); [repeat split; reflexivity | exact Hs]
      end
  | Hs : traces_in_step ?s |- traces_in_step _ =>
      apply (same_traces_in_step s); [repeat split; reflexivity | exact Hs]
  end.

Lemma exec_in_step instruction parts numbers s s' b :
  exec instruction parts numbers s = Ok (s', b) ->
  traces_in_step s -> traces_in_step s'.
Proof.
  unfold exec. intros H Hs.
  ok_steps; solve_traces.
Qed.

Lemma step_line_in_step line s s' b :
  step_line line s = Ok (s', b) -> traces_in_step s -> traces_in_step s'.
Proof.
  unfold step_line. intros H Hs.
  repeat match goal with
  | H : exec _ _ _ _ = Ok _ |- _ =>
      apply exec_in_step in H; [exact H | solve_traces]
  | _ => ok_step; cbv beta iota zeta in *
  end; solve_traces.
Qed.

Lemma step_in_step lines s :
  traces_in_step s ->
  match step lines s with
  | Running s' | Halted s' => traces_in_step s'
  | Failed _ => True
  end.
Proof.
  intros Hs. unfold step.
  destruct (nth_error lines (pc s)) as [line|]; [|exact Hs].
  destruct (step_line line s) as [[s' []]|e] eqn:H; [| |exact I];
    eapply step_line_in_step; eauto.
Qed.

Lemma steps_in_step lines n : forall s,
  traces_in_step s ->
  match steps n lines s with
  | Running s' | Halted s' => traces_in_step s'
  | Failed _ => True
  end.
Proof.
  induction n as [|n IH]; intros s Hs; cbn [steps]; [exact Hs|].
  pose proof (step_in_step lines s Hs) as H.
  destruct (step lines s) as [s'|s'|e]; [apply IH; exact H | exact H | exact I].
Qed.

Lemma init_in_step sq s : init sq = Ok s -> traces_in_step s.
Proof.
  unfold init. intros H. ok_steps. split; reflexivity.
Qed.

(** C10. Whatever the program and however long it is run, the emulator's I
    and Q traces have the same length, and that length is the value of the
    simulated-time counter: this holds in every state the execution loop
    reaches, the final one included; and a call of [advance_time] adds one
    sample per time step to each trace, acquiring or not, playing or not. *)
Theorem traces_follow_the_clock :
  (forall (sq : sequence) (fuel : nat),
     match emulate fuel sq with
     | Running s | Halted s =>
         length (out_I s) = length (out_Q s) /\
         Z.of_nat (length (out_I s)) = timing s
     | Failed _ => True
     end) /\
  (forall (duration : Z) (s s' : state),
     advance_time duration s = Ok s' ->
     length (out_I s') = (length (out_I s) + Z.to_nat duration)%nat /\
     length (out_Q s') = (length (out_Q s) + Z.to_nat duration)%nat /\
     timing s' = timing s + Z.max 0 duration).
Proof.
  split.
  - intros sq fuel. unfold emulate.
    destruct (init sq) as [s|e] eqn:Hinit; [|exact I].
    apply (steps_in_step (program sq) fuel s), (init_in_step sq), Hinit.
  - exact advance_time_traces.
Qed.

(** *** Conditional jumps *)

Definition bare (lines : list string) : sequence :=
  {| program := lines; seq_waveforms := []; seq_acquisitions := [] |}.

(** What [jge] does: the register is compared with zero, whatever the
    second operand, and the label is looked up under the text of the second
    operand. *)
Lemma jge_compares_with_zero (reg imm label : string) (numbers : list Z) (s : state) :
  exec "jge" ["jge"; reg; imm; label] numbers s =
  if reg_get s reg >=? 0
  then let* target := label_at s imm in Ok (set_pc target s, false)
  else Ok (next s, false).
Proof. reflexivity. Qed.

(** What [jlt] does: the jump is taken exactly when the register is below
    the immediate. *)
Lemma jlt_compares_with_immediate (reg imm label : string) (n : Z) (rest : list Z)
  (s : state) :
  exec "jlt" ["jlt"; reg; imm; label] (n :: rest) s =
  if reg_get s reg <? n
  then let* target := label_at s (Py.drop_first label) in Ok (set_pc target s, false)
  else Ok (next s, false).
Proof. reflexivity. Qed.

Definition final_registers (o : outcome) (regs : list string) : option (list (option Z)) :=
  match o with
  | Halted s => Some ((fun r => registers s !! r) <$> regs)
  | _ => None
  end.

Definition failure (o : outcome) : option exn :=
  match o with Failed e => Some e | _ => None end.

(** C3 (defect). [jge R0,10,@skip] with R0 = 5 should fall through (5 < 10)
    and [jge R0,3,@skip] should jump; both look up a label named after the
    immediate and fail.  With R0 = -1, [jge R0,-5,@skip] should jump
    (-1 >= -5) and falls through instead: the [move] after it runs. *)
Theorem jge_ignores_its_immediate :
  failure (emulate 10 (bare ["move 5,R0"; "jge R0,10,@skip"; "move 1,R2"; "skip:"; "stop"]))
    = Some KeyError /\
  failure (emulate 10 (bare ["move 5,R0"; "jge R0,3,@skip"; "move 1,R2"; "skip:"; "stop"]))
    = Some KeyError /\
  final_registers
    (emulate 10 (bare ["sub R0,1,R0"; "jge R0,-5,@skip"; "move 7,R3"; "skip:"; "stop"]))
    ["R0"; "R3"] = Some [Some (-1); Some 7] /\
  final_registers
    (emulate 10 (bare ["move 5,R0"; "jlt R0,10,@skip"; "move 7,R3"; "skip:"; "stop"]))
    ["R0"; "R3"] = Some [Some 5; Some 0].
Proof. repeat split; vm_compute; reflexivity. Qed.

(** *** Range checks *)

Definition final_markers (o : outcome) : option (Z * list (Z * Z)) :=
  match o with
  | Halted s => Some (marker_state s, markers s)
  | _ => None
  end.

(** The guard of [set_mrk] asks for a marker state both above 15 and below
    0, so it never fires. *)
Lemma set_mrk_never_raises (parts : list string) (numbers : list Z) (s : state) (m : Z) :
  number_or_register parts numbers s = Ok m ->
  exec "set_mrk" parts numbers s = Ok (next (set_marker_state m s), false).
Proof.
  intros H. unfold exec. cbn [Py.streq String.eqb Ascii.eqb Bool.eqb bind].
  rewrite H. cbn [bind marker_state set_marker_state].
  destruct (m >? 15) eqn:H1, (m <? 0) eqn:H2; try reflexivity. lia.
Qed.

(** C4 (defect). [set_mrk 16] and [set_mrk -1] raise nothing: the marker
    state is recorded as it is, and appears in the marker timeline. *)
Theorem set_mrk_out_of_range_is_recorded :
  final_markers (emulate 10 (bare ["set_mrk 16"; "stop"])) = Some (16, [(0, 0); (0, 16)]) /\
  final_markers (emulate 10 (bare ["set_mrk -1"; "stop"])) = Some (-1, [(0, 0); (0, -1)]) /\
  final_markers (emulate 10 (bare ["set_mrk 15"; "stop"])) = Some (15, [(0, 0); (0, 15)]).
Proof. repeat split; vm_compute; reflexivity. Qed.

(** C5 (defect). Only [move] checks the 32-bit bound: [add] and [asl] store
    2^32 and more, [sub] stores a negative number, and execution goes on;
    the same value given to [move] is refused. *)
Theorem only_move_checks_the_register_width :
  final_registers (emulate 10 (bare ["move 4294967295,R0"; "add R0,1,R0"; "stop"])) ["R0"]
    = Some [Some 4294967296] /\
  final_registers (emulate 10 (bare ["move 1,R0"; "asl R0,40,R0"; "nop"; "stop"])) ["R0"]
    = Some [Some 1099511627776] /\
  final_registers (emulate 10 (bare ["sub R0,1,R0"; "stop"])) ["R0"] = Some [Some (-1)] /\
  failure (emulate 10 (bare ["move 4294967296,R0"; "stop"]))
    = Some (Exception "Registars can only store 32 bit integers").
Proof. repeat split; vm_compute; reflexivity. Qed.

End Facts.
End EmuFacts.

(** ** Strings *)

Module StringFacts.
Import Py.

Lemma str_app_nil_l (s : string) : "" +:+ s = s.
Proof. reflexivity. Qed.

Lemma str_app_cons (c : ascii) (s t : string) : String c s +:+ t = String c (s +:+ t).
Proof. reflexivity. Qed.

Lemma str_app_nil_r (s : string) : s +:+ "" = s.
Proof. induction s as [|c s IH]; [reflexivity|]. rewrite str_app_cons, IH. reflexivity. Qed.

Lemma str_app_assoc (s t u : string) : (s +:+ t) +:+ u = s +:+ t +:+ u.
Proof. induction s as [|c s IH]; [reflexivity|]. rewrite !str_app_cons, IH. reflexivity. Qed.

Lemma str_app_nonempty (s t : string) : t <> "" -> s +:+ t <> "".
Proof. destruct s; [rewrite str_app_nil_l; auto | rewrite str_app_cons; discriminate]. Qed.

(** *** Characters of a string *)

Lemma all_chars_app (p : ascii -> bool) (s t : string) :
  all_chars p (s +:+ t) = all_chars p s && all_chars p t.
Proof.
  induction s as [|c s IH]; [reflexivity|].
  rewrite str_app_cons. cbn [all_chars]. rewrite IH, andb_assoc. reflexivity.
Qed.

Lemma all_chars_impl (p q : ascii -> bool) (s : string) :
  (forall c, p c = true -> q c = true) -> all_chars p s = true -> all_chars q s = true.
Proof.
  intros Hpq. induction s as [|c s IH]; [reflexivity|]. cbn [all_chars].
  intros [H1 H2]%andb_prop. rewrite (Hpq _ H1), (IH H2). reflexivity.
Qed.

(** The characters of a decimal numeral: digits, after an optional dash. *)
Definition is_numeral_char (c : ascii) : bool := isdigit_char c || Ascii.eqb c "-".

Lemma pretty_N_char_digit (d : N) : isdigit_char (pretty_N_char d) = true.
Proof. unfold pretty_N_char. repeat case_match; reflexivity. Qed.

Lemma pretty_N_char_val (d : N) : (d < 10)%N -> digit_val (pretty_N_char d) = Z.of_N d.
Proof.
  intros H.
  assert (d = 0 \/ d = 1 \/ d = 2 \/ d = 3 \/ d = 4 \/ d = 5 \/ d = 6 \/ d = 7
          \/ d = 8 \/ d = 9)%N as Hd by lia.
  repeat destruct Hd as [-> | Hd]; try reflexivity. subst. reflexivity.
Qed.

Lemma pretty_N_go_chars (p : ascii -> bool) :
  (forall c, isdigit_char c = true -> p c = true) ->
  forall x s, all_chars p (pretty_N_go x s) = all_chars p s.
Proof.
  intros Hp x. induction (N.lt_wf_0 x) as [x _ IH]. intros s.
  destruct (N.eq_dec x 0%N) as [-> | Hx]; [reflexivity|].
  rewrite pretty_N_go_step by lia.
  rewrite IH by (apply N.div_lt; lia).
  cbn [all_chars]. rewrite (Hp _ (pretty_N_char_digit _)). reflexivity.
Qed.

Lemma pretty_N_go_nonempty (x : N) (s : string) : s <> "" -> pretty_N_go x s <> "".
Proof.
  revert s. induction (N.lt_wf_0 x) as [x _ IH]. intros s Hs.
  destruct (N.eq_dec x 0%N) as [-> | Hx]; [exact Hs|].
  rewrite pretty_N_go_step by lia. apply IH; [apply N.div_lt; lia | discriminate].
Qed.

Lemma pretty_N_digits (n : N) : all_chars isdigit_char (pretty n) = true /\ pretty n <> "".
Proof.
  unfold pretty, pretty_N. destruct (decide (n = 0%N)) as [->|Hn].
  - split; [reflexivity | discriminate].
  - split; [rewrite pretty_N_go_chars; auto|].
    rewrite pretty_N_go_step by lia. apply pretty_N_go_nonempty. discriminate.
Qed.

Lemma pretty_Z_unfold (z : Z) :
  pretty z = match z with
             | Z0 => "0"
             | Zpos p => pretty (Npos p)
             | Zneg p => String "-" (pretty (Npos p))
             end.
Proof. destruct z; reflexivity. Qed.

Lemma pretty_Z_chars (p : ascii -> bool) (z : Z) :
  (forall c, is_numeral_char c = true -> p c = true) -> all_chars p (pretty z) = true.
Proof.
  intros Hp.
  assert (forall n : N, all_chars p (pretty n) = true) as HN.
  { intros n. apply (all_chars_impl isdigit_char); [|apply pretty_N_digits].
    intros c Hc. apply Hp. unfold is_numeral_char. rewrite Hc. reflexivity. }
  rewrite pretty_Z_unfold. destruct z as [|q|q]; [apply (HN 0%N) | apply HN |].
  cbn [all_chars]. rewrite HN, (Hp "-"%char); reflexivity.
Qed.

Lemma pretty_Z_nonempty (z : Z) : pretty z <> "".
Proof.
  rewrite pretty_Z_unfold. destruct z; [discriminate | apply pretty_N_digits | discriminate].
Qed.

(** *** Reading a numeral back *)

Lemma int_digits_pretty_N_go (x : N) :
  exists k : Z, 0 <= k /\ forall s acc b,
    int_digits b acc (pretty_N_go x s)
    = int_digits (b || (0 <? x)%N) (acc * 10 ^ k + Z.of_N x) s.
Proof.
  induction (N.lt_wf_0 x) as [x _ IH].
  destruct (N.eq_dec x 0%N) as [-> | Hx].
  - exists 0. split; [lia|]. intros s acc b. rewrite pretty_N_go_0, orb_false_r.
    f_equal. lia.
  - destruct (IH (x `div` 10)%N) as (k & Hk & IHk); [apply N.div_lt; lia|].
    exists (k + 1). split; [lia|]. intros s acc b.
    rewrite pretty_N_go_step by lia. rewrite IHk. cbn [int_digits].
    rewrite pretty_N_char_digit, pretty_N_char_val by (apply N.mod_lt; lia).
    replace (b || (0 <? x)%N) with true
      by (symmetry; apply orb_true_iff; right; apply N.ltb_lt; lia).
    f_equal. rewrite Z.pow_add_r, Z.pow_1_r by lia.
    pose proof (N.div_mod x 10 ltac:(lia)) as Hdm.
    assert (Z.of_N x = 10 * Z.of_N (x `div` 10) + Z.of_N (x `mod` 10)) by lia.
    lia.
Qed.

Lemma int_digits_pretty_N (n : N) : int_digits false 0 (pretty n) = Some (Z.of_N n).
Proof.
  unfold pretty, pretty_N. destruct (decide (n = 0%N)) as [->|Hn]; [reflexivity|].
  destruct (int_digits_pretty_N_go n) as (k & _ & H). rewrite H.
  replace (0 <? n)%N with true by (symmetry; apply N.ltb_lt; lia).
  reflexivity.
Qed.

Lemma int_of_digits (s : string) :
  all_chars isdigit_char s = true -> int s = or_raise ValueError (int_digits false 0 s).
Proof.
  destruct s as [|c s]; [reflexivity|]. cbn [all_chars]. intros [Hc _]%andb_prop.
  destruct c as [[] [] [] [] [] [] [] []]; try discriminate Hc; reflexivity.
Qed.

Lemma int_pretty (z : Z) : int (pretty z) = Ok z.
Proof.
  rewrite pretty_Z_unfold. destruct z as [|p|p]; [reflexivity | |].
  - rewrite int_of_digits by apply pretty_N_digits.
    rewrite int_digits_pretty_N. reflexivity.
  - cbn [int]. rewrite int_digits_pretty_N. reflexivity.
Qed.

Lemma isdigit_of_digits (s : string) :
  all_chars isdigit_char s = true -> s <> "" -> isdigit s = true.
Proof. destruct s; [congruence | auto]. Qed.

Lemma lstrip_char_digits (s : string) :
  all_chars isdigit_char s = true -> lstrip_char "-" s = s.
Proof.
  destruct s as [|c s]; [reflexivity|]. cbn [all_chars lstrip_char].
  intros [Hc _]%andb_prop.
  destruct (Ascii.eqb_spec c "-") as [->|]; [discriminate Hc | reflexivity].
Qed.

Lemma isdigit_lstrip_pretty (z : Z) : isdigit (lstrip_char "-" (pretty z)) = true.
Proof.
  assert (forall n : N, isdigit (lstrip_char "-" (pretty n)) = true) as HN.
  { intros n. destruct (pretty_N_digits n) as [H1 H2].
    rewrite lstrip_char_digits by exact H1. apply isdigit_of_digits; assumption. }
  rewrite pretty_Z_unfold. destruct z as [|p|p]; [reflexivity | apply HN |].
  cbn [lstrip_char Ascii.eqb Bool.eqb]. apply HN.
Qed.

(** A token that reads back as the integer [n]: what [f'{n}'] writes. *)
Record numeral (t : string) (n : Z) : Prop := {
  numeral_chars : all_chars is_numeral_char t = true;
  numeral_nonempty : t <> "";
  numeral_int : int t = Ok n;
  numeral_isdigit : isdigit (lstrip_char "-" t) = true
}.

Lemma numeral_pretty (n : Z) : numeral (pretty n) n.
Proof.
  split; [apply pretty_Z_chars; auto | apply pretty_Z_nonempty | apply int_pretty
         | apply isdigit_lstrip_pretty].
Qed.

(** A property of every character of a numeral, checked on the eleven
    characters a numeral is made of. *)
Lemma numeral_all_chars (q : ascii -> bool) (t : string) (n : Z) :
  numeral t n ->
  forallb q ["0"; "1"; "2"; "3"; "4"; "5"; "6"; "7"; "8"; "9"; "-"]%char = true ->
  all_chars q t = true.
Proof.
  intros [Ht _ _ _] Hq. apply (all_chars_impl is_numeral_char); [|exact Ht].
  intros c Hc. cbn [forallb] in Hq.
  destruct c as [[] [] [] [] [] [] [] []]; try discriminate Hc;
    repeat (apply andb_prop in Hq; destruct Hq as [? Hq]); assumption.
Qed.

(** *** Blanks *)

Definition solid_char (c : ascii) : bool := negb (isspace c).

(** A solid string has no blank: it is one token. *)
Definition solid (t : string) : Prop := all_chars solid_char t = true /\ t <> "".

Lemma numeral_solid (t : string) (n : Z) : numeral t n -> solid t.
Proof.
  intros H. split; [|apply (numeral_nonempty _ _ H)].
  apply (numeral_all_chars _ _ _ H). reflexivity.
Qed.

Lemma rstrip_solid (t : string) : all_chars solid_char t = true -> rstrip t = t.
Proof.
  induction t as [|c t IH]; [reflexivity|]. cbn [all_chars rstrip].
  intros [Hc Ht]%andb_prop. rewrite (IH Ht).
  destruct t; [|reflexivity].
  unfold solid_char in Hc. destruct (isspace c); [discriminate | reflexivity].
Qed.

Lemma rstrip_app_solid (s t : string) : solid t -> rstrip (s +:+ t) = s +:+ t.
Proof.
  intros [Ht Hne]. induction s as [|c s IH].
  - rewrite str_app_nil_l. apply rstrip_solid, Ht.
  - rewrite str_app_cons. cbn [rstrip]. rewrite IH.
    destruct (s +:+ t) eqn:E; [|reflexivity].
    exfalso. revert E. apply str_app_nonempty, Hne.
Qed.

Lemma lstrip_solid (t : string) : solid t -> lstrip t = t.
Proof.
  intros [Ht Hne]. destruct t as [|c t]; [reflexivity|].
  cbn [all_chars] in Ht. apply andb_prop in Ht as [Hc _].
  cbn [lstrip]. unfold solid_char in Hc. destruct (isspace c); [discriminate | reflexivity].
Qed.

Lemma split_solid (t : string) : solid t -> split t = [t].
Proof.
  intros [Ht Hne]. induction t as [|c t IH]; [congruence|].
  cbn [all_chars] in Ht. apply andb_prop in Ht as [Hc Ht].
  cbn [split]. unfold solid_char in Hc.
  destruct (isspace c) eqn:Ec; [discriminate|].
  destruct t as [|c' t]; [reflexivity|].
  pose proof Ht as Ht'. cbn [all_chars] in Ht'. apply andb_prop in Ht' as [Hc' _].
  unfold solid_char in Hc'. destruct (isspace c') eqn:Ec'; [discriminate|].
  rewrite IH by (assumption || discriminate). reflexivity.
Qed.

(** A line is solid at its end when stripping it on the right changes
    nothing and something is left. *)
Definition solid_end (l : string) : Prop := rstrip l = l /\ l <> "".

Lemma solid_end_app (s t : string) : solid t -> solid_end (s +:+ t).
Proof.
  intros Ht. split; [apply rstrip_app_solid, Ht | apply str_app_nonempty, Ht].
Qed.

Lemma rstrip_lines_solid_end (ls : list string) (l : string) :
  solid_end l -> rstrip_lines (ls ++ [l]) = ls ++ [l].
Proof.
  intros [Hr Hne]. induction ls as [|x ls IH]; cbn [rstrip_lines app].
  - rewrite Hr. destruct l; [congruence | reflexivity].
  - change (x :: ls ++ [l]) with (x :: (ls ++ [l])). cbn [rstrip_lines].
    rewrite IH. destruct (ls ++ [l]) eqn:E; [|reflexivity].
    destruct ls; discriminate E.
Qed.

Lemma rstrip_lines_solid (ls : list string) :
  Forall solid_end ls -> rstrip_lines ls = ls.
Proof.
  induction 1 as [|l ls [Hr Hne] _ IH]; [reflexivity|].
  cbn [rstrip_lines]. rewrite IH. destruct ls; [|reflexivity].
  rewrite Hr. destruct l; [congruence | reflexivity].
Qed.

(** *** Substrings *)

Lemma startswith_all_chars (q : ascii -> bool) (pat s : string) :
  all_chars q s = true -> startswith pat s = true -> all_chars q pat = true.
Proof.
  revert s. induction pat as [|a pat IH]; intros s Hs H; [reflexivity|].
  destruct s as [|b s]; [discriminate H|]. cbn [startswith] in H.
  apply andb_prop in H as [Hab H]. apply Ascii.eqb_eq in Hab as ->.
  cbn [all_chars] in *. apply andb_prop in Hs as [Hb Hs].
  rewrite Hb, (IH s Hs H). reflexivity.
Qed.

Lemma contains_all_chars (q : ascii -> bool) (pat s : string) :
  all_chars q s = true -> contains pat s = true -> all_chars q pat = true.
Proof.
  induction s as [|b s IH]; cbn [contains]; intros Hs H.
  - rewrite orb_false_r in H. destruct pat; [reflexivity | discriminate H].
  - apply orb_prop in H as [H|H].
    + eapply startswith_all_chars; eassumption.
    + cbn [all_chars] in Hs. apply andb_prop in Hs as [_ Hs]. auto.
Qed.

(** A pattern with a character that the string has not is not in it. *)
Lemma not_contains (q : ascii -> bool) (pat s : string) :
  all_chars q s = true -> all_chars q pat = false -> contains pat s = false.
Proof.
  intros Hs Hpat. destruct (contains pat s) eqn:E; [|reflexivity].
  rewrite (contains_all_chars q pat s Hs E) in Hpat. discriminate.
Qed.

Lemma contains_app_r (pat s t : string) : contains pat t = true -> contains pat (s +:+ t) = true.
Proof.
  intros H. induction s as [|c s IH]; [exact H|].
  rewrite str_app_cons. cbn [contains]. rewrite IH. apply orb_true_r.
Qed.

Definition is_not (c : ascii) (x : ascii) : bool := negb (Ascii.eqb x c).

Lemma before_char_absent (c : ascii) (s : string) :
  all_chars (is_not c) s = true -> before_char c s = s.
Proof.
  induction s as [|x s IH]; [reflexivity|]. cbn [all_chars before_char].
  intros [Hx Hs]%andb_prop. unfold is_not in Hx.
  destruct (Ascii.eqb x c); [discriminate|]. rewrite (IH Hs). reflexivity.
Qed.

Lemma before_char_has_not (c : ascii) (s : string) :
  all_chars (is_not c) (before_char c s) = true.
Proof.
  induction s as [|x s IH]; [reflexivity|]. cbn [before_char].
  destruct (Ascii.eqb x c) eqn:E; [reflexivity|].
  cbn [all_chars]. unfold is_not at 1. rewrite E, IH. reflexivity.
Qed.

Lemma replace_char_absent (a b : ascii) (s : string) :
  all_chars (is_not a) s = true -> replace_char a b s = s.
Proof.
  induction s as [|x s IH]; [reflexivity|]. cbn [all_chars replace_char].
  intros [Hx Hs]%andb_prop. unfold is_not in Hx.
  destruct (Ascii.eqb x a); [discriminate|]. rewrite (IH Hs). reflexivity.
Qed.

Lemma replace_char_app (a b : ascii) (s t : string) :
  replace_char a b (s +:+ t) = replace_char a b s +:+ replace_char a b t.
Proof.
  induction s as [|x s IH]; [reflexivity|].
  rewrite str_app_cons. cbn [replace_char]. rewrite IH, str_app_cons. reflexivity.
Qed.

Lemma all_chars_false_app_r (q : ascii -> bool) (s t : string) :
  all_chars q t = false -> all_chars q (s +:+ t) = false.
Proof. intros H. rewrite all_chars_app, H. apply andb_false_r. Qed.

Lemma endswith_char_app (c : ascii) (s t : string) :
  t <> "" -> endswith_char c (s +:+ t) = endswith_char c t.
Proof.
  intros Ht. induction s as [|x s IH]; [reflexivity|].
  rewrite str_app_cons. cbn [endswith_char]. rewrite IH.
  destruct (s +:+ t) eqn:E; [|reflexivity].
  exfalso. revert E. apply str_app_nonempty, Ht.
Qed.

Lemma endswith_char_all (q : ascii -> bool) (c : ascii) (t : string) :
  all_chars q t = true -> q c = false -> endswith_char c t = false.
Proof.
  intros Ht Hc. induction t as [|x t IH]; [reflexivity|].
  cbn [all_chars] in Ht. apply andb_prop in Ht as [Hx Ht].
  cbn [endswith_char]. destruct t as [|y t].
  - destruct (Ascii.eqb_spec x c) as [->|]; [congruence | reflexivity].
  - apply IH, Ht.
Qed.

(** *** Tokens of a line *)

Ltac chars :=
  rewrite ?all_chars_app;
  repeat (apply andb_true_intro; split);
  first [ reflexivity
        | eapply numeral_all_chars; [eassumption | reflexivity] ].

Lemma split_blank (c : ascii) (s : string) : isspace c = true -> split (String c s) = split s.
Proof. intros H. cbn [split]. rewrite H. reflexivity. Qed.

Lemma split_blanks (sp s : string) :
  all_chars isspace sp = true -> split (sp +:+ s) = split s.
Proof.
  induction sp as [|c sp IH]; [reflexivity|]. cbn [all_chars].
  intros [Hc Hsp]%andb_prop. rewrite str_app_cons, split_blank by exact Hc. auto.
Qed.

(** A solid word followed by a blank is the first token. *)
Lemma split_word (w : string) (c : ascii) (s : string) :
  solid w -> isspace c = true -> split (w +:+ String c s) = w :: split s.
Proof.
  intros [Hw Hne] Hc. induction w as [|x w IH]; [congruence|].
  cbn [all_chars] in Hw. apply andb_prop in Hw as [Hx Hw].
  unfold solid_char in Hx. destruct (isspace x) eqn:Ex; [discriminate|].
  rewrite str_app_cons. cbn [split]. rewrite Ex.
  destruct w as [|y w].
  - rewrite str_app_nil_l, Hc. rewrite ?split_blank by exact Hc. reflexivity.
  - rewrite str_app_cons. pose proof Hw as Hw'. cbn [all_chars] in Hw'.
    apply andb_prop in Hw' as [Hy _]. unfold solid_char in Hy.
    destruct (isspace y) eqn:Ey; [discriminate|].
    rewrite <- str_app_cons, IH by (assumption || discriminate). reflexivity.
Qed.

Lemma numbers_of_word (w : string) (ts : list string) :
  isdigit (lstrip_char "-" w) = false -> numbers_of (w :: ts) = numbers_of ts.
Proof. intros H. cbn [numbers_of foldr]. rewrite H. reflexivity. Qed.

Lemma numbers_of_numeral (t : string) (n : Z) (ts : list string) :
  numeral t n ->
  numbers_of (t :: ts) = let* ns := numbers_of ts in Ok (n :: ns).
Proof.
  intros H. cbn [numbers_of foldr].
  rewrite (numeral_isdigit _ _ H), (numeral_int _ _ H). reflexivity.
Qed.

Lemma solid_literal (w : string) :
  (all_chars solid_char w && negb (String.eqb w ""))%bool = true -> solid w.
Proof.
  intros [H1 H2]%andb_prop. split; [exact H1|]. intros ->. discriminate H2.
Qed.

Lemma split_all_blanks (ws : string) : all_chars isspace ws = true -> split ws = [].
Proof.
  induction ws as [|c ws IH]; [reflexivity|]. cbn [all_chars split].
  intros [Hc Hws]%andb_prop. rewrite Hc. auto.
Qed.

Lemma split_app_blanks (s ws : string) :
  all_chars isspace ws = true -> split (s +:+ ws) = split s.
Proof.
  intros Hws. induction s as [|c s IH].
  - rewrite str_app_nil_l. apply split_all_blanks, Hws.
  - rewrite str_app_cons. cbn [split]. destruct (isspace c); [exact IH|].
    destruct s as [|c' s].
    + rewrite str_app_nil_l. destruct ws as [|w ws]; [reflexivity|].
      cbn [all_chars] in Hws. apply andb_prop in Hws as [Hw Hws'].
      rewrite Hw. rewrite split_blank by exact Hw.
      rewrite split_all_blanks by exact Hws'. reflexivity.
    + rewrite str_app_cons in *. rewrite IH. reflexivity.
Qed.

Lemma rstrip_decompose (s : string) :
  exists ws, s = rstrip s +:+ ws /\ all_chars isspace ws = true.
Proof.
  induction s as [|c s (ws & Hs & Hws)]; [exists ""; split; reflexivity|].
  cbn [rstrip]. destruct (rstrip s) as [|r0 r] eqn:Er.
  - rewrite str_app_nil_l in Hs. subst ws.
    destruct (isspace c) eqn:Ec.
    + exists (String c s). split; [reflexivity|]. cbn [all_chars]. rewrite Ec, Hws. reflexivity.
    + exists s. split; [reflexivity | exact Hws].
  - exists ws. split; [|exact Hws]. rewrite str_app_cons. f_equal. exact Hs.
Qed.

Lemma all_chars_rstrip (q : ascii -> bool) (s : string) :
  all_chars q s = true -> all_chars q (rstrip s) = true.
Proof.
  destruct (rstrip_decompose s) as (ws & Hs & _). intros H.
  rewrite Hs, all_chars_app in H. apply andb_prop in H as [H _]. exact H.
Qed.

Lemma blank_is_not_comma (c : ascii) : isspace c = true -> is_not "," c = true.
Proof. destruct c as [[] [] [] [] [] [] [] []]; intros H; try discriminate H; reflexivity. Qed.

Lemma tokens_rstrip (s : string) :
  split (replace_char "," " " (rstrip s)) = split (replace_char "," " " s).
Proof.
  destruct (rstrip_decompose s) as (ws & Hs & Hws).
  rewrite Hs at 2. rewrite replace_char_app.
  rewrite (replace_char_absent _ _ ws)
    by (apply (all_chars_impl isspace); [apply blank_is_not_comma | exact Hws]).
  rewrite split_app_blanks by exact Hws. reflexivity.
Qed.

Lemma startswith_app_l (pat s t : string) :
  startswith pat s = true -> startswith pat (s +:+ t) = true.
Proof.
  revert s. induction pat as [|a pat IH]; intros s H; [reflexivity|].
  destruct s as [|b s]; [discriminate H|]. rewrite str_app_cons. cbn [startswith] in *.
  apply andb_prop in H as [H1 H2]. rewrite H1, (IH s H2). reflexivity.
Qed.

Lemma contains_app_l (pat s t : string) :
  contains pat s = true -> contains pat (s +:+ t) = true.
Proof.
  induction s as [|b s IH]; cbn [contains]; intros H.
  - rewrite orb_false_r in H. destruct pat; [|discriminate H].
    rewrite str_app_nil_l. destruct t; reflexivity.
  - rewrite str_app_cons. cbn [contains]. apply orb_prop in H as [H|H].
    + pose proof (startswith_app_l _ (String b s) t H) as H'.
      rewrite str_app_cons in H'. rewrite H'. reflexivity.
    + rewrite (IH H). apply orb_true_r.
Qed.

Lemma contains_rstrip (pat s : string) :
  contains pat (rstrip s) = true -> contains pat s = true.
Proof.
  destruct (rstrip_decompose s) as (ws & Hs & _). intros H.
  rewrite Hs. apply contains_app_l, H.
Qed.

Lemma Forall_rstrip_lines (P : string -> Prop) (ls : list string) :
  (forall l, P l -> P (rstrip l)) -> Forall P ls -> Forall P (rstrip_lines ls).
Proof.
  intros HP. induction 1 as [|l ls Hl _ IH]; [constructor|].
  cbn [rstrip_lines]. destruct (rstrip_lines ls) as [|x xs].
  - pose proof (HP l Hl) as H. destruct (rstrip l); constructor; [exact H | constructor].
  - constructor; assumption.
Qed.

Lemma rstrip_lines_app_solid (A B : list string) (l : string) :
  solid_end l -> rstrip_lines (A ++ l :: B) = A ++ l :: rstrip_lines B.
Proof.
  intros [Hr Hne].
  assert (rstrip_lines (l :: B) = l :: rstrip_lines B) as H.
  { cbn [rstrip_lines]. destruct (rstrip_lines B); [|reflexivity].
    rewrite Hr. destruct l; [congruence | reflexivity]. }
  induction A as [|a A IH]; [exact H|].
  cbn [app rstrip_lines]. rewrite IH. destruct A; reflexivity.
Qed.

End StringFacts.

(** ** Long delays *)

Module DelayFacts.
Import Py StringFacts Esr.

Section Lines.
Variables (t : string) (n : Z).
Hypothesis Ht : numeral t n.

Lemma info_wait :
  q1asm_get_line_info ("wait      " +:+ t) = Ok ("wait      " +:+ t, [n]).
Proof.
  unfold q1asm_get_line_info.
  rewrite before_char_absent by chars.
  rewrite replace_char_absent by chars.
  change ("wait      " +:+ t) with ("wait" +:+ String " " ("     " +:+ t)).
  rewrite split_word by (reflexivity || apply solid_literal; reflexivity).
  rewrite split_blanks by reflexivity.
  rewrite (split_solid t) by (eapply numeral_solid; eassumption).
  rewrite numbers_of_word by reflexivity.
  rewrite (numbers_of_numeral t n) by exact Ht.
  reflexivity.
Qed.

Lemma issimplewait_wait : q1asm_line_issimplewait ("wait      " +:+ t) = Ok true.
Proof.
  unfold q1asm_line_issimplewait. rewrite info_wait. cbn [bind].
  rewrite (not_contains (is_not "_") "wait_sync") by (chars || reflexivity).
  reflexivity.
Qed.

Lemma solid_end_wait : solid_end ("wait      " +:+ t).
Proof. apply solid_end_app. eapply numeral_solid; eassumption. Qed.

Lemma waited_wait (count : Z) (rest : list string) :
  waited count (("wait      " +:+ t) :: rest)
  = let* r := waited count rest in Ok (count * n + r).
Proof. cbn [waited]. rewrite info_wait, issimplewait_wait. reflexivity. Qed.

Lemma info_move :
  q1asm_get_line_info ("move      " +:+ t +:+ ",R1")
  = Ok ("move      " +:+ t +:+ ",R1", [n]).
Proof.
  unfold q1asm_get_line_info.
  rewrite before_char_absent by chars.
  rewrite !replace_char_app, (replace_char_absent _ _ t) by chars.
  change (replace_char "," " " "move      " +:+ t +:+ replace_char "," " " ",R1")
    with ("move" +:+ String " " ("     " +:+ t +:+ String " " "R1")).
  rewrite split_word by (reflexivity || apply solid_literal; reflexivity).
  rewrite split_blanks by reflexivity.
  rewrite split_word by (reflexivity || eapply numeral_solid; eassumption).
  change (split "R1") with ["R1"].
  rewrite numbers_of_word by reflexivity.
  rewrite (numbers_of_numeral t n) by exact Ht.
  reflexivity.
Qed.

Lemma waited_move (count : Z) (rest : list string) :
  waited count (("move      " +:+ t +:+ ",R1") :: rest) = waited n rest.
Proof.
  cbn [waited]. unfold q1asm_line_issimplewait. rewrite info_move. cbn [bind].
  rewrite (not_contains (is_not "w") "wait") by (chars || reflexivity).
  reflexivity.
Qed.

Lemma solid_label : solid ("loop_delay" +:+ t +:+ ":").
Proof. split; [chars | discriminate]. Qed.

Lemma info_label :
  q1asm_get_line_info ("loop_delay" +:+ t +:+ ":") = Ok ("loop_delay" +:+ t +:+ ":", []).
Proof.
  unfold q1asm_get_line_info.
  rewrite before_char_absent by chars.
  rewrite replace_char_absent by chars.
  rewrite split_solid by apply solid_label.
  rewrite numbers_of_word by reflexivity. reflexivity.
Qed.

Lemma waited_label (count : Z) (rest : list string) :
  waited count (("loop_delay" +:+ t +:+ ":") :: rest) = waited count rest.
Proof.
  cbn [waited]. unfold q1asm_line_issimplewait. rewrite info_label. cbn [bind].
  rewrite (not_contains (is_not "w") "wait") by (chars || reflexivity).
  reflexivity.
Qed.

Lemma info_loop :
  q1asm_get_line_info ("loop      R1,@loop_delay" +:+ t)
  = Ok ("loop      R1,@loop_delay" +:+ t, []).
Proof.
  unfold q1asm_get_line_info.
  rewrite before_char_absent by chars.
  rewrite replace_char_app, (replace_char_absent _ _ t) by chars.
  change (replace_char "," " " "loop      R1,@loop_delay" +:+ t)
    with ("loop" +:+ String " " ("     " +:+ "R1" +:+ String " " ("@loop_delay" +:+ t))).
  rewrite split_word by (reflexivity || apply solid_literal; reflexivity).
  rewrite split_blanks by reflexivity.
  rewrite split_word by (reflexivity || apply solid_literal; reflexivity).
  rewrite split_solid by (split; [chars | discriminate]).
  rewrite !numbers_of_word by reflexivity. reflexivity.
Qed.

Lemma waited_loop (count : Z) (rest : list string) :
  waited count (("loop      R1,@loop_delay" +:+ t) :: rest) = waited 1 rest.
Proof.
  cbn [waited]. unfold q1asm_line_issimplewait. rewrite info_loop. cbn [bind].
  rewrite (not_contains (is_not "w") "wait") by (chars || reflexivity).
  reflexivity.
Qed.

End Lines.

Ltac solid_line :=
  first [ eapply solid_end_wait, numeral_pretty
        | rewrite <- ?str_app_assoc; apply solid_end_app;
          first [ eapply numeral_solid, numeral_pretty
                | apply solid_literal; reflexivity ] ].
Ltac solid_lines := repeat (constructor; [solid_line|]); try constructor.

Lemma waited_waits (k : nat) (t : string) (n count : Z) (rest : list string) :
  numeral t n ->
  waited count (replicate k ("wait      " +:+ t) ++ rest)
  = let* r := waited count rest in Ok (count * (Z.of_nat k * n) + r).
Proof.
  intros Ht. induction k as [|k IH].
  - cbn [replicate app]. destruct (waited count rest); cbn [bind]; [f_equal; lia | reflexivity].
  - cbn [replicate app]. rewrite (waited_wait t n Ht), IH.
    destruct (waited count rest); cbn [bind]; [f_equal; lia | reflexivity].
Qed.

(** The lines of a delay, before [rstrip]: full-size waits or the counted
    loop, then the remainder. *)
Lemma q1asm_delay_long (delay loop_index : Z) :
  65535 <= delay ->
  let loop_nb := delay `div` 65535 in
  let remainder := delay `mod` 65535 in
  let low := (0 <? remainder) && (remainder <? 4) in
  let loop_nb := if low then loop_nb - 1 else loop_nb in
  let body :=
    if loop_nb <? 5 then replicate (Z.to_nat loop_nb) ("wait      " +:+ pretty 65535)
    else ["move      " +:+ pretty loop_nb +:+ ",R1";
          "loop_delay" +:+ pretty loop_index +:+ ":";
          "wait      " +:+ pretty 65535;
          "loop      R1,@loop_delay" +:+ pretty loop_index] in
  let tail :=
    if remainder >? 0 then
      if low then ["wait      " +:+ pretty 65531; "wait      " +:+ pretty (remainder + 4)]
      else ["wait      " +:+ pretty remainder]
    else [] in
  q1asm_delay delay loop_index = (body ++ tail, negb (loop_nb <? 5)).
Proof.
  intros Hd. cbv zeta. unfold q1asm_delay.
  replace (delay <? 65535) with false by (symmetry; apply Z.ltb_ge; exact Hd).
  pose proof (Z.mod_pos_bound delay 65535 ltac:(lia)) as Hr.
  pose proof (Z.div_mod delay 65535 ltac:(lia)) as Hq.
  set (r := delay `mod` 65535) in *. set (q := delay `div` 65535) in *.
  assert (1 <= q) as Hq1 by nia.
  set (low := (0 <? r) && (r <? 4)).
  set (k := if low then q - 1 else q).
  assert (0 <= k) as Hk by (subst k; destruct low; lia).
  assert ((r >? 0) = false -> 1 <= k) as Hk1.
  { intros Hr0. subst k low. replace (0 <? r) with false by lia. cbn. lia. }
  change "wait      65535" with ("wait      " +:+ pretty 65535).
  change (pretty (65535 - 4)) with (pretty 65531).
  destruct (k <? 5) eqn:Ek; cbn [negb]; f_equal; apply rstrip_lines_solid.
  - apply Forall_app. split.
    + apply Forall_replicate, solid_end_wait with (n := 65535), numeral_pretty.
    + destruct (r >? 0); [destruct low|]; solid_lines.
  - apply Forall_app. split.
    + solid_lines.
    + destruct (r >? 0); [destruct low|]; solid_lines.
Qed.

(** C1. The waits written by [q1asm_delay], loops counted with their
    number of iterations, add up to the delay requested, whatever the delay;
    a delay below 65535 is a single wait; and a remainder of 1, 2 or 3 is
    written as a wait of 65531 followed by a wait of the remainder plus 4,
    after one full-size wait less. *)
Theorem q1asm_delay_total (delay loop_index : Z) :
  waited 1 (fst (q1asm_delay delay loop_index)) = Ok delay /\
  (delay < 65535 ->
   q1asm_delay delay loop_index = (["wait      " +:+ pretty delay], false)) /\
  (65535 <= delay -> 0 < delay `mod` 65535 < 4 ->
   exists body,
     fst (q1asm_delay delay loop_index)
     = body ++ ["wait      65531"; "wait      " +:+ pretty (delay `mod` 65535 + 4)] /\
     waited 1 body = Ok (65535 * (delay `div` 65535 - 1))).
Proof.
  assert (delay < 65535 ->
          q1asm_delay delay loop_index = (["wait      " +:+ pretty delay], false)) as Hshort.
  { intros Hd. unfold q1asm_delay.
    replace (delay <? 65535) with true by (symmetry; apply Z.ltb_lt; exact Hd).
    f_equal. apply rstrip_lines_solid. solid_lines. }
  pose proof (Z.mod_pos_bound delay 65535 ltac:(lia)) as Hr.
  pose proof (Z.div_mod delay 65535 ltac:(lia)) as Hq.
  assert (forall k : Z, 0 <= k ->
    waited 1 (if k <? 5 then replicate (Z.to_nat k) ("wait      " +:+ pretty 65535)
              else ["move      " +:+ pretty k +:+ ",R1";
                    "loop_delay" +:+ pretty loop_index +:+ ":";
                    "wait      " +:+ pretty 65535;
                    "loop      R1,@loop_delay" +:+ pretty loop_index])
    = Ok (65535 * k) /\
    forall rest,
    waited 1 ((if k <? 5 then replicate (Z.to_nat k) ("wait      " +:+ pretty 65535)
              else ["move      " +:+ pretty k +:+ ",R1";
                    "loop_delay" +:+ pretty loop_index +:+ ":";
                    "wait      " +:+ pretty 65535;
                    "loop      R1,@loop_delay" +:+ pretty loop_index]) ++ rest)
    = (let* r := waited 1 rest in Ok (65535 * k + r))) as Hbody.
  { intros k Hk.
    assert (forall rest,
      waited 1 ((if k <? 5 then replicate (Z.to_nat k) ("wait      " +:+ pretty 65535)
              else ["move      " +:+ pretty k +:+ ",R1";
                    "loop_delay" +:+ pretty loop_index +:+ ":";
                    "wait      " +:+ pretty 65535;
                    "loop      R1,@loop_delay" +:+ pretty loop_index]) ++ rest)
      = (let* r := waited 1 rest in Ok (65535 * k + r))) as H.
    { intros rest. destruct (k <? 5).
      - rewrite (waited_waits _ _ 65535) by apply numeral_pretty.
        destruct (waited 1 rest); cbn [bind]; [f_equal; lia | reflexivity].
      - cbn [app].
        rewrite (waited_move _ k) by apply numeral_pretty.
        rewrite (waited_label _ loop_index) by apply numeral_pretty.
        rewrite (waited_wait _ 65535) by apply numeral_pretty.
        rewrite (waited_loop _ loop_index) by apply numeral_pretty.
        destruct (waited 1 rest); cbn [bind]; [f_equal; lia | reflexivity]. }
    split; [|exact H].
    specialize (H []). rewrite List.app_nil_r in H. rewrite H. cbn. f_equal. lia. }
  split; [|split].
  - destruct (Z.lt_ge_cases delay 65535) as [Hd|Hd].
    + rewrite (Hshort Hd). cbn [fst].
      rewrite (waited_wait _ delay) by apply numeral_pretty. cbn. f_equal. lia.
    + rewrite (q1asm_delay_long delay loop_index Hd). cbn [fst].
      set (r := delay `mod` 65535) in *. set (q := delay `div` 65535) in *.
      assert (1 <= q) as Hq1 by nia.
      destruct ((0 <? r) && (r <? 4)) eqn:Elow.
      * replace (r >? 0) with true by lia.
        destruct (Hbody (q - 1) ltac:(lia)) as [_ ->].
        rewrite (waited_wait _ 65531), (waited_wait _ (r + 4)) by apply numeral_pretty.
        cbn. f_equal. lia.
      * destruct (Hbody q ltac:(lia)) as [_ ->].
        destruct (r >? 0) eqn:Er.
        -- rewrite (waited_wait _ r) by apply numeral_pretty. cbn. f_equal. lia.
        -- cbn. f_equal. lia.
  - exact Hshort.
  - intros Hd Hlow. rewrite (q1asm_delay_long delay loop_index Hd). cbn [fst].
    replace ((0 <? delay `mod` 65535) && (delay `mod` 65535 <? 4)) with true by lia.
    replace (delay `mod` 65535 >? 0) with true by lia.
    eexists. split; [reflexivity|].
    apply Hbody. assert (1 <= delay `div` 65535) by nia. lia.
Qed.

End DelayFacts.

(** ** Unit converters and macro assembler *)

(** ** The marker pass and the overtrigger validator *)

Module MarkerFacts.
Import Py StringFacts Esr.

Lemma info_clean (l c : string) (nb : list Z) :
  q1asm_get_line_info l = Ok (c, nb) -> c = before_char "#" l.
Proof. unfold q1asm_get_line_info. intros H. inv_bind H. injection H as <- _. reflexivity. Qed.

Lemma info_of_clean (c : string) :
  all_chars (is_not "#") c = true ->
  q1asm_get_line_info c
  = let* nb := numbers_of (split (replace_char "," " " c)) in Ok (c, nb).
Proof. intros H. unfold q1asm_get_line_info. rewrite before_char_absent by exact H. reflexivity. Qed.

Lemma info_idempotent (l c : string) (nb : list Z) :
  q1asm_get_line_info l = Ok (c, nb) -> q1asm_get_line_info c = Ok (c, nb).
Proof.
  intros H. pose proof (info_clean _ _ _ H) as ->.
  rewrite info_of_clean by apply before_char_has_not.
  unfold q1asm_get_line_info in H. inv_bind H. injection H as <-.
  rewrite Ha. reflexivity.
Qed.

(** *** Lines that keep the amplifier off *)

Definition calm (l : string) : Prop :=
  contains "set_mrk" l = true ->
  forall m nb, numbers_of (split (replace_char "," " " l)) = Ok (m :: nb) ->
               mem m [15; 1111] = false.

Definition good (l : string) : Prop := all_chars (is_not "#") l = true /\ calm l.

Lemma good_rstrip (l : string) : good l -> good (rstrip l).
Proof.
  intros [H1 H2]. split; [apply all_chars_rstrip, H1|].
  intros Hc m nb. rewrite tokens_rstrip. apply H2, contains_rstrip, Hc.
Qed.

Lemma good_quiet (l : string) :
  all_chars (is_not "#") l = true -> all_chars (is_not "s") l = true -> good l.
Proof.
  intros H1 H2. split; [exact H1|]. intros Hc.
  rewrite (not_contains (is_not "s") "set_mrk" l H2) in Hc by reflexivity. discriminate.
Qed.

Lemma good_wait (n : Z) : good ("wait      " +:+ pretty n).
Proof. pose proof (numeral_pretty n). apply good_quiet; chars. Qed.

Lemma good_upd_param (n : Z) : good ("upd_param " +:+ pretty n).
Proof. pose proof (numeral_pretty n). apply good_quiet; chars. Qed.

Lemma good_passthrough (l c : string) (nb : list Z) :
  q1asm_get_line_info l = Ok (c, nb) -> turns_amp_on l = false -> good c.
Proof.
  intros Hi Ht. pose proof (info_clean _ _ _ Hi) as Hc. split.
  - rewrite Hc. apply before_char_has_not.
  - intros Hs m nb' Hn. unfold turns_amp_on in Ht. rewrite Hi in Ht.
    unfold q1asm_get_line_info in Hi. inv_bind Hi. injection Hi as _ <-.
    rewrite <- Hc in Ha. rewrite Ha in Hn. injection Hn as ->.
    rewrite Hs in Ht. exact Ht.
Qed.

Definition stays_off (r : result amp_scan) : Prop :=
  match r with
  | Ok st => amp st = false
  | Raise _ => True
  end.

Lemma good_stays_off (l : string) (st : amp_scan) :
  good l -> amp st = false -> stays_off (check_line st l).
Proof.
  intros [H1 H2] Hst. unfold check_line. rewrite info_of_clean by exact H1.
  destruct (numbers_of (split (replace_char "," " " l))) as [nb|] eqn:En; [|exact I].
  cbv beta iota delta [bind].
  destruct (contains "set_mrk" l) eqn:Es.
  - destruct nb as [|m nb]; [exact I|].
    change (Py.index (m :: nb) 0) with (Ok m). cbv beta iota.
    rewrite (H2 Es m nb En). cbv beta iota. reflexivity.
  - cbv beta iota. rewrite Hst. exact Hst.
Qed.

Lemma check_lines_stays_off (ls : list string) : forall st,
  Forall good ls -> amp st = false -> stays_off (check_lines st ls).
Proof.
  induction ls as [|l ls IH]; intros st Hls Hst; [exact Hst|].
  inversion Hls as [|? ? Hl Hls']; subst. cbn [check_lines].
  pose proof (good_stays_off l st Hl Hst) as H.
  destruct (check_line st l) as [st'|]; [|exact I]. apply IH; assumption.
Qed.

Lemma check_lines_app (A B : list string) : forall st,
  check_lines st (A ++ B) = let* st' := check_lines st A in check_lines st' B.
Proof.
  induction A as [|a A IH]; intros st; [reflexivity|].
  cbn [app check_lines]. destruct (check_line st a); [apply IH | reflexivity].
Qed.

Lemma check_set_mrk_3 (st : amp_scan) :
  stays_off (check_line st "set_mrk   3").
Proof. reflexivity. Qed.

(** A program that ends with [set_mrk 3] followed by good lines leaves the
    amplifier off. *)
Lemma off_after_set_mrk_3 (A B : list string) (st : amp_scan) :
  Forall good B -> stays_off (check_lines st (A ++ "set_mrk   3" :: B)).
Proof.
  intros HB. rewrite check_lines_app.
  destruct (check_lines st A) as [st'|]; [|exact I].
  cbv beta iota delta [bind]. cbn [check_lines].
  pose proof (check_set_mrk_3 st') as H.
  destruct (check_line st' "set_mrk   3") as [st''|]; [|exact I].
  apply check_lines_stays_off; assumption.
Qed.

(** *** The pass, line by line *)

Lemma issimplewait_clean (l c : string) (nb : list Z) :
  q1asm_get_line_info l = Ok (c, nb) ->
  q1asm_line_issimplewait c = q1asm_line_issimplewait l.
Proof.
  intros H. unfold q1asm_line_issimplewait.
  rewrite (info_idempotent _ _ _ H), H. reflexivity.
Qed.

Lemma count_play_app (A B : list string) : forall n a,
  q1asm_count_play (A ++ B) = Ok n -> q1asm_count_play A = Ok a ->
  exists b, q1asm_count_play B = Ok b /\ n = a + b.
Proof.
  induction A as [|l A IH]; intros n a H Ha.
  - injection Ha as <-. exists n. split; [exact H | lia].
  - cbn [app q1asm_count_play] in H, Ha. ok_steps.
    match goal with
    | H1 : q1asm_count_play (A ++ B) = Ok ?x, H2 : q1asm_count_play A = Ok ?y |- _ =>
        destruct (IH x y H1 H2) as (b & Hb & ->)
    end.
    match goal with
    | H1 : q1asm_get_line_info l = Ok _, H2 : q1asm_get_line_info l = Ok _ |- _ =>
        rewrite H1 in H2; injection H2 as <- <-
    end.
    exists b. split; [exact Hb|]. destruct (contains "play" _); lia.
Qed.

Lemma count_play_none (ls : list string) : forall n,
  Forall (fun l => mentions_play l = false) ls ->
  q1asm_count_play ls = Ok n -> n = 0.
Proof.
  induction ls as [|l ls IH]; intros n Hls H.
  - injection H as <-. reflexivity.
  - inversion Hls as [|? ? Hl Hls']; subst. cbn [q1asm_count_play] in H. ok_steps.
    match goal with
    | H1 : q1asm_get_line_info l = Ok (?c, _) |- _ =>
        pose proof (info_clean _ _ _ H1) as ->
    end.
    unfold mentions_play in Hl. rewrite Hl. eapply IH; eassumption.
Qed.

Lemma twt_line_counter (d : twt_delays) (wfm_nb : Z) (st st' : twt_state) (l : string) :
  twt_line d wfm_nb st l = Ok st' -> pulse_if_play l ->
  exists k, q1asm_count_play [l] = Ok k /\ wfm_counter st' = wfm_counter st + k.
Proof.
  intros H Hp. unfold twt_line in H. inv_bind H. destruct a as [c nb].
  pose proof (info_clean _ _ _ Ha) as Hc.
  cbv beta iota zeta in H. rewrite (issimplewait_clean _ _ _ Ha) in H.
  cbn [q1asm_count_play]. rewrite Ha. cbv beta iota delta [bind].
  unfold pulse_if_play, mentions_play in Hp. rewrite <- Hc in Hp.
  destruct (contains "play" c) eqn:Ep.
  - rewrite (Hp eq_refl) in H. cbv beta iota delta [bind] in H.
    exists 1. split; [reflexivity|]. ok_steps; reflexivity.
  - exists 0. split; [reflexivity|]. ok_steps; cbn [wfm_counter]; lia.
Qed.

Lemma twt_lines_counter (d : twt_delays) (wfm_nb : Z) (ls : list string) :
  forall st st',
  twt_lines d wfm_nb st ls = Ok st' -> Forall pulse_if_play ls ->
  exists k, q1asm_count_play ls = Ok k /\ wfm_counter st' = wfm_counter st + k.
Proof.
  induction ls as [|l ls IH]; intros st st' H Hls.
  - injection H as <-. exists 0. split; [reflexivity | lia].
  - inversion Hls as [|? ? Hl Hls']; subst. cbn [twt_lines] in H. inv_bind H.
    destruct (twt_line_counter _ _ _ _ _ Ha Hl) as (k1 & Hk1 & E1).
    destruct (IH _ _ H Hls') as (k2 & Hk2 & E2).
    cbn [q1asm_count_play] in Hk1 |- *. ok_steps.
    match goal with
    | H1 : q1asm_get_line_info l = Ok _ |- _ => rewrite H1
    end.
    cbv beta iota delta [bind]. rewrite Hk2. cbv beta iota.
    eexists. split; [reflexivity|]. destruct (contains "play" _); lia.
Qed.

Lemma twt_lines_app (d : twt_delays) (wfm_nb : Z) (A B : list string) : forall st,
  twt_lines d wfm_nb st (A ++ B)
  = let* st' := twt_lines d wfm_nb st A in twt_lines d wfm_nb st' B.
Proof.
  induction A as [|a A IH]; intros st; [reflexivity|].
  cbn [app twt_lines]. destruct (twt_line d wfm_nb st a); [apply IH | reflexivity].
Qed.

Lemma regroup {A : Type} (X P Q R W : list A) (x : A) :
  X ++ P ++ Q ++ R ++ [x] ++ W = (X ++ P ++ Q ++ R) ++ x :: W.
Proof. rewrite <- !app_assoc. reflexivity. Qed.

(** The last pulse: the pass closes the amplifier after it. *)
Lemma twt_line_last (d : twt_delays) (wfm_nb : Z) (st st' : twt_state) (l : string) :
  wfm_counter st + 1 = wfm_nb -> mentions_play l = true -> pulse_if_play l ->
  twt_line d wfm_nb st l = Ok st' ->
  wfm_counter st' = wfm_nb
  /\ exists A U, out st' = A ++ "set_mrk   3" :: U /\ Forall good U.
Proof.
  intros Hn Hm Hp H. unfold twt_line in H. inv_bind H. destruct a as [c nb].
  pose proof (info_clean _ _ _ Ha) as Hc.
  cbv beta iota zeta in H. rewrite (issimplewait_clean _ _ _ Ha), (Hp Hm) in H.
  cbv beta iota delta [bind] in H.
  unfold mentions_play in Hm. rewrite <- Hc in Hm. rewrite Hm in H.
  rewrite Hn, Z.eqb_refl in H. ok_steps. cbn [wfm_counter out]. split; [reflexivity|].
  eexists _, _. split; [apply regroup|].
  destruct (switch_closed_postdelay d >? 4); cbn [when];
    repeat (apply List.Forall_cons; [apply good_upd_param|]); apply List.Forall_nil.
Qed.

(** After the last pulse the pass only copies lines and rewrites waits. *)
Lemma twt_line_after (d : twt_delays) (wfm_nb : Z) (st st' : twt_state) (l : string) :
  wfm_counter st = wfm_nb -> mentions_play l = false -> turns_amp_on l = false ->
  twt_line d wfm_nb st l = Ok st' ->
  wfm_counter st' = wfm_nb /\ exists B, out st' = out st ++ B /\ Forall good B.
Proof.
  intros Hn Hm Ht H. unfold twt_line in H. inv_bind H. destruct a as [c nb].
  pose proof (info_clean _ _ _ Ha) as Hc.
  pose proof (good_passthrough _ _ _ Ha Ht) as Hg.
  cbv beta iota zeta in H.
  unfold mentions_play in Hm. rewrite <- Hc in Hm. rewrite Hm in H.
  rewrite Hn, Z.ltb_irrefl, andb_false_r in H. cbn [andb when app] in H.
  rewrite List.app_nil_r in H.
  ok_steps; cbn [wfm_counter out]; (split; [reflexivity|]);
    eexists; (split; [reflexivity|]);
    (apply List.Forall_cons; [first [apply good_wait | exact Hg] | apply List.Forall_nil]).
Qed.

Lemma twt_lines_after (d : twt_delays) (wfm_nb : Z) (ls : list string) : forall st st',
  wfm_counter st = wfm_nb ->
  Forall (fun l => mentions_play l = false /\ turns_amp_on l = false) ls ->
  twt_lines d wfm_nb st ls = Ok st' ->
  exists B, out st' = out st ++ B /\ Forall good B.
Proof.
  induction ls as [|l ls IH]; intros st st' Hn Hls H.
  - injection H as <-. exists []. split; [symmetry; apply List.app_nil_r | constructor].
  - inversion Hls as [|? ? [Hm Ht] Hls']; subst. cbn [twt_lines] in H. inv_bind H.
    destruct (twt_line_after _ _ _ _ _ eq_refl Hm Ht Ha) as (Hn' & B1 & E1 & G1).
    destruct (IH _ _ Hn' Hls' H) as (B2 & E2 & G2).
    exists (B1 ++ B2). split.
    + rewrite E2, E1, <- app_assoc. reflexivity.
    + apply Forall_app. split; assumption.
Qed.

(** *** Lines that the validator reads without raising *)

(** The validator reads a number from a line that mentions [set_mrk],
    [upd_param] or [play]. *)
Definition names_a_number (l : string) : bool :=
  contains "set_mrk" l || contains "upd_param" l || contains "play" l.

(** A line without a comment whose tokens are read without error, and that
    has a number when the validator reads one. *)
Definition readable (l : string) : Prop :=
  all_chars (is_not "#") l = true /\
  exists nb, numbers_of (split (replace_char "," " " l)) = Ok nb /\
             (names_a_number l = true -> nb <> []).

Lemma readable_rstrip (l : string) : readable l -> readable (rstrip l).
Proof.
  intros (H1 & nb & H2 & H3). split; [apply all_chars_rstrip, H1|].
  exists nb. rewrite tokens_rstrip. split; [exact H2|].
  intros H. apply H3. unfold names_a_number in *.
  apply orb_prop in H as [H|H]; [apply orb_prop in H as [H|H]|];
    apply contains_rstrip in H; rewrite H; rewrite ?orb_true_r; reflexivity.
Qed.

Lemma index_0_nonempty {A : Type} (l : list A) : l <> [] -> exists x, Py.index l 0 = Ok x.
Proof. destruct l as [|x l]; [congruence|]. intros _. exists x. reflexivity. Qed.

Lemma last_item_nonempty {A : Type} (l : list A) : l <> [] -> exists x, last_item l = Ok x.
Proof.
  intros H. unfold last_item. destruct (last l) as [x|] eqn:E; [exists x; reflexivity|].
  apply last_None in E. congruence.
Qed.

Lemma readable_check_line (l : string) (st : amp_scan) :
  readable l -> exists st', check_line st l = Ok st'.
Proof.
  intros (H1 & nb & H2 & H3). unfold check_line, q1asm_line_issimplewait.
  rewrite info_of_clean by exact H1. rewrite H2. cbv beta iota delta [bind].
  rewrite info_of_clean by exact H1. rewrite H2. cbv beta iota delta [bind].
  destruct nb as [|n nb].
  - assert (names_a_number l = false) as E.
    { destruct (names_a_number l); [exfalso; apply H3; reflexivity | reflexivity]. }
    unfold names_a_number in E. apply orb_false_elim in E as [E Ep].
    apply orb_false_elim in E as [Es Eu].
    rewrite Es, Eu, Ep. cbn [negb andb orb]. rewrite ?andb_false_r. cbn [andb orb].
    destruct (amp st); eauto.
  - destruct (last_item_nonempty (n :: nb)) as (x & Hx); [discriminate|].
    rewrite Hx. change (Py.index (n :: nb) 0) with (Ok n).
    repeat match goal with
    | |- context [if ?c then _ else _] => destruct c
    end; eauto.
Qed.

Lemma readable_check_lines (ls : list string) : forall st,
  Forall readable ls -> exists st', check_lines st ls = Ok st'.
Proof.
  induction ls as [|l ls IH]; intros st Hls; [eauto|].
  inversion Hls as [|? ? Hl Hls']; subst. cbn [check_lines].
  destruct (readable_check_line l st Hl) as (st1 & ->). apply IH, Hls'.
Qed.

(** The lines that the pass writes by itself. *)
Lemma readable_numbered (w t : string) (n : Z) :
  (all_chars (is_not "#") w && all_chars (is_not ",") w
   && all_chars solid_char w && negb (String.eqb w "")
   && negb (isdigit (lstrip_char "-" w)))%bool = true ->
  numeral t n ->
  forall sp, all_chars (fun c => Ascii.eqb c " ") sp = true ->
  readable (w +:+ String " " (sp +:+ t)).
Proof.
  intros Hw Ht sp Hsp.
  repeat (apply andb_prop in Hw; destruct Hw as [Hw ?]).
  assert (all_chars (is_not "#") sp = true /\ all_chars (is_not ",") sp = true
          /\ all_chars isspace sp = true) as (S1 & S2 & S3).
  { repeat split; (apply (all_chars_impl (fun c => Ascii.eqb c " ")); [|exact Hsp]);
      intros c Hc; apply Ascii.eqb_eq in Hc; subst c; reflexivity. }
  split.
  - rewrite all_chars_app. cbn [all_chars]. rewrite all_chars_app.
    repeat (apply andb_true_intro; split);
      first [assumption | reflexivity | eapply numeral_all_chars; [eassumption | reflexivity]].
  - exists [n]. split; [|discriminate].
    rewrite replace_char_absent.
    2:{ rewrite all_chars_app. cbn [all_chars]. rewrite all_chars_app.
        repeat (apply andb_true_intro; split);
          first [assumption | reflexivity
                | eapply numeral_all_chars; [eassumption | reflexivity]]. }
    rewrite split_word; [|split; [assumption|] | reflexivity].
    2:{ intros ->. discriminate. }
    rewrite split_blanks by exact S3.
    rewrite (split_solid t) by (eapply numeral_solid; eassumption).
    rewrite numbers_of_word by (apply negb_true_iff; assumption).
    rewrite (numbers_of_numeral t n) by exact Ht. reflexivity.
Qed.

Lemma readable_wait (n : Z) : readable ("wait      " +:+ pretty n).
Proof.
  apply (readable_numbered "wait" (pretty n) n eq_refl (numeral_pretty n) "     " eq_refl).
Qed.

Lemma readable_upd_param (n : Z) : readable ("upd_param " +:+ pretty n).
Proof.
  apply (readable_numbered "upd_param" (pretty n) n eq_refl (numeral_pretty n) "" eq_refl).
Qed.

Lemma readable_set_mrk (n : Z) : readable ("set_mrk   " +:+ pretty n).
Proof.
  apply (readable_numbered "set_mrk" (pretty n) n eq_refl (numeral_pretty n) "  " eq_refl).
Qed.

Lemma readable_passthrough (l c : string) (nb : list Z) :
  q1asm_get_line_info l = Ok (c, nb) -> carries_number l = true -> readable c.
Proof.
  intros Hi Hn. pose proof (info_clean _ _ _ Hi) as Hc. split.
  - rewrite Hc. apply before_char_has_not.
  - exists nb. unfold carries_number in Hn. rewrite Hi in Hn.
    unfold q1asm_get_line_info in Hi. inv_bind Hi. injection Hi as _ <-.
    rewrite <- Hc in Ha. split; [exact Ha|].
    unfold names_a_number. intros Hx. rewrite Hx in Hn. cbn [negb orb] in Hn.
    destruct a; [discriminate Hn | discriminate].
Qed.

Lemma Forall_when {A : Type} (P : A -> Prop) (c : bool) (xs : list A) :
  Forall P xs -> Forall P (when c xs).
Proof. destruct c; [auto | constructor]. Qed.

Ltac readable_lines :=
  repeat lazymatch goal with
  | |- Forall _ (_ ++ _) => apply Forall_app; split
  | |- Forall _ (when _ _) => apply Forall_when
  | |- Forall _ [] => apply List.Forall_nil
  | |- Forall _ (_ :: _) => apply List.Forall_cons
  | |- Forall _ _ => assumption
  | |- readable ("wait      " +:+ pretty _) => apply readable_wait
  | |- readable ("upd_param " +:+ pretty _) => apply readable_upd_param
  | |- readable "upd_param 4" => apply (readable_upd_param 4)
  | |- readable "set_mrk   7" => apply (readable_set_mrk 7)
  | |- readable "set_mrk   15" => apply (readable_set_mrk 15)
  | |- readable "set_mrk   11" => apply (readable_set_mrk 11)
  | |- readable "set_mrk   3" => apply (readable_set_mrk 3)
  | |- readable _ => assumption
  end.

Lemma twt_line_readable (d : twt_delays) (wfm_nb : Z) (st st' : twt_state) (l : string) :
  twt_line d wfm_nb st l = Ok st' -> carries_number l = true ->
  Forall readable (out st) -> Forall readable (out st').
Proof.
  intros H Hn Hout. unfold twt_line in H. inv_bind H. destruct a as [c nb].
  pose proof (readable_passthrough _ _ _ Ha Hn) as Hc.
  cbv beta iota zeta in H.
  ok_steps; cbn [out]; readable_lines.
Qed.

Lemma twt_lines_readable (d : twt_delays) (wfm_nb : Z) (ls : list string) : forall st st',
  twt_lines d wfm_nb st ls = Ok st' -> Forall (fun l => carries_number l = true) ls ->
  Forall readable (out st) -> Forall readable (out st').
Proof.
  induction ls as [|l ls IH]; intros st st' H Hls Hout.
  - injection H as <-. exact Hout.
  - inversion Hls as [|? ? Hl Hls']; subst. cbn [twt_lines] in H. inv_bind H.
    eapply IH; [exact H | exact Hls' |]. eapply twt_line_readable; eassumption.
Qed.

(** C7 (amended).  Take a program in which every line that mentions [play]
    is taken for a pulse, no line after the last pulse switches the amplifier
    on by itself, and every line that mentions [set_mrk], [upd_param] or
    [play] carries the number the validator reads.  On the program that the
    marker pass returns for it, the scan of the validator runs to its end and
    ends with [amp] false; the validator then returns the longest time the
    amplifier was on, whenever that is below [max_time]. *)
Theorem markers_leave_amp_off (d : twt_delays) (pre post : list string)
    (pulse : string) (prog : list string) :
  q1asm_insert_twt_switch_markers (pre ++ pulse :: post) d = Ok prog ->
  mentions_play pulse = true ->
  Forall pulse_if_play (pre ++ [pulse]) ->
  Forall (fun l => mentions_play l = false /\ turns_amp_on l = false) post ->
  Forall (fun l => carries_number l = true) (pre ++ pulse :: post) ->
  exists st,
    check_lines {| amp := false; amp_time := 0; amp_time_max := 0 |} prog = Ok st
    /\ amp st = false
    /\ forall max_time, amp_time_max st < max_time ->
         q1asm_check_amp_overtrigger prog max_time = Ok (amp_time_max st).
Proof.
  intros H Hm Hp Hpost Hnum. apply Forall_app in Hp as [Hpre Hpulse].
  inversion Hpulse as [|? ? Hpulse' _]; subst.
  unfold q1asm_insert_twt_switch_markers in H.
  do 4 inv_bind H. injection H as <-.
  match goal with
  | Hc : q1asm_count_play _ = Ok _, Ht : twt_lines _ _ _ _ = Ok _ |- _ =>
      rename Hc into Hcount; rename Ht into Htwt
  end.
  pose proof (twt_lines_readable _ _ _ _ _ Htwt Hnum (List.Forall_nil _)) as Hread.
  rewrite twt_lines_app in Htwt. inv_bind Htwt.
  cbn [twt_lines] in Htwt. inv_bind Htwt.
  match goal with
  | H1 : twt_lines _ _ _ pre = Ok ?st1, H2 : twt_line _ _ ?st1 pulse = Ok _ |- _ =>
      rename H1 into Hst1; rename H2 into Hst2
  end.
  destruct (twt_lines_counter _ _ _ _ _ Hst1 Hpre) as (k & Hk & Ek).
  cbn [wfm_counter] in Ek.
  destruct (count_play_app _ _ _ _ Hcount Hk) as (b & Hb & ->).
  assert (b = 1) as ->.
  { cbn [q1asm_count_play] in Hb. ok_steps.
    match goal with
    | H1 : q1asm_get_line_info pulse = Ok _ |- _ => pose proof (info_clean _ _ _ H1) as ->
    end.
    unfold mentions_play in Hm. rewrite Hm.
    assert (Forall (fun l => mentions_play l = false) post) as Hnone.
    { clear -Hpost. induction Hpost as [|? ? [? _] _ IH]; constructor; assumption. }
    match goal with
    | H1 : q1asm_count_play post = Ok ?n |- _ =>
        rewrite (count_play_none post n Hnone H1)
    end.
    reflexivity. }
  rewrite Z.add_0_l in Ek. apply (f_equal (fun x => x + 1)) in Ek.
  destruct (twt_line_last _ _ _ _ _ Ek Hm Hpulse' Hst2) as (Hn2 & A & U & EA & GU).
  destruct (twt_lines_after _ _ _ _ _ Hn2 Hpost Htwt) as (B & EB & GB).
  apply (Forall_rstrip_lines _ _ readable_rstrip) in Hread.
  destruct (readable_check_lines _ {| amp := false; amp_time := 0; amp_time_max := 0 |}
              Hread) as (st & Hst).
  exists st. split; [exact Hst|].
  assert (amp st = false) as Hamp.
  { revert Hst. rewrite EB, EA, <- app_assoc. cbn [app].
    rewrite rstrip_lines_app_solid by (split; [reflexivity | discriminate]).
    pose proof (off_after_set_mrk_3 A (rstrip_lines (U ++ B))
                  {| amp := false; amp_time := 0; amp_time_max := 0 |}) as Hoff.
    intros Hst. rewrite Hst in Hoff.
    apply Hoff, Forall_rstrip_lines; [exact good_rstrip|].
    apply Forall_app. split; assumption. }
  split; [exact Hamp|].
  intros max_time Hmax. unfold q1asm_check_amp_overtrigger.
  rewrite Hst. cbv beta iota delta [bind]. rewrite Hamp.
  replace (amp_time_max st <? max_time) with true by lia. reflexivity.
Qed.

(** C7: a [set_mrk 15] written by the user after the last pulse goes through
    the pass, and the validator then refuses the program the pass returned. *)
Theorem user_marker_leaves_amp_on :
  q1asm_insert_twt_switch_markers
    ["play      5,3,40"; "wait      750"; "set_mrk   15"] default_delays
  = Ok ["set_mrk   15"; "upd_param 250"; "play      5,3,40"; "wait      50";
        "set_mrk   11"; "upd_param 250"; "set_mrk   3"; "upd_param 150";
        "wait      300"; "set_mrk   15"]
  /\ q1asm_check_amp_overtrigger
       ["set_mrk   15"; "upd_param 250"; "play      5,3,40"; "wait      50";
        "set_mrk   11"; "upd_param 250"; "set_mrk   3"; "upd_param 150";
        "wait      300"; "set_mrk   15"] 5000
     = Raise amp_still_on.
Proof. split; vm_compute; reflexivity. Qed.

(** Without its number a pulse stops the scan: the pass returns a program,
    and the validator raises on the [play] line while the amplifier is on. *)
Lemma a_pulse_without_number_stops_the_scan :
  q1asm_insert_twt_switch_markers ["play      R5,R6,R7"; "wait      750"] default_delays
  = Ok ["set_mrk   15"; "upd_param 250"; "play      R5,R6,R7"; "wait      50";
        "set_mrk   11"; "upd_param 250"; "set_mrk   3"; "upd_param 150";
        "wait      300"]
  /\ check_lines {| amp := false; amp_time := 0; amp_time_max := 0 |}
       ["set_mrk   15"; "upd_param 250"; "play      R5,R6,R7"; "wait      50";
        "set_mrk   11"; "upd_param 250"; "set_mrk   3"; "upd_param 150";
        "wait      300"]
     = Raise IndexError.
Proof. split; vm_compute; reflexivity. Qed.

Lemma markers_leave_amp_off_witness :
  exists st,
    check_lines {| amp := false; amp_time := 0; amp_time_max := 0 |}
      ["set_mrk   15"; "upd_param 250"; "play      5,3,40"; "wait      50";
       "set_mrk   11"; "upd_param 250"; "set_mrk   3"; "upd_param 150";
       "wait      300"; "set_mrk   3"] = Ok st
    /\ amp st = false
    /\ forall max_time, amp_time_max st < max_time ->
         q1asm_check_amp_overtrigger
           ["set_mrk   15"; "upd_param 250"; "play      5,3,40"; "wait      50";
            "set_mrk   11"; "upd_param 250"; "set_mrk   3"; "upd_param 150";
            "wait      300"; "set_mrk   3"] max_time = Ok (amp_time_max st).
Proof.
  apply (markers_leave_amp_off default_delays [] ["wait      750"; "set_mrk   3"]
           "play      5,3,40").
  - vm_compute. reflexivity.
  - vm_compute. reflexivity.
  - repeat (apply List.Forall_cons; [intros _; vm_compute; reflexivity|]).
    apply List.Forall_nil.
  - repeat (apply List.Forall_cons; [split; vm_compute; reflexivity|]).
    apply List.Forall_nil.
  - repeat (apply List.Forall_cons; [vm_compute; reflexivity|]).
    apply List.Forall_nil.
Defined.

End MarkerFacts.

(** ** Binary64 remainders *)

Module FloatFacts.
Import PyFloat.

(** *** Mantissas *)

Lemma digits2_size (m : positive) : digits2_pos m = Pos.size m.
Proof. induction m as [m IH|m IH|]; cbn; rewrite ?IH; reflexivity. Qed.

(** The number of binary digits of a mantissa. *)
Definition digits (m : positive) : Z := Zpos (digits2_pos m).

Lemma digits_pos (m : positive) : 1 <= digits m.
Proof. unfold digits. lia. Qed.

Lemma digits_bounds (m : positive) : 2 ^ (digits m - 1) <= Zpos m < 2 ^ digits m.
Proof.
  unfold digits. rewrite digits2_size. split.
  - pose proof (Pos.size_le m) as H.
    apply Pos2Z.pos_le_pos in H. rewrite Pos2Z.inj_pow in H.
    replace (Zpos (Pos.size m)) with (Zpos (Pos.size m) - 1 + 1) in H by lia.
    rewrite Z.pow_add_r in H by lia. change (Zpos m~0) with (2 * Zpos m) in H. lia.
  - pose proof (Pos.size_gt m) as H.
    apply Pos2Z.pos_lt_pos in H. rewrite Pos2Z.inj_pow in H. exact H.
Qed.

Lemma iter_xO_value (m j : positive) : Zpos (Pos.iter xO m j) = Zpos m * 2 ^ Zpos j.
Proof.
  induction j as [|j IH] using Pos.peano_ind.
  - cbn [Pos.iter]. rewrite Z.pow_1_r. lia.
  - rewrite Pos.iter_succ, Pos2Z.inj_succ, Z.pow_succ_r by lia.
    change (Zpos (Pos.iter xO m j)~0) with (2 * Zpos (Pos.iter xO m j)). rewrite IH. lia.
Qed.

Lemma iter_xO_digits (m j : positive) : digits (Pos.iter xO m j) = digits m + Zpos j.
Proof.
  unfold digits. induction j as [|j IH] using Pos.peano_ind.
  - cbn [Pos.iter digits2_pos]. lia.
  - rewrite Pos.iter_succ. cbn [digits2_pos]. rewrite Pos2Z.inj_succ, IH. lia.
Qed.

(** [m] shifted left by [j >= 0] binary places. *)
Definition shifted (m : positive) (j : Z) : positive :=
  match j with Zpos p => Pos.iter xO m p | _ => m end.

Lemma shifted_value (m : positive) (j : Z) : 0 <= j -> Zpos (shifted m j) = Zpos m * 2 ^ j.
Proof.
  destruct j as [|p|p]; intros H; [cbn; lia | apply iter_xO_value | lia].
Qed.

Lemma shifted_digits (m : positive) (j : Z) : 0 <= j -> digits (shifted m j) = digits m + j.
Proof.
  destruct j as [|p|p]; intros H; [cbn; lia | apply iter_xO_digits | lia].
Qed.

(** *** Rounding a number that needs none *)

(** The exponent of a float whose value has [z] binary digits before the
    point. *)
Definition fexp64 (z : Z) : Z := Z.max (z - 53) (-1074).

Lemma fexp_eq (z : Z) : fexp prec emax z = fexp64 z.
Proof. reflexivity. Qed.

(** A mantissa of 53 digits with an exponent in range is its own rounding. *)
Lemma binary_round_aux_exact (s : bool) (m : positive) (e : Z) :
  digits m = 53 -> -1074 <= e <= 971 ->
  binary_round_aux prec emax s (Zpos m) e loc_Exact = S754_finite s m e.
Proof.
  intros Hd He. unfold binary_round_aux.
  assert (shr_fexp prec emax (Zpos m) e loc_Exact
          = ({| shr_m := Zpos m; shr_r := false; shr_s := false |}, e)) as E.
  { unfold shr_fexp. cbn [Zdigits2]. fold (digits m). rewrite Hd, fexp_eq.
    unfold fexp64. replace (Z.max (53 + e - 53) (-1074) - e) with 0 by lia.
    reflexivity. }
  rewrite E. cbn [shr_m loc_of_shr_record round_nearest_even]. rewrite E. cbn [shr_m].
  replace (e <=? emax - prec) with true; [reflexivity|].
  symmetry. apply Z.leb_le. change (emax - prec) with 971. lia.
Qed.

(** [binary_round] of a mantissa of at most 53 digits, when the result is a
    normal number: the mantissa is shifted to 53 digits. *)
Lemma binary_round_exact (s : bool) (m : positive) (e : Z) :
  digits m <= 53 -> -1074 <= e + digits m - 53 <= 971 ->
  binary_round prec emax s m e
  = S754_finite s (shifted m (53 - digits m)) (e + digits m - 53).
Proof.
  intros Hd He. unfold binary_round. fold (digits m). rewrite fexp_eq. unfold fexp64.
  replace (Z.max (digits m + e - 53) (-1074)) with (e + digits m - 53) by lia.
  unfold shl_align.
  replace (e + digits m - 53 - e) with (- (53 - digits m)) by lia.
  pose proof (digits_pos m).
  destruct (53 - digits m) as [|j|j] eqn:Ej; [| |lia].
  - cbn [Z.opp shifted]. replace (e + digits m - 53) with e by lia.
    apply binary_round_aux_exact; lia.
  - cbn [Z.opp shifted]. apply binary_round_aux_exact; [|lia].
    rewrite iter_xO_digits. lia.
Qed.

(** *** Reading back a float built from a mantissa and an exponent *)

Lemma Prim2SF_of_mantissa (m : positive) :
  digits m <= 53 ->
  Prim2SF (of_uint63 (Uint63.of_Z (Zpos m)))
  = S754_finite false (shifted m (53 - digits m)) (digits m - 53).
Proof.
  intros Hd. rewrite of_uint63_spec, Uint63.of_Z_spec.
  pose proof (digits_bounds m) as [_ B]. pose proof (digits_pos m).
  assert (2 ^ digits m <= 2 ^ 53) by (apply Z.pow_le_mono_r; lia).
  rewrite Z.mod_small.
  2:{ split; [lia|]. change Uint63.wB with (2 ^ 63).
      assert (2 ^ 53 < 2 ^ 63) by reflexivity. lia. }
  cbn [binary_normalize]. rewrite binary_round_exact by lia.
  f_equal.
Qed.

(** The float [SF2Prim] builds from a sign, a mantissa of at most 53 digits
    and an exponent, when it is a normal number. *)
Lemma Prim2SF_SF2Prim_normal (s : bool) (m : positive) (e : Z) :
  digits m <= 53 -> -1074 <= e + digits m - 53 <= 971 ->
  Prim2SF (SF2Prim (S754_finite s m e))
  = S754_finite s (shifted m (53 - digits m)) (e + digits m - 53).
Proof.
  intros Hd He. cbn [SF2Prim].
  assert (Prim2SF (Z.ldexp (of_uint63 (Uint63.of_Z (Zpos m))) e)
          = S754_finite false (shifted m (53 - digits m)) (e + digits m - 53)) as E.
  { rewrite Z_ldexp_spec, Prim2SF_of_mantissa by exact Hd. cbn [SFldexp].
    pose proof (digits_pos m).
    assert (digits (shifted m (53 - digits m)) = 53) as D
      by (rewrite shifted_digits; lia).
    rewrite binary_round_exact by (rewrite D; lia).
    rewrite D. cbn [shifted Z.sub Z.opp Z.add Z.pos_sub]. f_equal. lia. }
  destruct s; [|exact E].
  rewrite opp_spec, E. reflexivity.
Qed.

(** *** Canonical forms *)

(** A mantissa and an exponent as a float holds them. *)
Definition canonical (m : positive) (e : Z) : Prop :=
  fexp64 (digits m + e) = e.

Lemma valid_canonical (x : float) (s : bool) (m : positive) (e : Z) :
  Prim2SF x = S754_finite s m e -> canonical m e /\ e <= 971.
Proof.
  intros H. pose proof (Prim2SF_valid x) as V. rewrite H in V.
  cbn [valid_binary] in V. unfold bounded, canonical_mantissa in V.
  apply andb_prop in V as [V1 V2]. apply Z.eqb_eq in V1. apply Z.leb_le in V2.
  split; [exact V1 | exact V2].
Qed.

Lemma canonical_bounds (m : positive) (e : Z) :
  canonical m e -> -1074 <= e /\ digits m <= 53 /\ (digits m = 53 \/ e = -1074).
Proof. unfold canonical, fexp64. lia. Qed.

(** The value of a mantissa and an exponent, in units of [2^-1074]. *)
Definition scaled (m : positive) (e : Z) : Z := Zpos m * 2 ^ (e + 1074).

Lemma scaled_bounds (m : positive) (e : Z) :
  -1074 <= e ->
  2 ^ (digits m + e + 1073) <= scaled m e < 2 ^ (digits m + e + 1074).
Proof.
  intros He. unfold scaled. pose proof (digits_bounds m) as [B1 B2].
  pose proof (digits_pos m).
  replace (digits m + e + 1073) with ((digits m - 1) + (e + 1074)) by lia.
  replace (digits m + e + 1074) with (digits m + (e + 1074)) by lia.
  rewrite (Z.pow_add_r 2 (digits m - 1)), (Z.pow_add_r 2 (digits m)) by lia.
  assert (0 < 2 ^ (e + 1074)) by (apply Z.pow_pos_nonneg; lia).
  generalize dependent (2 ^ (e + 1074)). generalize dependent (2 ^ (digits m - 1)).
  generalize dependent (2 ^ digits m). intros. nia.
Qed.

(** Two canonical forms of one value are the same. *)
Lemma canonical_unique (m1 m2 : positive) (e1 e2 : Z) :
  canonical m1 e1 -> canonical m2 e2 -> scaled m1 e1 = scaled m2 e2 ->
  m1 = m2 /\ e1 = e2.
Proof.
  intros C1 C2 E.
  pose proof (canonical_bounds _ _ C1) as (L1 & _ & _).
  pose proof (canonical_bounds _ _ C2) as (L2 & _ & _).
  pose proof (scaled_bounds m1 e1 L1) as [A1 A2].
  pose proof (scaled_bounds m2 e2 L2) as [B1 B2].
  pose proof (digits_pos m1). pose proof (digits_pos m2).
  assert (digits m1 + e1 = digits m2 + e2) as Hd.
  { destruct (Z.lt_trichotomy (digits m1 + e1) (digits m2 + e2)) as [Hlt | [Heq | Hgt]];
      [|exact Heq|].
    - assert (2 ^ (digits m1 + e1 + 1074) <= 2 ^ (digits m2 + e2 + 1073))
        by (apply Z.pow_le_mono_r; lia). lia.
    - assert (2 ^ (digits m2 + e2 + 1074) <= 2 ^ (digits m1 + e1 + 1073))
        by (apply Z.pow_le_mono_r; lia). lia. }
  assert (e1 = e2) as <-.
  { unfold canonical in C1, C2. rewrite Hd in C1. congruence. }
  split; [|reflexivity]. unfold scaled in E.
  assert (0 < 2 ^ (e1 + 1074)) by (apply Z.pow_pos_nonneg; lia).
  apply Z.mul_cancel_r in E; [|lia]. congruence.
Qed.


(** *** The remainder of a division by 360 *)

(** [360.0] is [D44 * 2^-44]; a turn is 360 degrees in units of [2^-1074]. *)
Definition D44 : positive := 6333186975989760.
Definition turn : Z := 360 * 2 ^ 1074.

Lemma Prim2SF_360 : Prim2SF 360%float = S754_finite false D44 (-44).
Proof. reflexivity. Qed.

Lemma turn_D44 : turn = Zpos D44 * 2 ^ 1030.
Proof. reflexivity. Qed.

Lemma D44_bounds : 2 ^ 52 < Zpos D44 < 2 ^ 53.
Proof. split; reflexivity. Qed.

Lemma scaled_pos (m : positive) (e : Z) : -1074 <= e -> 0 < scaled m e.
Proof.
  intros He. unfold scaled.
  assert (0 < 2 ^ (e + 1074)) by (apply Z.pow_pos_nonneg; lia). lia.
Qed.

Lemma mantissa_lt (m : positive) : digits m <= 53 -> Zpos m < 2 ^ 53.
Proof.
  intros Hd. pose proof (digits_bounds m) as [_ B]. pose proof (digits_pos m).
  assert (2 ^ digits m <= 2 ^ 53) by (apply Z.pow_le_mono_r; lia). lia.
Qed.

Lemma digits_le_53 (m : positive) : Zpos m < 2 ^ 53 -> digits m <= 53.
Proof.
  intros Hm. pose proof (digits_bounds m) as [B _]. pose proof (digits_pos m).
  destruct (Z.leb_spec (digits m) 53) as [|Hgt]; [assumption|].
  assert (2 ^ 53 <= 2 ^ (digits m - 1)) by (apply Z.pow_le_mono_r; lia). lia.
Qed.

Section Fmod.
Variables (x : float) (s : bool) (m : positive) (e : Z).
Hypothesis Hx : Prim2SF x = S754_finite s m e.

Lemma fmod_below (He : e < -44) : PyFloat.fmod x 360 = x /\ scaled m e < turn.
Proof.
  destruct (valid_canonical _ _ _ _ Hx) as [C _].
  destruct (canonical_bounds _ _ C) as (L & Hd & _).
  pose proof (mantissa_lt m Hd) as Hm. pose proof D44_bounds as [D1 D2].
  assert (2 ^ 1 <= 2 ^ (-44 - e)) as P by (apply Z.pow_le_mono_r; lia).
  change (2 ^ 1) with 2 in P.
  split.
  - unfold PyFloat.fmod. rewrite Hx, Prim2SF_360.
    replace (Z.min e (-44)) with e by lia. cbv zeta.
    replace (e - e) with 0 by lia. rewrite Z.shiftl_0_r.
    rewrite Z.shiftl_mul_pow2 by lia.
    rewrite Z.mod_small by nia.
    rewrite <- Hx. apply SF2Prim_Prim2SF.
  - rewrite turn_D44. unfold scaled.
    replace 1030 with ((-44 - e) + (e + 1074)) by lia.
    rewrite (Z.pow_add_r 2 (-44 - e) (e + 1074)) by lia.
    assert (0 < 2 ^ (e + 1074)) as Hc by (apply Z.pow_pos_nonneg; lia).
    assert (Zpos m < 2 * Zpos D44) as Hlt.
    { change (2 ^ 53) with (2 * 2 ^ 52) in Hm. lia. }
    pose proof (Pos2Z.is_pos D44) as Hd0.
    clear - P Hc Hlt Hd0.
    generalize dependent (2 ^ (e + 1074)). generalize dependent (2 ^ (-44 - e)).
    generalize dependent (Zpos D44). generalize dependent (Zpos m).
    intros M d HM Hd0 a Ha c Hc.
    assert (M * c < 2 * d * c) by nia.
    assert (0 <= d * c) by nia.
    assert (2 * (d * c) <= a * (d * c)) by nia. lia.
Qed.

Lemma fmod_above (He : -44 <= e) :
  PyFloat.fmod x 360
  = match (Zpos m * 2 ^ (e + 44)) `mod` Zpos D44 with
    | Zpos p => SF2Prim (S754_finite s p (-44))
    | _ => SF2Prim (S754_zero s)
    end
  /\ scaled m e `mod` turn = (Zpos m * 2 ^ (e + 44)) `mod` Zpos D44 * 2 ^ 1030.
Proof.
  split.
  - unfold PyFloat.fmod. rewrite Hx, Prim2SF_360.
    replace (Z.min e (-44)) with (-44) by lia. cbv zeta.
    change (-44 - -44) with 0. rewrite Z.shiftl_0_r.
    rewrite Z.shiftl_mul_pow2 by lia.
    replace (e - -44) with (e + 44) by lia. reflexivity.
  - rewrite turn_D44. unfold scaled.
    replace (e + 1074) with ((e + 44) + 1030) by lia.
    rewrite (Z.pow_add_r 2 (e + 44) 1030) by lia. rewrite Z.mul_assoc.
    apply Z.mul_mod_distr_r; [lia|]. apply Z.pow_nonzero; lia.
Qed.

(** The remainder is zero, or the float of the remainder of the values. *)
Lemma fmod_canonical :
  (scaled m e `mod` turn = 0 /\ PyFloat.fmod x 360 = SF2Prim (S754_zero s))
  \/ (exists m' e', Prim2SF (PyFloat.fmod x 360) = S754_finite s m' e'
                    /\ canonical m' e' /\ scaled m' e' = scaled m e `mod` turn).
Proof.
  destruct (valid_canonical _ _ _ _ Hx) as [C _].
  destruct (canonical_bounds _ _ C) as (L & Hd & _).
  destruct (Z.ltb_spec e (-44)) as [He|He].
  - destruct (fmod_below He) as [E B]. right. exists m, e. rewrite E.
    split; [exact Hx|]. split; [exact C|].
    symmetry. apply Z.mod_small. pose proof (scaled_pos m e L). lia.
  - destruct (fmod_above He) as [E B]. rewrite E, B.
    pose proof (Z.mod_pos_bound (Zpos m * 2 ^ (e + 44)) (Zpos D44) eq_refl) as [R1 R2].
    destruct ((Zpos m * 2 ^ (e + 44)) `mod` Zpos D44) as [|p|p]; [left | right | lia].
    + split; reflexivity.
    + pose proof D44_bounds as [_ D2].
      assert (digits p <= 53) as Hp by (apply digits_le_53; lia).
      pose proof (digits_pos p).
      exists (shifted p (53 - digits p)), (-44 + digits p - 53).
      rewrite Prim2SF_SF2Prim_normal by lia.
      split; [reflexivity|]. split.
      * unfold canonical, fexp64. rewrite shifted_digits by lia. lia.
      * unfold scaled. rewrite shifted_value by lia.
        rewrite <- Z.mul_assoc, <- Z.pow_add_r by lia. do 2 f_equal. lia.
Qed.

End Fmod.

(** Floats of one sign whose values differ by whole turns have the same
    remainder. *)
Lemma fmod_same (x1 x2 : float) (s : bool) (m1 m2 : positive) (e1 e2 : Z) :
  Prim2SF x1 = S754_finite s m1 e1 -> Prim2SF x2 = S754_finite s m2 e2 ->
  scaled m1 e1 `mod` turn = scaled m2 e2 `mod` turn ->
  PyFloat.fmod x1 360 = PyFloat.fmod x2 360.
Proof.
  intros H1 H2 E.
  destruct (fmod_canonical _ _ _ _ H1) as [[Z1 F1] | (a1 & b1 & F1 & C1 & V1)];
  destruct (fmod_canonical _ _ _ _ H2) as [[Z2 F2] | (a2 & b2 & F2 & C2 & V2)].
  - congruence.
  - pose proof (scaled_pos a2 b2 (proj1 (canonical_bounds _ _ C2))). lia.
  - pose proof (scaled_pos a1 b1 (proj1 (canonical_bounds _ _ C1))). lia.
  - destruct (canonical_unique a1 a2 b1 b2 C1 C2) as [-> ->]; [congruence|].
    apply Prim2SF_inj. congruence.
Qed.

(** Below a turn in magnitude the remainder is the float itself. *)
Lemma fmod_id (x : float) (s : bool) (m : positive) (e : Z) :
  Prim2SF x = S754_finite s m e -> scaled m e < turn -> PyFloat.fmod x 360 = x.
Proof.
  intros Hx Hlt.
  destruct (valid_canonical _ _ _ _ Hx) as [C _].
  pose proof (scaled_pos m e (proj1 (canonical_bounds _ _ C))) as Hpos.
  destruct (fmod_canonical _ _ _ _ Hx) as [[Z1 _] | (a & b & F & Ca & V)].
  - rewrite Z.mod_small in Z1 by lia. lia.
  - rewrite Z.mod_small in V by lia.
    destruct (canonical_unique a m b e Ca C V) as [-> ->].
    apply Prim2SF_inj. congruence.
Qed.

(** A whole number of turns has remainder zero. *)
Lemma fmod_zero (x : float) (s : bool) (m : positive) (e : Z) :
  Prim2SF x = S754_finite s m e -> scaled m e `mod` turn = 0 ->
  PyFloat.fmod x 360 = SF2Prim (S754_zero s).
Proof.
  intros Hx Hz.
  destruct (fmod_canonical _ _ _ _ Hx) as [[_ F] | (a & b & F & Ca & V)]; [exact F|].
  pose proof (scaled_pos a b (proj1 (canonical_bounds _ _ Ca))). lia.
Qed.

(** The tests of [rem] on a float that is not zero. *)
Lemma tests_finite (x : float) (s : bool) (m : positive) (e : Z) :
  Prim2SF x = S754_finite s m e ->
  PrimFloat.eqb x PrimFloat.zero = false /\ PrimFloat.ltb x PrimFloat.zero = s.
Proof.
  intros Hx. rewrite FloatAxioms.eqb_spec, FloatAxioms.ltb_spec, Hx.
  destruct s; split; reflexivity.
Qed.

Lemma rem_of_zero (x : float) (s : bool) :
  Prim2SF x = S754_zero s -> PyFloat.rem x 360 = Ok PrimFloat.zero.
Proof.
  intros Hx. apply (f_equal SF2Prim) in Hx. rewrite SF2Prim_Prim2SF in Hx. subst x.
  destruct s; reflexivity.
Qed.

Lemma units_finite (x : float) (s : bool) (m : positive) (e : Z) :
  Prim2SF x = S754_finite s m e ->
  units x = Some (if s then - scaled m e else scaled m e).
Proof. intros H. unfold units. rewrite H. reflexivity. Qed.

(** When the float sum [p + 360] is the exact sum, the two remainders are
    the same float. *)
Lemma rem_periodic (p : float) (u : Z) :
  units p = Some u -> units (p + 360)%float = Some (u + turn) ->
  rem (p + 360) 360 = rem p 360.
Proof.
  intros Hp Hq.
  destruct (Prim2SF p) as [s|s| |s m e] eqn:Ep;
    [|unfold units in Hp; rewrite Ep in Hp; discriminate Hp..|].
  { (* p is a zero *)
    apply (f_equal SF2Prim) in Ep. rewrite SF2Prim_Prim2SF in Ep. subst p.
    destruct s; reflexivity. }
  rewrite (units_finite _ _ _ _ Ep) in Hp. injection Hp as <-.
  destruct (valid_canonical _ _ _ _ Ep) as [C _].
  pose proof (scaled_pos m e (proj1 (canonical_bounds _ _ C))) as Hpos.
  assert (0 < turn) as Hturn by reflexivity.
  destruct (Prim2SF (p + 360)) as [s'|s'| |s' m' e'] eqn:Eq;
    [|unfold units in Hq; rewrite Eq in Hq; discriminate Hq..|].
  - (* the sum is a zero: p is minus one turn *)
    unfold units in Hq. rewrite Eq in Hq. injection Hq as Hq.
    rewrite (rem_of_zero _ _ Eq).
    destruct s; [|lia].
    assert (scaled m e = turn) as Ht by lia.
    unfold rem.
    rewrite (fmod_zero _ _ _ _ Ep) by (rewrite Ht; apply Z.mod_same; lia).
    reflexivity.
  - rewrite (units_finite _ _ _ _ Eq) in Hq. injection Hq as Hq.
    destruct (valid_canonical _ _ _ _ Eq) as [C' _].
    pose proof (scaled_pos m' e' (proj1 (canonical_bounds _ _ C'))) as Hpos'.
    destruct s, s'; try lia.
    + (* both negative *)
      unfold rem. f_equal.
      rewrite (fmod_same _ _ _ _ _ _ _ Eq Ep); [reflexivity|].
      replace (scaled m e) with (scaled m' e' + 1 * turn) by lia.
      rewrite Z.mod_add by lia. reflexivity.
    + (* p negative, the sum positive: both below a turn *)
      assert (scaled m e < turn) as B by lia.
      assert (scaled m' e' < turn) as B' by lia.
      unfold rem.
      rewrite (fmod_id _ _ _ _ Eq B'), (fmod_id _ _ _ _ Ep B).
      destruct (tests_finite _ _ _ _ Eq) as [-> ->].
      destruct (tests_finite _ _ _ _ Ep) as [-> ->].
      reflexivity.
    + (* both positive *)
      unfold rem.
      rewrite (fmod_same _ _ _ _ _ _ _ Eq Ep); [reflexivity|].
      replace (scaled m' e') with (scaled m e + 1 * turn) by lia.
      rewrite Z.mod_add by lia. reflexivity.
Qed.

End FloatFacts.

(** ** The macro assembler *)

Module SimpleFacts.
Import Py StringFacts Simple.

(** *** The phase converter *)

(** C9, as amended. The phase converter is periodic on every [int] number
    of degrees, [phase(p + 360) = phase(p)], and on every float [p] whose
    float sum [p + 360] is the exact sum, the value of [p] plus 360; and
    [phase(90) = 250000000], [phase(-90) = 750000000], for the [int] and for
    the float arguments alike. *)
Theorem q1asm_ph_periodic :
  (forall p : Z,
     q1asm_ph (PyFloat.PyInt (p + 360)) true = q1asm_ph (PyFloat.PyInt p) true) /\
  (forall (p : float) (u : Z),
     PyFloat.units p = Some u ->
     PyFloat.units (p + 360)%float = Some (u + 360 * 2 ^ 1074) ->
     q1asm_ph (PyFloat.PyFloat (p + 360)%float) true = q1asm_ph (PyFloat.PyFloat p) true) /\
  q1asm_ph (PyFloat.PyInt 90) true = Ok 250000000 /\
  q1asm_ph (PyFloat.PyInt (-90)) true = Ok 750000000 /\
  q1asm_ph (PyFloat.PyFloat 90%float) true = Ok 250000000 /\
  q1asm_ph (PyFloat.PyFloat (-90)%float) true = Ok 750000000.
Proof.
  split; [|split; [|repeat split; vm_compute; reflexivity]].
  - intros p. unfold q1asm_ph.
    replace ((p + 360) `mod` 360) with (p `mod` 360); [reflexivity|].
    rewrite <- (Z.mul_1_l 360) at 2. rewrite Z.mod_add by lia. reflexivity.
  - intros p u Hp Hq. unfold q1asm_ph.
    rewrite (FloatFacts.rem_periodic p u Hp Hq). reflexivity.
Qed.

(** The amended statement applies to the float [90.5], and to [-90.25]
    whose sum with 360 changes sign. *)
Lemma q1asm_ph_periodic_witness :
  q1asm_ph (PyFloat.PyFloat (90.5 + 360)%float) true
  = q1asm_ph (PyFloat.PyFloat 90.5%float) true
  /\ q1asm_ph (PyFloat.PyFloat (-90.25 + 360)%float) true
     = q1asm_ph (PyFloat.PyFloat (-90.25)%float) true.
Proof.
  split.
  - apply (proj1 (proj2 q1asm_ph_periodic) 90.5%float (181 * 2 ^ 1073));
      vm_compute; reflexivity.
  - apply (proj1 (proj2 q1asm_ph_periodic) (-90.25)%float (- (361 * 2 ^ 1072)));
      vm_compute; reflexivity.
Defined.

(** C9, the claim as stated fails on floats: [p + 360] is rounded, and the
    remainder with it.  At [p = 1e17] the sum is [p + 352]; at
    [p = 1.7999999999998562e-07] the remainder of the sum falls on the other
    side of a half step. *)
Lemma q1asm_ph_not_periodic_on_floats :
  q1asm_ph (PyFloat.PyFloat 1e17%float) true = Ok 777777778 /\
  q1asm_ph (PyFloat.PyFloat (1e17 + 360)%float) true = Ok 755555556 /\
  q1asm_ph (PyFloat.PyFloat 0x1.828c0be769ba2p-23%float) true = Ok 1 /\
  q1asm_ph (PyFloat.PyFloat (0x1.828c0be769ba2p-23 + 360)%float) true = Ok 0.
Proof. repeat split; vm_compute; reflexivity. Qed.

(** In both cases the float sum is not the exact sum: [1e17 + 360] is
    [1e17 + 352], and the other sum loses the digits of [p] below [2^-44],
    which weigh [523980241 * 2^-74]. *)
Lemma the_sums_are_rounded :
  PyFloat.units (1e17 + 360)%float
  = (fun u => u + 352 * 2 ^ 1074) <$> PyFloat.units 1e17%float
  /\ PyFloat.units (0x1.828c0be769ba2p-23 + 360)%float
     = (fun u => u + 360 * 2 ^ 1074 - 523980241 * 2 ^ 1000)
       <$> PyFloat.units 0x1.828c0be769ba2p-23%float.
Proof. split; vm_compute; reflexivity. Qed.

(** *** Words *)

Definition word (w : string) : Prop := all_chars is_word w = true /\ w <> "".

Lemma is_word_solid (c : ascii) : is_word c = true -> solid_char c = true.
Proof. destruct c as [[] [] [] [] [] [] [] []]; intros H; try discriminate H; reflexivity. Qed.

Lemma word_solid (w : string) : word w -> solid w.
Proof.
  intros [H1 H2]. split; [|exact H2].
  apply (all_chars_impl is_word); [apply is_word_solid | exact H1].
Qed.

Lemma span_word_word (s : string) : all_chars is_word (fst (span_word s)) = true.
Proof.
  induction s as [|c s IH]; [reflexivity|]. cbn [span_word].
  destruct (is_word c) eqn:Ec; [|reflexivity].
  destruct (span_word s) as [w r]. cbn [fst all_chars] in *. rewrite Ec, IH. reflexivity.
Qed.

Lemma scan_word_word (s w r : string) : scan_word s = Some (w, r) -> word w.
Proof.
  unfold scan_word. pose proof (span_word_word (lstrip s)) as H.
  destruct (span_word (lstrip s)) as [[|c w'] r']; [discriminate|].
  intros [= <- <-]. split; [exact H | discriminate].
Qed.

Lemma match_operator_words (line dest op1 op2 : string) (operator : ascii) :
  match_operator line = Some (dest, op1, operator, op2) ->
  word dest /\ word op1 /\ word op2 /\ is_operator operator = true.
Proof.
  unfold match_operator. intros H.
  destruct (scan_word line) as [[d r1]|] eqn:E1; [|discriminate]. cbn in H.
  destruct (scan_char (Ascii.eqb "=") r1) as [[e r2]|] eqn:E2; [|discriminate]. cbn in H.
  destruct (scan_word r2) as [[o1 r3]|] eqn:E3; [|discriminate]. cbn in H.
  destruct (scan_char is_operator r3) as [[o r4]|] eqn:E4; [|discriminate]. cbn in H.
  destruct (scan_word r4) as [[o2 r5]|] eqn:E5; [|discriminate]. cbn in H.
  destruct (at_end r5); [|discriminate]. injection H as <- <- <- <-.
  repeat split; try (eapply scan_word_word; eassumption).
  all: try (eapply scan_word_word in E1; apply E1).
  all: try (eapply scan_word_word in E3; apply E3).
  all: try (eapply scan_word_word in E5; apply E5).
  unfold scan_char in E4. destruct (lstrip r3) as [|c r]; [discriminate|].
  destruct (is_operator c) eqn:Ec; [|discriminate]. injection E4 as <- <-. exact Ec.
Qed.

(** *** Multiplication *)

Lemma solid_end_nop : solid_end "nop".
Proof. split; [reflexivity | discriminate]. Qed.

Ltac solid_tail :=
  rewrite <- ?str_app_assoc; apply solid_end_app;
  first [ eapply numeral_solid, numeral_pretty
        | apply word_solid; assumption ].

Section Lowering.
Variables (dest reg : string).
Hypotheses (Hdest : word dest) (Hreg : word reg).

Definition move_line : string := "move      " +:+ dest +:+ "," +:+ reg.
Definition add_line : string := "add       " +:+ dest +:+ "," +:+ reg +:+ "," +:+ dest.

(** The six lines of a multiplication written as a loop. *)
Definition loop_lines (count mult_loop_index : Z) : list string :=
  [move_line;
   "move      R1," +:+ pretty count;
   "loop_mult" +:+ pretty mult_loop_index +:+ ":";
   add_line;
   "nop";
   "loop     R1,@loop_mult" +:+ pretty mult_loop_index].

Lemma solid_unrolled (k : nat) : Forall solid_end (move_line :: replicate k add_line).
Proof.
  constructor; [unfold move_line; solid_tail|].
  apply Forall_replicate. unfold add_line. solid_tail.
Qed.

Lemma solid_loop_lines (count idx : Z) : Forall solid_end (loop_lines count idx).
Proof.
  unfold loop_lines, move_line, add_line.
  repeat (constructor; [first [apply solid_end_nop | solid_tail
                              | rewrite <- ?str_app_assoc; apply solid_end_app;
                                split; [reflexivity | discriminate] ]|]).
  constructor.
Qed.

End Lowering.

(** What [operator2q1asm] returns on [dest = reg * count]. *)
Lemma operator2q1asm_mult (line dest reg count : string) (c idx : Z) :
  match_operator line = Some (dest, reg, "*"%char, count) ->
  startswith "R" reg = true ->
  startswith "R" count = false ->
  streq reg dest = false ->
  Py.int count = Ok c ->
  operator2q1asm line (Some idx) =
  if c - 1 <? 0 then Raise NotImplementedError
  else if c - 1 <? 5
       then Ok (move_line dest reg :: replicate (Z.to_nat (c - 1)) (add_line dest reg), Some idx)
       else Ok (loop_lines dest reg (c - 1) idx, Some (idx + 1)).
Proof.
  intros Hm Hreg Hcount Hne Hint.
  destruct (match_operator_words _ _ _ _ _ Hm) as (Wd & Wr & _ & _).
  unfold operator2q1asm. rewrite Hm. cbn [or_raise bind].
  change (Ascii.eqb "*" "+" || Ascii.eqb "*" "-") with false.
  change (Ascii.eqb "*" "*") with true. cbv iota.
  unfold not_register. rewrite Hreg, Hcount. cbn [negb andb].
  rewrite Hne, Hint. cbn [bind].
  destruct (c - 1 <? 0); [reflexivity|].
  destruct (c - 1 <? 5).
  - unfold add_lines. change ("move      " +:+ dest +:+ "," +:+ reg) with (move_line dest reg).
    change ("add       " +:+ dest +:+ "," +:+ reg +:+ "," +:+ dest) with (add_line dest reg).
    change ([move_line dest reg] ++ ?l) with (move_line dest reg :: l).
    rewrite rstrip_lines_solid by (apply solid_unrolled; assumption). reflexivity.
  - cbn [or_raise bind pretty_index app].
    change (rstrip_lines _) with (rstrip_lines (loop_lines dest reg (c - 1) idx)).
    rewrite rstrip_lines_solid by (apply solid_loop_lines; assumption). reflexivity.
Qed.

Definition loop_label (mult_loop_index : Z) : string :=
  "loop_mult" +:+ pretty mult_loop_index +:+ ":".

(** A lowering either leaves the index alone, or it is a multiplication
    written as the loop labelled by the index, and returns the next index. *)
Lemma operator2q1asm_loop (line : string) (idx : Z) (lines : list string) (i : option Z) :
  operator2q1asm line (Some idx) = Ok (lines, i) ->
  i = Some idx \/
  (i = Some (idx + 1) /\
   exists dest reg c, 5 <= c /\ lines = loop_lines dest reg c idx).
Proof.
  unfold operator2q1asm.
  destruct (match_operator line) as [[[[dest op1] operator] op2]|] eqn:Hm;
    [|discriminate].
  destruct (match_operator_words _ _ _ _ _ Hm) as (Wd & W1 & W2 & _).
  cbv beta iota delta [or_raise bind]. intros H.
  destruct (Ascii.eqb operator "+" || Ascii.eqb operator "-").
  { ok_steps; left; reflexivity. }
  destruct (Ascii.eqb operator "*"); [|discriminate].
  destruct (not_register op1 && not_register op2); [discriminate|].
  destruct (negb (not_register op1) && negb (not_register op2)); [discriminate|].
  assert ((if negb (not_register op1) then (op1, op2) else (op1, op2)) = (op1, op2)) as E
    by (destruct (negb (not_register op1)); reflexivity).
  rewrite E in H. cbv iota beta in H.
  destruct (streq op1 dest); [discriminate|].
  destruct (Py.int op2) as [a|]; [|discriminate]. cbv beta iota zeta in H.
  destruct (a - 1 <? 0); [discriminate|].
  destruct (a - 1 <? 5) eqn:E5.
  - injection H as _ <-. left. reflexivity.
  - cbv beta iota delta [pretty_index] in H.
    change ([?x] ++ ?l) with (x :: l) in H.
    change (rstrip_lines _) with (rstrip_lines (loop_lines dest op1 (a - 1) idx)) in H.
    rewrite rstrip_lines_solid in H by (apply solid_loop_lines; assumption).
    injection H as <- <-.
    right. split; [reflexivity|].
    exists dest, op1, (a - 1). split; [lia | reflexivity].
Qed.

Section Program.
Context {FP : FloatParse}.

Lemma convert_line_loop (idx : Z) (line : string) (lines : list string) (idx' : Z) :
  convert_line idx line = Ok (lines, idx') ->
  idx' = idx \/
  (idx' = idx + 1 /\ exists dest reg c, 5 <= c /\ lines = loop_lines dest reg c idx).
Proof.
  unfold convert_line. intros H.
  repeat match goal with
  | H : operator2q1asm _ _ = Ok _ |- _ =>
      apply operator2q1asm_loop in H; destruct H as [-> | [-> ?]]
  | _ => ok_step; cbv beta iota zeta in *
  end;
  cbn [default]; auto.
Qed.

(** The lines written for a program when the loops are numbered from [k],
    and the labels of these loops.  A line whose conversion leaves
    [mult_loop_index] alone gives its lines and no label; a multiplication
    written as a loop gives the six lines of the loop that carries the label
    [loop_mult<k>:], and the loops after it are numbered from [k + 1]. *)
Inductive numbered_from : Z -> list string -> list string -> list string -> Prop :=
| numbered_end (k : Z) : numbered_from k [] [] []
| numbered_plain (k : Z) (line : string) (lines prog out labels : list string) :
    convert_line k line = Ok (lines, k) ->
    numbered_from k prog out labels ->
    numbered_from k (line :: prog) (lines ++ out) labels
| numbered_loop (k : Z) (line dest reg : string) (c : Z) (prog out labels : list string) :
    convert_line k line = Ok (loop_lines dest reg c k, k + 1) ->
    5 <= c ->
    numbered_from (k + 1) prog out labels ->
    numbered_from k (line :: prog) (loop_lines dest reg c k ++ out)
                  (loop_label k :: labels).

Lemma convert_lines_numbered (prog : list string) : forall (k : Z) (out : list string),
  convert_lines k prog = Ok out ->
  exists labels,
    numbered_from k prog out labels
    /\ labels = (fun j : nat => loop_label (k + Z.of_nat j)) <$> seq 0 (length labels).
Proof.
  induction prog as [|line prog IH]; intros k out H; cbn [convert_lines] in H.
  - injection H as <-. exists []. split; [constructor | reflexivity].
  - inv_bind H. destruct a as [lines k']. inv_bind H. injection H as <-.
    destruct (IH _ _ Ha0) as (labels & Hn & Hl).
    pose proof (convert_line_loop _ _ _ _ Ha) as [-> | (-> & dest & reg & c & Hc & ->)].
    + exists labels. split; [|exact Hl]. constructor; assumption.
    + exists (loop_label k :: labels). split; [constructor; assumption|].
      cbn [length seq fmap list_fmap]. rewrite Z.add_0_r. f_equal.
      change (list_fmap nat string ?f ?l) with (f <$> l).
      rewrite <- fmap_S_seq, <- list_fmap_compose.
      etrans; [exact Hl|].
      apply list_fmap_ext. intros _ j _. cbn. unfold loop_label. do 3 f_equal. lia.
Qed.

End Program.

Lemma loop_label_inj (i j : Z) : loop_label i = loop_label j -> i = j.
Proof.
  unfold loop_label. intros H. apply (inj (String.app "loop_mult")) in H.
  assert (forall a b : string, a +:+ ":" = b +:+ ":" -> a = b) as Hinj.
  { induction a as [|x a IHa]; intros [|y b] E; try reflexivity.
    - rewrite str_app_nil_l, str_app_cons in E. injection E as <- E.
      destruct b; discriminate E.
    - rewrite str_app_nil_l, str_app_cons in E. injection E as -> E.
      destruct a; discriminate E.
    - rewrite !str_app_cons in E. injection E as -> E. f_equal. auto. }
  apply Hinj in H. apply (inj pretty) in H. exact H.
Qed.

Lemma NoDup_loop_labels (n : nat) :
  NoDup ((fun j : nat => loop_label (Z.of_nat j)) <$> seq 0 n).
Proof.
  apply NoDup_fmap_2; [|apply NoDup_seq].
  intros i j H. apply loop_label_inj in H. lia.
Qed.

(** C2, as amended. In the lowering of [dest = reg * count], a count from
    1 to 5 is written as the copy followed by [count - 1] additions, and a
    count of 6 or more as the copy followed by a counted loop of [count - 1]
    iterations around one addition.  In the program that
    [simple_convert_q1asm] returns, the multiplications written as loops carry
    the labels [loop_mult0:], [loop_mult1:], ... in this order, each the
    current [mult_loop_index], and no two of them the same. *)
Theorem multiplication_lowering :
  (forall (line dest reg count : string) (c idx : Z),
     match_operator line = Some (dest, reg, "*"%char, count) ->
     startswith "R" reg = true -> startswith "R" count = false ->
     streq reg dest = false -> Py.int count = Ok c ->
     (1 <= c <= 5 ->
      operator2q1asm line (Some idx)
      = Ok (move_line dest reg :: replicate (Z.to_nat (c - 1)) (add_line dest reg),
            Some idx)) /\
     (6 <= c ->
      operator2q1asm line (Some idx)
      = Ok ([move_line dest reg;
             "move      R1," +:+ pretty (c - 1);
             "loop_mult" +:+ pretty idx +:+ ":";
             add_line dest reg;
             "nop";
             "loop     R1,@loop_mult" +:+ pretty idx],
            Some (idx + 1)))) /\
  (forall (FP : FloatParse) (prog out : list string),
     simple_convert_q1asm prog = Ok out ->
     exists labels : list string,
       numbered_from 0 prog out labels
       /\ labels = (fun k : nat => "loop_mult" +:+ pretty (Z.of_nat k) +:+ ":")
                   <$> seq 0 (length labels)
       /\ NoDup labels) /\
  (forall i j : Z,
     "loop_mult" +:+ pretty i +:+ ":" = "loop_mult" +:+ pretty j +:+ ":" -> i = j).
Proof.
  split; [|split].
  - intros line dest reg count c idx Hm Hreg Hcount Hne Hint.
    pose proof (operator2q1asm_mult line dest reg count c idx Hm Hreg Hcount Hne Hint) as H.
    split; intros Hc; rewrite H.
    + replace (c - 1 <? 0) with false by lia. replace (c - 1 <? 5) with true by lia.
      reflexivity.
    + replace (c - 1 <? 0) with false by lia. replace (c - 1 <? 5) with false by lia.
      reflexivity.
  - intros FP prog out H. unfold simple_convert_q1asm in H.
    destruct (convert_lines_numbered _ _ _ H) as (labels & Hn & Hl).
    exists labels. split; [exact Hn|].
    assert (labels = (fun j : nat => loop_label (Z.of_nat j)) <$> seq 0 (length labels)) as E.
    { etrans; [exact Hl|]. apply list_fmap_ext. intros _ j _. f_equal. }
    split; [exact E|]. rewrite E. apply NoDup_loop_labels.
  - exact loop_label_inj.
Qed.

(** C2, the claim as stated fails at 5 and on the loop count: a count of 5
    is unrolled into four additions, and a count of 6 loops 5 times. *)
Lemma multiplication_by_5_is_unrolled :
  operator2q1asm "R11 = R2 * 5" (Some 0)
  = Ok (["move      R11,R2"; "add       R11,R2,R11"; "add       R11,R2,R11";
         "add       R11,R2,R11"; "add       R11,R2,R11"], Some 0) /\
  operator2q1asm "R11 = R2 * 6" (Some 0)
  = Ok (["move      R11,R2"; "move      R1,5"; "loop_mult0:"; "add       R11,R2,R11";
         "nop"; "loop     R1,@loop_mult0"], Some 1).
Proof. split; vm_compute; reflexivity. Qed.

(** Two multiplications in one program: the loops are [loop_mult0] and
    [loop_mult1]. *)
Lemma two_loops_in_one_program (FP : FloatParse) :
  simple_convert_q1asm ["R11 = R2 * 6"; "wait 4 # between"; "R12 = R3 * 7"]
  = Ok ["move      R11,R2"; "move      R1,5"; "loop_mult0:"; "add       R11,R2,R11";
        "nop"; "loop     R1,@loop_mult0";
        "wait 4";
        "move      R12,R3"; "move      R1,6"; "loop_mult1:"; "add       R12,R3,R12";
        "nop"; "loop     R1,@loop_mult1"].
Proof. vm_compute. reflexivity. Qed.

(** The amended statement applies to [R11 = R2 * 3], and to the program of
    the two multiplications. *)
Lemma multiplication_lowering_witness :
  operator2q1asm "R11 = R2 * 3" (Some 0)
  = Ok (["move      R11,R2"; "add       R11,R2,R11"; "add       R11,R2,R11"], Some 0)
  /\ forall FP : FloatParse,
       exists labels : list string,
         numbered_from 0
           ["R11 = R2 * 6"; "wait 4 # between"; "R12 = R3 * 7"]
           ["move      R11,R2"; "move      R1,5"; "loop_mult0:"; "add       R11,R2,R11";
            "nop"; "loop     R1,@loop_mult0";
            "wait 4";
            "move      R12,R3"; "move      R1,6"; "loop_mult1:"; "add       R12,R3,R12";
            "nop"; "loop     R1,@loop_mult1"]
           labels
         /\ labels = (fun k : nat => "loop_mult" +:+ pretty (Z.of_nat k) +:+ ":")
                     <$> seq 0 (length labels)
         /\ NoDup labels.
Proof.
  split.
  - refine (proj1 (proj1 multiplication_lowering "R11 = R2 * 3" "R11" "R2" "3" 3 0 _ _ _ _ _) _);
      first [ reflexivity | lia ].
  - intros FP.
    apply (proj1 (proj2 multiplication_lowering) FP _ _ (two_loops_in_one_program FP)).
Defined.

End SimpleFacts.

(** * Further properties of the code *)

(** ** Binary64 samples *)

Module Binary64.

(** Samples as binary64 numbers.  [10 ** x] is the [pow] of the C library,
    which the primitive floats do not have: it is given at [0] only, the
    exponent of the default gain. *)
#[export] Instance binary64 : FloatOps := {|
  flt := float;
  flt_of_int := PyFloat.of_Z;
  flt_eqb := PrimFloat.eqb;
  flt_mul := PrimFloat.mul;
  flt_add := PrimFloat.add;
  flt_truediv a b := PrimFloat.div (PyFloat.of_Z a) (PyFloat.of_Z b);
  flt_pow10 x := if PrimFloat.eqb x 0%float then Ok 1%float else Raise NotImplementedError;
  flt_phase n :=
    PrimFloat.mul (PrimFloat.div (PrimFloat.mul (PyFloat.of_Z n) 360%float) 1e9%float)
                  0.017453292519943295%float
|}.

End Binary64.

Module TimelineFacts.
Import Emu.
Section Facts.
Context {FO : FloatOps}.

(** What the timeline of a state is made of: the clock, the length of the
    phase stream and the times of the markers. *)
Definition view (s : state) : Z * nat * list Z :=
  (timing s, length (nco_phase_stream s), fst <$> markers s).

(** Times in chronological order. *)
Fixpoint chronological (ts : list Z) : Prop :=
  match ts with
  | [] => True
  | t :: rest => Forall (fun t' => t <= t') rest /\ chronological rest
  end.

Definition timeline_ok (v : Z * nat * list Z) : Prop :=
  let '(t, n, ms) := v in
  Z.of_nat n = t /\ chronological ms /\ Forall (fun m => 0 <= m <= t) ms.

Definition timeline (s : state) : Prop := timeline_ok (view s).

Lemma chronological_snoc (ts : list Z) (t : Z) :
  chronological ts -> Forall (fun m => m <= t) ts -> chronological (ts ++ [t]).
Proof.
  induction ts as [|x ts IH]; cbn [app chronological]; intros H Hle.
  - split; constructor.
  - destruct H as [Hx Hts]. inversion Hle as [|? ? Hxt Hle']; subst. split.
    + apply Forall_app. split; [exact Hx | constructor; [exact Hxt | constructor]].
    + apply IH; assumption.
Qed.

Lemma timeline_view (s s' : state) : view s' = view s -> timeline s -> timeline s'.
Proof. unfold timeline. intros ->. auto. Qed.

Lemma timeline_append_marker (s : state) : timeline s -> timeline (append_marker s).
Proof.
  unfold timeline, view. cbn [append_marker timing nco_phase_stream markers timeline_ok].
  intros (H1 & H2 & H3). rewrite fmap_app. cbn [fmap list_fmap fst].
  assert (0 <= timing s) as Hpos by lia.
  split; [exact H1|]. split.
  - apply chronological_snoc; [exact H2|].
    eapply Forall_impl; [exact H3|]. cbn. intros; lia.
  - apply Forall_app. split; [exact H3|]. constructor; [lia | constructor].
Qed.

Lemma timeline_tick (G_I G_Q : flt) (s s' : state) :
  tick G_I G_Q s = Ok s' -> timeline s -> timeline s'.
Proof.
  unfold tick. intros H (H1 & H2 & H3).
  assert (view s' = (timing s + 1, S (length (nco_phase_stream s)), fst <$> markers s)) as E.
  { ok_steps; unfold view; cbn [record_sample timing nco_phase_stream markers];
      rewrite length_app; cbn [length]; repeat f_equal; lia. }
  unfold timeline. rewrite E. cbn [timeline_ok]. split; [lia|]. split; [exact H2|].
  eapply Forall_impl; [exact H3|]. cbn. intros; lia.
Qed.

Lemma timeline_ticks (n : nat) : forall (G_I G_Q : flt) (s s' : state),
  ticks n G_I G_Q s = Ok s' -> timeline s -> timeline s'.
Proof.
  induction n as [|n IH]; cbn [ticks]; intros G_I G_Q s s' H Hs.
  - injection H as <-. exact Hs.
  - inv_bind H. eapply IH; [exact H|]. eapply timeline_tick; eassumption.
Qed.

Lemma timeline_advance_time (duration : Z) (s s' : state) :
  advance_time duration s = Ok s' -> timeline s -> timeline s'.
Proof.
  unfold advance_time. intros H. do 2 inv_bind H. eapply timeline_ticks; exact H.
Qed.

Ltac solve_before Hs :=
  match type of Hs with
  | timeline ?s =>
      first [ exact Hs
            | apply (timeline_view s); [reflexivity | exact Hs]
            | apply (timeline_view (append_marker s));
              [reflexivity | apply timeline_append_marker, Hs] ]
  end.

Ltac solve_timeline :=
  match goal with
  | H : advance_time _ _ = Ok ?a, Hs : timeline _ |- timeline _ =>
      apply (timeline_view a); [reflexivity|];
      apply (timeline_advance_time _ _ _ H); solve_before Hs
  | Hs : timeline _ |- timeline _ => solve_before Hs
  end.

Lemma exec_timeline instruction parts numbers s s' b :
  exec instruction parts numbers s = Ok (s', b) -> timeline s -> timeline s'.
Proof.
  unfold exec. intros H Hs.
  ok_steps; solve_timeline.
Qed.

Lemma step_line_timeline line s s' b :
  step_line line s = Ok (s', b) -> timeline s -> timeline s'.
Proof.
  unfold step_line. intros H Hs.
  repeat match goal with
  | H : exec _ _ _ _ = Ok _ |- _ =>
      apply exec_timeline in H; [exact H | solve_timeline]
  | _ => ok_step; cbv beta iota zeta in *
  end; solve_timeline.
Qed.

Lemma steps_timeline lines n : forall s,
  timeline s ->
  match steps n lines s with
  | Running s' | Halted s' => timeline s'
  | Failed _ => True
  end.
Proof.
  induction n as [|n IH]; intros s Hs; cbn [steps]; [exact Hs|].
  unfold step. destruct (nth_error lines (pc s)) as [line|]; [|exact Hs].
  destruct (step_line line s) as [[s' []]|e] eqn:H; [| |exact I].
  - eapply step_line_timeline; eauto.
  - apply IH. eapply step_line_timeline; eauto.
Qed.

Lemma init_timeline sq s : init sq = Ok s -> timeline s.
Proof.
  unfold init. intros H. ok_steps. unfold timeline, view. cbn.
  repeat split; repeat constructor; lia.
Qed.

(** X10. In every state that the execution loop reaches the phase stream
    has one value per time step elapsed, and the clock is not negative. *)
Theorem phase_stream_follows_the_clock (sq : sequence) (fuel : nat) :
  match emulate fuel sq with
  | Running s | Halted s =>
      Z.of_nat (length (nco_phase_stream s)) = timing s /\ 0 <= timing s
  | Failed _ => True
  end.
Proof.
  unfold emulate. destruct (init sq) as [s0|e] eqn:Hinit; [|exact I].
  pose proof (steps_timeline (program sq) fuel s0 (init_timeline _ _ Hinit)) as H.
  destruct (steps fuel (program sq) s0) as [s|s|]; [| |exact I];
    destruct H as (H1 & _ & _); unfold view in *; split; try exact H1; lia.
Qed.

(** X11. The marker timeline is chronological: in every state that the
    execution loop reaches, the times of the recorded markers never decrease
    along the list, and each lies between 0 and the clock. *)
Theorem markers_are_chronological (sq : sequence) (fuel : nat) :
  match emulate fuel sq with
  | Running s | Halted s =>
      chronological (fst <$> markers s)
      /\ Forall (fun m : Z * Z => 0 <= m.1 <= timing s) (markers s)
  | Failed _ => True
  end.
Proof.
  unfold emulate. destruct (init sq) as [s0|e] eqn:Hinit; [|exact I].
  pose proof (steps_timeline (program sq) fuel s0 (init_timeline _ _ Hinit)) as H.
  destruct (steps fuel (program sq) s0) as [s|s|]; [| |exact I];
    destruct H as (_ & H2 & H3); (split; [exact H2|]);
    apply Forall_fmap in H3; exact H3.
Qed.

(** *** Instructions on registers *)

(** X12. A shift skips the line that follows it: [asl] and [asr] store the
    shifted value and move the program counter by two lines, where [add]
    moves it by one. *)
Theorem a_shift_skips_the_next_line (src imm dst : string) (k : Z) (rest : list Z)
    (s : state) :
  exec "asl" ["asl"; src; imm; dst] (k :: rest) s
  = (let* a := reg_at s src in
     let* v := shl a k in
     Ok (set_pc (S (S (pc s))) (set_registers (insert dst v) s), false))
  /\ exec "asr" ["asr"; src; imm; dst] (k :: rest) s
  = (let* a := reg_at s src in
     let* v := shr a k in
     Ok (set_pc (S (S (pc s))) (set_registers (insert dst v) s), false))
  /\ exec "add" ["add"; src; imm; dst] (k :: rest) s
  = Ok (set_pc (S (pc s)) (set_registers (insert dst (reg_get s src + k)) s), false).
Proof.
  repeat split.
  - unfold exec. cbn [Py.streq String.eqb Ascii.eqb Bool.eqb Py.index nth_error or_raise bind].
    destruct (reg_at s src) as [a|]; [|reflexivity]. cbn [bind].
    destruct (shl a k) as [v|]; reflexivity.
  - unfold exec. cbn [Py.streq String.eqb Ascii.eqb Bool.eqb Py.index nth_error or_raise bind].
    destruct (reg_at s src) as [a|]; [|reflexivity]. cbn [bind].
    destruct (shr a k) as [v|]; reflexivity.
Qed.

(** X13. Only [move] guards the size of the register file: with the 64
    registers in place, a [move] into a register of another name is refused,
    and an [add] into the same register goes through and creates it. *)
Theorem only_move_guards_the_register_file (imm dst src : string) (n : Z) (rest : list Z)
    (s : state) :
  size (registers s) = 64%nat -> registers s !! dst = None -> n <= 2 ^ 32 - 1 ->
  exec "move" ["move"; imm; dst] (n :: rest) s
  = Raise (Exception "Registar locations only in range 0 to 63")
  /\ exists s', exec "add" ["add"; src; imm; dst] (n :: rest) s = Ok (s', false)
                /\ size (registers s') = 65%nat.
Proof.
  intros Hsize Hdst Hn.
  assert (size (<[dst := n]> (registers s)) = 65%nat) as H65.
  { rewrite map_size_insert_None by exact Hdst. rewrite Hsize. reflexivity. }
  split.
  - unfold exec. cbn [Py.streq String.eqb Ascii.eqb Bool.eqb Py.index nth_error or_raise bind].
    replace (n >? 2 ^ 32 - 1) with false by lia.
    cbn [set_registers registers]. rewrite H65. reflexivity.
  - eexists. split; [reflexivity|]. cbn [next set_pc set_registers registers].
    rewrite map_size_insert_None by exact Hdst. rewrite Hsize. reflexivity.
Qed.

End Facts.

(** The attributes of an emulator before its first instruction. *)
Definition blank : state (FO := Binary64.binary64) :=
  {| registers := initial_registers;
     awg_gain_I := 0; awg_gain_Q := 0;
     nco_phase := flt_of_int 0; nco_phase_stream := [];
     awg_offset_I := 0; awg_offset_Q := 0;
     timing := 0; acquire := false; acquisitions := ∅;
     acquisition_channel := None; index_to_aquisitions := ∅;
     acquisition_bin := None; waveforms := ∅;
     markers := [(0, 0)]; marker_state := 0; labels := ∅;
     out_I := []; out_Q := [];
     current_i_waveform := None; current_q_waveform := None;
     current_i_start_time := 0; current_q_start_time := 0;
     index_to_name := ∅; pc := 0%nat |}.

Lemma only_move_guards_the_register_file_witness :
  exec "move" ["move"; "7"; "R64"] [7] blank
  = Raise (Exception "Registar locations only in range 0 to 63").
Proof.
  apply (only_move_guards_the_register_file "7" "R64" "R0" 7 [] blank).
  - vm_compute. reflexivity.
  - vm_compute. reflexivity.
  - vm_compute. congruence.
Defined.

End TimelineFacts.

Module WaveformFacts.
Import Py StringFacts Esr.

Section Store.
Context {FO : FloatOps}.

(** *** Dictionaries *)

Lemma streq_refl (k : string) : streq k k = true.
Proof. apply String.eqb_refl. Qed.

Lemma dict_get_set_eq {V : Type} (items : list (string * V)) (k : string) (v : V) :
  dict_get (dict_set items k v) k = Some v.
Proof.
  induction items as [|[k' v'] items IH]; cbn [dict_set dict_get].
  - rewrite streq_refl. reflexivity.
  - destruct (streq k' k) eqn:E; cbn [dict_get]; rewrite E; [reflexivity | exact IH].
Qed.

Lemma dict_get_set_ne {V : Type} (items : list (string * V)) (k k0 : string) (v : V) :
  streq k k0 = false -> dict_get (dict_set items k v) k0 = dict_get items k0.
Proof.
  intros Hne. induction items as [|[k' v'] items IH]; cbn [dict_set dict_get].
  - rewrite Hne. reflexivity.
  - destruct (streq k' k) eqn:E; cbn [dict_get].
    + apply String.eqb_eq in E. subst k'. rewrite Hne. reflexivity.
    + destruct (streq k' k0); [reflexivity | exact IH].
Qed.

Lemma Forall_dict_set {V : Type} (P : string * V -> Prop) (items : list (string * V))
    (k : string) (v : V) :
  Forall P items -> (forall k', P (k', v)) -> Forall P (dict_set items k v).
Proof.
  intros H Hv. induction H as [|[k' v'] items Hx Hrest IH]; cbn [dict_set].
  - constructor; [apply Hv | constructor].
  - destruct (streq k' k); constructor; auto.
Qed.

Lemma dict_get_Forall {V : Type} (P : string * V -> Prop) (items : list (string * V))
    (k : string) (v : V) :
  Forall P items -> dict_get items k = Some v -> exists k', P (k', v).
Proof.
  induction 1 as [|[k' v'] items Hx _ IH]; cbn [dict_get]; [discriminate|].
  destruct (streq k' k); [intros [= <-]; eauto | exact IH].
Qed.

(** *** Allocation *)

Lemma fresh_entry (h : heap) : entries h !! fresh (dom (entries h)) = None.
Proof. apply not_elem_of_dom, is_fresh. Qed.

Lemma fresh_dict (h : heap) : dicts h !! fresh (dom (dicts h)) = None.
Proof. apply not_elem_of_dom, is_fresh. Qed.

Lemma subseteq_None {V : Type} (m1 m2 : gmap loc V) (l : loc) :
  m1 ⊆ m2 -> m2 !! l = None -> m1 !! l = None.
Proof.
  intros Hsub H2. destruct (m1 !! l) as [v|] eqn:E; [|reflexivity].
  rewrite (lookup_weaken _ _ _ _ E Hsub) in H2. discriminate.
Qed.

(** The objects of [h0] are all in [h], unchanged. *)
Definition extends (h0 h : heap) : Prop :=
  dicts h0 ⊆ dicts h /\ entries h0 ⊆ entries h.

Lemma extends_refl (h : heap) : extends h h.
Proof. split; reflexivity. Qed.

Lemma extends_alloc_entry (h0 h : heap) (w : wfm) :
  extends h0 h ->
  extends h0 (fst (alloc_entry h w)) /\ entries h0 !! snd (alloc_entry h w) = None.
Proof.
  intros [Hd He]. unfold alloc_entry. cbn [fst snd]. repeat split; cbn [dicts entries].
  - exact Hd.
  - etrans; [exact He|]. apply insert_subseteq, fresh_entry.
  - apply (subseteq_None _ _ _ He), fresh_entry.
Qed.

Lemma extends_write_entry (h0 h : heap) (l : loc) (w : wfm) :
  extends h0 h -> entries h0 !! l = None -> extends h0 (write_entry h l w).
Proof.
  intros [Hd He] Hl. split; cbn [write_entry dicts entries]; [exact Hd|].
  apply insert_subseteq_r; assumption.
Qed.

Lemma extends_write_dict (h0 h : heap) (r : loc) (items : list (string * loc)) :
  extends h0 h -> dicts h0 !! r = None -> extends h0 (write_dict h r items).
Proof.
  intros [Hd He] Hr. split; cbn [write_dict dicts entries]; [|exact He].
  apply insert_subseteq_r; assumption.
Qed.

(** Every entry of a table is an object that [h0] does not have. *)
Definition all_new (h0 : heap) (items : list (string * loc)) : Prop :=
  Forall (fun kl : string * loc => entries h0 !! kl.2 = None) items.

Lemma deepcopy_items_new (h0 : heap) (items : list (string * loc)) :
  forall (h : heap) (memo : gmap loc loc) (h' : heap) (items' : list (string * loc)),
  deepcopy_items h memo items = Ok (h', items') ->
  extends h0 h ->
  (forall l l', memo !! l = Some l' -> entries h0 !! l' = None) ->
  extends h0 h' /\ all_new h0 items'.
Proof.
  induction items as [|[k l] items IH]; intros h memo h' items' H Hext Hmemo.
  - injection H as <- <-. split; [exact Hext | constructor].
  - cbn [deepcopy_items] in H. destruct (memo !! l) as [l'|] eqn:El.
    + inv_bind H. destruct a as [h1 rest']. injection H as <- <-.
      destruct (IH _ _ _ _ Ha Hext Hmemo) as [H1 H2].
      split; [exact H1|]. constructor; [exact (Hmemo _ _ El) | exact H2].
    + inv_bind H. cbv beta iota zeta in H.
      destruct (extends_alloc_entry h0 h a Hext) as [Hext' Hnew].
      destruct (alloc_entry h a) as [h1 l1] eqn:Ea. cbn [fst snd] in Hext', Hnew.
      inv_bind H. destruct a0 as [h2 rest']. injection H as <- <-.
      assert (forall x x', <[l := l1]> memo !! x = Some x' -> entries h0 !! x' = None)
        as Hmemo'.
      { intros x x' Hx. destruct (decide (x = l)) as [->|Hne].
        - rewrite lookup_insert_eq in Hx. injection Hx as <-. exact Hnew.
        - rewrite lookup_insert_ne in Hx by congruence. exact (Hmemo _ _ Hx). }
      destruct (IH _ _ _ _ Ha0 Hext' Hmemo') as [H1 H2].
      split; [exact H1|]. constructor; [exact Hnew | exact H2].
Qed.

(** What the second loop of the pass keeps true of the store. *)
Definition copy_at (h0 : heap) (wfms : loc) (h : heap) : Prop :=
  extends h0 h /\ dicts h0 !! wfms = None
  /\ exists items, dicts h !! wfms = Some items /\ all_new h0 items.

Lemma deepcopy_copy_at (h h' : heap) (r wfms : loc) :
  deepcopy h r = Ok (h', wfms) -> copy_at h wfms h'.
Proof.
  unfold deepcopy. intros H. inv_bind H. inv_bind H. destruct a0 as [h1 items'].
  destruct (deepcopy_items_new h _ _ _ _ _ Ha0 (extends_refl h)) as [[Hd He] Hnew].
  { intros l l' Hl. rewrite lookup_empty in Hl. discriminate. }
  unfold alloc_dict in H. injection H as <- <-.
  assert (dicts h !! fresh (dom (dicts h1)) = None) as Hfresh.
  { apply (subseteq_None _ _ _ Hd), fresh_dict. }
  repeat split; cbn [dicts entries].
  - apply insert_subseteq_r; assumption.
  - exact He.
  - exact Hfresh.
  - exists items'. split; [apply lookup_insert_eq | exact Hnew].
Qed.

Lemma fold_waveform_copy_at (h0 : heap) (wfms : loc) (step : Z) (st st' : fold_state)
    (name : string) :
  fold_waveform wfms step st name = Ok st' ->
  copy_at h0 wfms (fs_heap st) -> copy_at h0 wfms (fs_heap st').
Proof.
  unfold fold_waveform. intros H (Hext & Hw & items0 & Hitems0 & Hnew0).
  cbv beta iota zeta in H.
  inv_bind H. rename a into items.
  assert (items = items0) as ->.
  { unfold dict_at in Ha. rewrite Hitems0 in Ha. injection Ha as <-. reflexivity. }
  do 5 inv_bind H. apply bind_Ok in H. destruct H as (mid & Hm & H).
  assert (exists h1 nbl nbc items1,
             mid = (h1, nbl, nbc) /\ extends h0 h1
             /\ dicts h1 !! wfms = Some items1 /\ all_new h0 items1) as Hmid.
  { destruct (_ >? 0) in Hm.
    - destruct (_ <? 4) in Hm; cbv beta iota zeta in Hm; inv_bind Hm;
        match type of Hm with
        | context [alloc_entry ?h ?w] =>
            destruct (extends_alloc_entry h0 h w Hext) as [He1 Hn1];
            destruct (alloc_entry h w) as [h1 lc] eqn:Ea
        end; cbn [fst snd] in He1, Hn1; cbv beta iota zeta in Hm;
        injection Hm as <-;
        (eexists _, _, _, _; split; [reflexivity|]; split;
         [apply extends_write_dict; assumption|]; split;
         [apply lookup_insert_eq|]; apply Forall_dict_set; [exact Hnew0 | intros; exact Hn1]).
    - injection Hm as <-. eexists _, _, _, _. split; [reflexivity|]. eauto. }
  destruct Hmid as (h1 & nbl & nbc & items1 & -> & Hext1 & Hitems1 & Hnew1).
  cbv beta iota zeta in H. inv_bind H.
  match goal with p : (string * Z)%type |- _ => destruct p end.
  do 3 inv_bind H. injection H as <-. cbn [fs_heap].
  unfold dict_at in *.
  match goal with
  | Hx : or_raise SystemError (dicts h1 !! wfms) = Ok ?x |- _ =>
      rewrite Hitems1 in Hx; injection Hx as <-
  end.
  match goal with
  | Hx : or_raise KeyError (dict_get items1 name) = Ok ?l |- _ =>
      destruct (dict_get items1 name) as [l'|] eqn:El; [|discriminate Hx];
      injection Hx as <-
  end.
  destruct (dict_get_Forall _ _ _ _ Hnew1 El) as [k' Hl']. cbn [snd] in Hl'.
  split; [apply extends_write_entry; assumption|]. split; [exact Hw|].
  exists items1. split; [exact Hitems1 | exact Hnew1].
Qed.

Lemma fold_waveforms_copy_at (h0 : heap) (wfms : loc) (step : Z) (names : list string) :
  forall st st',
  fold_waveforms wfms step st names = Ok st' ->
  copy_at h0 wfms (fs_heap st) -> copy_at h0 wfms (fs_heap st').
Proof.
  induction names as [|name names IH]; intros st st' H Hc.
  - injection H as <-. exact Hc.
  - cbn [fold_waveforms] in H. inv_bind H.
    eapply IH; [exact H|]. eapply fold_waveform_copy_at; eassumption.
Qed.

(** The long-waveform pass leaves the store it was given as it was, the
    table of the caller included, and returns a table made by the call. *)
Lemma long_waveforms_copy (h h' : heap) (simple_prog prog : list string)
    (waveforms wfms : loc) (step : Z) :
  q1asm_transform_long_waveforms h simple_prog waveforms step = Ok (h', prog, wfms) ->
  dicts h ⊆ dicts h' /\ entries h ⊆ entries h'
  /\ dicts h !! wfms = None /\ is_Some (dicts h' !! wfms)
  /\ is_Some (dicts h !! waveforms).
Proof.
  unfold q1asm_transform_long_waveforms, fold_table. intros H.
  inv_bind H. destruct a as [[st w] names]. inv_bind Ha.
  destruct a as [hc wc]. cbv beta iota zeta in Ha. do 2 inv_bind Ha.
  match goal with p : (list string * gmap Z (string * Z))%type |- _ =>
    destruct p as [names' idxs] end.
  cbv beta iota zeta in Ha. inv_bind Ha. injection Ha as <- <- <-.
  match goal with
  | H1 : deepcopy h waveforms = Ok _, H2 : fold_waveforms _ _ _ _ = Ok ?s |- _ =>
      pose proof (fold_waveforms_copy_at h _ _ _ _ _ H2 (deepcopy_copy_at _ _ _ _ H1))
        as ([Hd He] & Hw & items & Hitems & _);
      assert (h' = fs_heap s /\ wfms = wc) as [-> ->];
      [|assert (is_Some (dicts h !! waveforms)) as Hsome]
  end.
  { cbv beta iota zeta in H.
    destruct names'; [injection H as <- _ <- | inv_bind H; injection H as <- _ <-];
      split; reflexivity. }
  { match goal with H1 : deepcopy h waveforms = Ok _ |- _ =>
      unfold deepcopy, dict_at in H1; destruct (dicts h !! waveforms); [eauto | discriminate H1]
    end. }
  repeat split; try assumption. exists items. exact Hitems.
Qed.

(** X1. The long-waveform pass works on a copy: every table and every entry
    that the store held before the call is there after it, unchanged, and the
    table returned is an object that did not exist before. *)
Theorem long_waveforms_works_on_a_copy (h h' : heap) (simple_prog prog : list string)
    (waveforms wfms : loc) (step : Z) :
  q1asm_transform_long_waveforms h simple_prog waveforms step = Ok (h', prog, wfms) ->
  dicts h ⊆ dicts h' /\ entries h ⊆ entries h'
  /\ dicts h !! wfms = None /\ is_Some (dicts h' !! wfms).
Proof.
  intros H. destruct (long_waveforms_copy _ _ _ _ _ _ _ H) as (Hd & He & Hnew & Hsome & _).
  repeat split; assumption.
Qed.


(** *** The arithmetic of one folded waveform *)

Lemma str_length_app (s t : string) :
  String.length (s +:+ t) = (String.length s + String.length t)%nat.
Proof.
  induction s as [|c s IH]; [rewrite str_app_nil_l; reflexivity|].
  rewrite str_app_cons. cbn [String.length]. rewrite IH. reflexivity.
Qed.

Lemma compl_name_differs (name : string) : streq (name +:+ "_compl") name = false.
Proof.
  apply String.eqb_neq. intros H. apply (f_equal String.length) in H.
  rewrite str_length_app in H. cbn [String.length] in H. lia.
Qed.

(** Whether the remainder of [n] samples by the step is too short for a
    waveform (1, 2 or 3 samples), as a number: one loop is then given up for
    the complementary waveform. *)
Definition shortfall (n : nat) (step : Z) : Z :=
  if (0 <? Z.of_nat n `mod` step) && (Z.of_nat n `mod` step <? 4) then 1 else 0.

(** One waveform folded, in any table. *)
Lemma fold_waveform_effect (wfms : loc) (step : Z) (st st' : fold_state)
    (name : string) (items : list (string * loc)) (l : loc) (w : wfm) :
  fold_waveform wfms step st name = Ok st' ->
  dicts (fs_heap st) !! wfms = Some items ->
  dict_get items name = Some l ->
  entries (fs_heap st) !! l = Some w ->
  24 <= step -> 3 * step < Z.of_nat (length (data w)) ->
  exists (nm : string) (nb_loop : Z) (items' : list (string * loc)) (w' : wfm),
    wfm_2loop_indexes st' !! index w = Some (nm, nb_loop)
    /\ (exists k0, wfm_2loop_indexes st !! index w = Some (nm, k0))
    /\ dicts (fs_heap st') !! wfms = Some items'
    /\ dict_get items' name = Some l
    /\ entries (fs_heap st') !! l = Some w'
    /\ data w' = take (Z.to_nat step) (data w) /\ index w' = index w
    /\ Z.of_nat (length (data w')) = step
    /\ 2 <= nb_loop
    /\ nb_loop = Z.of_nat (length (data w)) `div` step - shortfall (length (data w)) step
    /\ (Z.of_nat (length (data w)) `mod` step = 0 ->
        items' = items /\ nb_compl st' = nb_compl st
        /\ nb_loop * step = Z.of_nat (length (data w)))
    /\ (0 < Z.of_nat (length (data w)) `mod` step ->
        exists (lc : loc) (wc : wfm),
          dict_get items' (name +:+ "_compl") = Some lc
          /\ entries (fs_heap st') !! lc = Some wc
          /\ index wc = 1023 - nb_compl st /\ nb_compl st' = nb_compl st + 1
          /\ Z.of_nat (length (data wc))
             = Z.of_nat (length (data w)) `mod` step + shortfall (length (data w)) step * step
          /\ 4 <= Z.of_nat (length (data wc))
          /\ nb_loop * step + Z.of_nat (length (data wc)) = Z.of_nat (length (data w))).
Proof.
  intros H Hitems Hl Hw Hstep Hlen.
  set (n := Z.of_nat (length (data w))) in *.
  pose proof (Z.div_mod n step ltac:(lia)) as Hdm.
  pose proof (Z.mod_pos_bound n step ltac:(lia)) as Hmod.
  assert (3 <= n `div` step) as Hdiv by (apply Z.div_le_lower_bound; lia).
  assert (Z.of_nat (length (take (Z.to_nat step) (data w))) = step) as Htake.
  { rewrite length_take. unfold n in Hlen. lia. }
  unfold fold_waveform in H. cbv beta iota zeta in H.
  unfold dict_at, entry_at in H. rewrite Hitems in H. cbn [or_raise bind] in H.
  rewrite Hl in H. cbn [or_raise bind] in H. rewrite Hw in H. cbn [or_raise bind] in H.
  do 3 inv_bind H. fold n in H.
  destruct (n `mod` step >? 0) eqn:Epos.
  - (* a complementary waveform *)
    assert (exists cd nbl, (if n `mod` step <? 4
                            then (n `mod` step + step, n `div` step - 1)
                            else (n `mod` step, n `div` step)) = (cd, nbl)
                           /\ 4 <= cd <= n /\ 2 <= nbl /\ nbl * step + cd = n
                           /\ nbl = n `div` step - shortfall (length (data w)) step
                           /\ cd = n `mod` step + shortfall (length (data w)) step * step)
      as (cd & nbl & Eq & Hcd & Hnbl & Hsum & Hnv & Hcv).
    { unfold shortfall. fold n. replace (0 <? n `mod` step) with true by lia.
      destruct (n `mod` step <? 4) eqn:E4; cbn [andb];
        eexists _, _; (split; [reflexivity|]); nia. }
    rewrite Eq in H.
    cbv beta iota zeta in H. inv_bind H. inv_bind Ha2.
    pose proof (fresh_entry (fs_heap st)) as Hfresh.
    unfold alloc_entry in Ha2. cbv beta iota zeta in Ha2.
    set (lc := fresh (dom (entries (fs_heap st)))) in *.
    injection Ha2 as <-. cbv beta iota zeta in H.
    inv_bind H. destruct a2 as [nm k0]. cbn [write_dict dicts entries] in H.
    rewrite lookup_insert_eq in H. cbn [or_raise bind] in H.
    rewrite dict_get_set_ne in H by apply compl_name_differs.
    rewrite Hl in H. cbn [or_raise bind] in H.
    assert (l <> lc) as Hne by (intros ->; rewrite Hfresh in Hw; discriminate).
    rewrite lookup_insert_ne in H by congruence. rewrite Hw in H. cbn [or_raise bind] in H.
    injection H as <-. cbn [fs_heap wfm_2loop_indexes nb_compl write_entry dicts entries].
    eexists nm, nbl, _, _. split; [apply lookup_insert_eq|].
    split.
    { exists k0. destruct (wfm_2loop_indexes st !! index w) as [p|]; [|discriminate].
      cbn [or_raise] in *. congruence. }
    split; [apply lookup_insert_eq|].
    split; [rewrite dict_get_set_ne by apply compl_name_differs; exact Hl|].
    split; [apply lookup_insert_eq|].
    cbn [data index]. repeat split; try assumption; try lia.
    intros _. eexists lc, _. split; [apply dict_get_set_eq|].
    split; [rewrite lookup_insert_ne by congruence; apply lookup_insert_eq|].
    cbn [data index]. rewrite length_take. fold n. repeat split; try lia.
    all: unfold n in *; lia.
  - (* none *)
    cbn [bind] in H. inv_bind H. destruct a2 as [nm k0].
    rewrite Hitems in H. cbn [or_raise bind] in H. rewrite Hl in H. cbn [or_raise bind] in H.
    rewrite Hw in H. cbn [or_raise bind] in H. injection H as <-.
    cbn [fs_heap wfm_2loop_indexes nb_compl write_entry dicts entries].
    eexists nm, (n `div` step), items, _. split; [apply lookup_insert_eq|].
    split.
    { exists k0. destruct (wfm_2loop_indexes st !! index w) as [p|]; [|discriminate].
      cbn [or_raise] in *. congruence. }
    split; [exact Hitems|]. split; [exact Hl|]. split; [apply lookup_insert_eq|].
    cbn [data index]. repeat split; try assumption; try lia.
    unfold shortfall. fold n. replace (0 <? n `mod` step) with false by lia.
    cbn [andb]. lia.
Qed.

(** X2. One waveform folded: the waveform keeps its place and its index
    and is cut to [step] samples; the loop count recorded for its index and
    the length of the complementary waveform, when there is one, add up to
    the length the waveform had.  A complementary waveform is made exactly
    when the length is not a multiple of the step; it has at least 4
    samples and takes the index [1023 - nb_compl]. *)
Theorem fold_waveform_adds_up (wfms : loc) (step : Z) (st st' : fold_state)
    (name : string) (items : list (string * loc)) (l : loc) (w : wfm) :
  fold_waveform wfms step st name = Ok st' ->
  dicts (fs_heap st) !! wfms = Some items ->
  dict_get items name = Some l ->
  entries (fs_heap st) !! l = Some w ->
  24 <= step -> 3 * step < Z.of_nat (length (data w)) ->
  exists (nm : string) (nb_loop : Z) (items' : list (string * loc)) (w' : wfm),
    wfm_2loop_indexes st' !! index w = Some (nm, nb_loop)
    /\ dicts (fs_heap st') !! wfms = Some items'
    /\ dict_get items' name = Some l
    /\ entries (fs_heap st') !! l = Some w'
    /\ data w' = take (Z.to_nat step) (data w) /\ index w' = index w
    /\ Z.of_nat (length (data w')) = step
    /\ 2 <= nb_loop
    /\ (Z.of_nat (length (data w)) `mod` step = 0 ->
        items' = items /\ nb_compl st' = nb_compl st
        /\ nb_loop * step = Z.of_nat (length (data w)))
    /\ (0 < Z.of_nat (length (data w)) `mod` step ->
        exists (lc : loc) (wc : wfm),
          dict_get items' (name +:+ "_compl") = Some lc
          /\ entries (fs_heap st') !! lc = Some wc
          /\ index wc = 1023 - nb_compl st /\ nb_compl st' = nb_compl st + 1
          /\ 4 <= Z.of_nat (length (data wc))
          /\ nb_loop * step + Z.of_nat (length (data wc)) = Z.of_nat (length (data w))).
Proof.
  intros H Hitems Hl Hw Hstep Hlen.
  destruct (fold_waveform_effect _ _ _ _ _ _ _ _ H Hitems Hl Hw Hstep Hlen)
    as (nm & nb_loop & items' & w' & H1 & _ & H2 & H3 & H4 & H5 & H6 & H7 & H8 & _ & H9 & H10).
  exists nm, nb_loop, items', w'.
  do 9 (split; [assumption|]).
  intros Hpos. destruct (H10 Hpos) as (lc & wc & C1 & C2 & C3 & C4 & _ & C5 & C6).
  exists lc, wc. repeat split; assumption.
Qed.


(** *** Tables without a long waveform *)

Definition all_short (h : heap) (items : list (string * loc)) : Prop :=
  Forall (fun kl : string * loc =>
            exists w, entries h !! kl.2 = Some w /\ Z.of_nat (length (data w)) <= 1000)
         items.

Lemma all_short_extends (h h' : heap) (items : list (string * loc)) :
  entries h ⊆ entries h' -> all_short h items -> all_short h' items.
Proof.
  intros Hsub H. eapply Forall_impl; [exact H|]. intros kl (w & Hw & Hlen).
  exists w. split; [exact (lookup_weaken _ _ _ _ Hw Hsub) | exact Hlen].
Qed.

Lemma find_long_none (h : heap) (step : Z) (items : list (string * loc)) :
  forall acc, all_short h items -> find_long h items step acc = Ok acc.
Proof.
  induction items as [|[k l] items IH]; intros acc Hs; [reflexivity|].
  inversion Hs as [|? ? (w & Hw & Hlen) Hs']; subst. cbn [snd] in Hw.
  cbn [find_long]. unfold entry_at. rewrite Hw. cbn [or_raise bind].
  replace (Z.of_nat (length (data w)) >? 1000) with false by lia.
  apply IH, Hs'.
Qed.

Lemma deepcopy_items_total (items : list (string * loc)) :
  forall (h : heap) (memo : gmap loc loc),
  all_short h items ->
  exists h' items', deepcopy_items h memo items = Ok (h', items')
                    /\ entries h ⊆ entries h' /\ dicts h' = dicts h.
Proof.
  induction items as [|[k l] items IH]; intros h memo Hs.
  - exists h, []. repeat split; reflexivity.
  - inversion Hs as [|? ? (w & Hw & Hlen) Hs']; subst. cbn [snd] in Hw.
    cbn [deepcopy_items]. destruct (memo !! l) as [l'|].
    + destruct (IH h memo Hs') as (h' & items' & -> & Hsub & Hd).
      eexists _, _. split; [reflexivity|]. split; assumption.
    + unfold entry_at. rewrite Hw. cbn [or_raise bind].
      unfold alloc_entry. cbv beta iota zeta.
      pose proof (fresh_entry h) as Hfresh.
      set (h1 := {| dicts := dicts h; entries := _ |}).
      assert (entries h ⊆ entries h1) as Hsub1 by (apply insert_subseteq, Hfresh).
      destruct (IH h1 (<[l := fresh (dom (entries h))]> memo)
                  (all_short_extends _ _ _ Hsub1 Hs')) as (h' & items' & -> & Hsub & Hd).
      eexists _, _. split; [reflexivity|]. split; [etrans; eassumption | exact Hd].
Qed.

(** X3. A table in which no waveform has more than 1000 samples: the pass
    returns, whatever the program and the step, and the program it returns
    is the program it was given. *)
Theorem short_waveforms_leave_the_program (h : heap) (simple_prog : list string)
    (waveforms : loc) (step : Z) (items : list (string * loc)) :
  dicts h !! waveforms = Some items -> all_short h items ->
  exists h' wfms,
    q1asm_transform_long_waveforms h simple_prog waveforms step
    = Ok (h', simple_prog, wfms).
Proof.
  intros Hitems Hs.
  destruct (deepcopy_items_total items h ∅ Hs) as (h1 & items' & Hcopy & Hsub & Hd).
  unfold q1asm_transform_long_waveforms, fold_table, deepcopy, dict_at.
  rewrite Hitems. cbn [or_raise bind]. rewrite Hcopy. cbv beta iota zeta delta [bind].
  unfold alloc_dict. cbv beta iota zeta. cbn [dicts].
  pose proof (fresh_dict h1) as Hfresh.
  assert (fresh (dom (dicts h1)) <> waveforms) as Hne.
  { intros E. rewrite E, Hd, Hitems in Hfresh. discriminate. }
  rewrite lookup_insert_ne by exact Hne. rewrite Hd, Hitems. cbv beta iota delta [or_raise].
  rewrite find_long_none by (apply (all_short_extends h); [exact Hsub | exact Hs]).
  cbv beta iota zeta. cbn [fold_waveforms]. cbv beta iota zeta.
  eexists _, _. reflexivity.
Qed.

(** The lines written for one line of a program. *)
Lemma loop_plays_at (h : heap) (wfms : loc) (idxs : gmap Z (string * Z)) (step : Z)
    (pre : list string) : forall (k : Z) (line : string) (post out : list string),
  loop_plays h wfms idxs step k (pre ++ line :: post) = Ok out ->
  exists (A : list string) (k1 : Z) (block : list string) (k2 : Z) (B : list string),
    loop_play h wfms idxs step k1 line = Ok (block, k2) /\ out = A ++ block ++ B.
Proof.
  induction pre as [|x pre IH]; intros k line post out H; cbn [app loop_plays] in H.
  - apply bind_Ok in H. destruct H as ([block k2] & Hb & H). cbv beta iota in H.
    apply bind_Ok in H. destruct H as (B & HB & H). injection H as <-.
    exists [], k, block, k2, B. split; [exact Hb | reflexivity].
  - apply bind_Ok in H. destruct H as ([b k'] & Hb & H). cbv beta iota in H.
    apply bind_Ok in H. destruct H as (out' & Ho & H). injection H as <-.
    destruct (IH _ _ _ _ Ho) as (A & k1 & block & k2 & B & E & ->).
    exists (b ++ A), k1, block, k2, B. split; [exact E|]. rewrite <- app_assoc. reflexivity.
Qed.

(** The table part of the pass on a table that holds one waveform, a long
    one: the copy, then the folding of this waveform from a state that is
    known. *)
Lemma fold_table_one (h : heap) (waveforms : loc) (name : string) (l : loc) (w : wfm)
    (step : Z) (st : fold_state) (wfms : loc) (names : list string) :
  dicts h !! waveforms = Some [(name, l)] -> entries h !! l = Some w ->
  1000 < Z.of_nat (length (data w)) ->
  fold_table h waveforms step = Ok (st, wfms, names) ->
  names = [name]
  /\ exists (st0 : fold_state) (l1 : loc),
       fold_waveform wfms step st0 name = Ok st
       /\ dicts (fs_heap st0) !! wfms = Some [(name, l1)]
       /\ entries (fs_heap st0) !! l1 = Some w
       /\ nb_compl st0 = 0
       /\ wfm_2loop_indexes st0 = <[index w := (name, 0)]> ∅.
Proof.
  intros Hd He Hlong H.
  unfold fold_table, deepcopy, dict_at in H. rewrite Hd in H.
  cbn [or_raise bind deepcopy_items] in H. rewrite lookup_empty in H.
  unfold entry_at in H. rewrite He in H. cbn [or_raise bind] in H.
  unfold alloc_entry, alloc_dict in H. cbv beta iota zeta in H.
  cbn [bind dicts entries] in H.
  pose proof (fresh_entry h) as Hf1. pose proof (fresh_dict h) as Hf2.
  set (l1 := fresh (dom (entries h))) in *.
  set (r := fresh (dom (dicts h))) in *.
  assert (r <> waveforms) as Hr by (intros E; rewrite E, Hd in Hf2; discriminate).
  assert (l1 <> l) as Hl1 by (intros E; rewrite E, He in Hf1; discriminate).
  rewrite lookup_insert_ne in H by exact Hr. rewrite Hd in H.
  cbn [or_raise bind find_long] in H.
  unfold entry_at in H. cbn [entries] in H.
  rewrite lookup_insert_ne in H by exact Hl1. rewrite He in H. cbn [or_raise bind] in H.
  replace (Z.of_nat (length (data w)) >? 1000) with true in H by lia.
  inv_bind H. destruct a as [names0 idxs0]. inv_bind Ha. inv_bind Ha.
  cbn [find_long fst snd app] in Ha. injection Ha as <- <-.
  cbv beta iota zeta in H. inv_bind H. injection H as <- <- <-.
  split; [reflexivity|].
  cbn [fold_waveforms] in Ha. inv_bind Ha. injection Ha as <-.
  eexists _, l1. split; [eassumption|]. cbn [fs_heap nb_compl wfm_2loop_indexes dicts entries].
  split; [apply lookup_insert_eq|]. split; [apply lookup_insert_eq|].
  split; reflexivity.
Qed.

Lemma name_differs_compl (name : string) : streq name (name +:+ "_compl") = false.
Proof.
  apply String.eqb_neq. intros H. apply (f_equal String.length) in H.
  rewrite str_length_app in H. cbn [String.length] in H. lia.
Qed.

Lemma rstrip_lines_block (A init B : list string) (last : string) :
  solid_end last ->
  rstrip_lines (A ++ (init ++ [last]) ++ B) = A ++ (init ++ [last]) ++ rstrip_lines B.
Proof.
  intros Hs.
  replace (A ++ (init ++ [last]) ++ B) with ((A ++ init) ++ last :: B)
    by (rewrite <- !app_assoc; reflexivity).
  rewrite rstrip_lines_app_solid by exact Hs. rewrite <- !app_assoc. reflexivity.
Qed.

(** The four lines of a counted loop over a folded pair. *)
Definition play_loop (nb_loop loop_index n0 n1 step : Z) : list string :=
  ["move      " +:+ pretty nb_loop +:+ ",R2";
   "loop_play" +:+ pretty loop_index +:+ ":";
   "play      " +:+ pretty n0 +:+ "," +:+ pretty n1 +:+ "," +:+ pretty step;
   "loop      R2,@loop_play" +:+ pretty loop_index].

(** The pass on a table that holds one waveform, a long one, and a program
    with a line that plays it: the line becomes a loop of [nb_loop] plays of
    [step] samples, followed by one play of the complementary waveform when
    the length is not a multiple of the step. *)
Lemma long_waveform_alone (h h' : heap) (waveforms wfms : loc) (name : string) (l : loc)
    (w : wfm) (step : Z) (pre post : list string) (line c : string) (rest : list Z)
    (prog : list string) :
  dicts h !! waveforms = Some [(name, l)] ->
  entries h !! l = Some w ->
  1000 < Z.of_nat (length (data w)) ->
  24 <= step -> 3 * step < Z.of_nat (length (data w)) ->
  startswith "play" line = true ->
  q1asm_get_line_info line = Ok (c, index w :: index w :: rest) ->
  q1asm_transform_long_waveforms h (pre ++ line :: post) waveforms step
  = Ok (h', prog, wfms) ->
  exists (nb_loop loop_index : Z) (A B tail : list string)
         (items' : list (string * loc)) (l' : loc) (w' : wfm),
    prog = A ++ play_loop nb_loop loop_index (index w) (index w) step ++ tail ++ B
    /\ 2 <= nb_loop
    /\ nb_loop = Z.of_nat (length (data w)) `div` step - shortfall (length (data w)) step
    /\ dicts h' !! wfms = Some items'
    /\ dict_get items' name = Some l' /\ entries h' !! l' = Some w'
    /\ index w' = index w /\ Z.of_nat (length (data w')) = step
    /\ (Z.of_nat (length (data w)) `mod` step = 0 ->
        tail = [] /\ dict_get items' (name +:+ "_compl") = None
        /\ nb_loop * step = Z.of_nat (length (data w)))
    /\ (0 < Z.of_nat (length (data w)) `mod` step ->
        exists (lc : loc) (wc : wfm),
          dict_get items' (name +:+ "_compl") = Some lc /\ entries h' !! lc = Some wc
          /\ index wc = 1023
          /\ tail = ["play      1023,1023," +:+ pretty (Z.of_nat (length (data wc)))]
          /\ Z.of_nat (length (data wc))
             = Z.of_nat (length (data w)) `mod` step + shortfall (length (data w)) step * step
          /\ 4 <= Z.of_nat (length (data wc))
          /\ nb_loop * step + Z.of_nat (length (data wc)) = Z.of_nat (length (data w))).
Proof.
  intros Hd He Hlong Hstep Hlen Hplay Hinfo H.
  unfold q1asm_transform_long_waveforms in H.
  apply bind_Ok in H. destruct H as ([[st r] names] & Hfold & H). cbv beta iota in H.
  destruct (fold_table_one _ _ _ _ _ _ _ _ _ Hd He Hlong Hfold)
    as (-> & st0 & l1 & Hf & Hd0 & He0 & Hn0 & Hi0).
  apply bind_Ok in H. destruct H as (out & Hout & H). injection H as <- <- <-.
  destruct (fold_waveform_effect _ _ _ _ _ _ _ _ Hf Hd0 ltac:(cbn [dict_get]; rewrite streq_refl; reflexivity) He0 Hstep Hlen)
    as (nm & nb_loop & items' & w' & Hidx & (k0 & Hnm) & Hitems' & Hget & Hw' & _ & Hiw'
        & Hlw' & Hnb & Hval & Hzero & Hpos).
  assert (nm = name) as ->.
  { rewrite Hi0, lookup_insert_eq in Hnm. congruence. }
  destruct (loop_plays_at _ _ _ _ _ _ _ _ _ Hout) as (A & k1 & block & k2 & B & Hblock & ->).
  unfold loop_play in Hblock. rewrite Hplay, Hinfo in Hblock.
  cbv beta iota delta [bind] in Hblock.
  change (Py.index (index w :: index w :: rest) 0) with (Ok (index w)) in Hblock.
  change (Py.index (index w :: index w :: rest) 1) with (Ok (index w)) in Hblock.
  cbv beta iota in Hblock. rewrite Hidx in Hblock. cbv beta iota in Hblock.
  unfold dict_at in Hblock. rewrite Hitems' in Hblock. cbv beta iota delta [or_raise] in Hblock.
  change ([?a; ?b; ?c0; ?d]) with (play_loop nb_loop k1 (index w) (index w) step) in Hblock.
  pose proof (Z.mod_pos_bound (Z.of_nat (length (data w))) step ltac:(lia)) as Hmod.
  exists nb_loop, k1.
  destruct (Z.eq_dec (Z.of_nat (length (data w)) `mod` step) 0) as [Hz|Hnz].
  - destruct (Hzero Hz) as (-> & _ & Hsum).
    assert (dict_get [(name, l1)] (name +:+ "_compl") = None) as Hnone.
    { cbn [dict_get]. rewrite name_differs_compl. reflexivity. }
    rewrite Hnone in Hblock. injection Hblock as <- _.
    exists A, (rstrip_lines B), [], [(name, l1)], l1, w'.
    split.
    { unfold play_loop.
      change ([?a; ?b; ?c0; ?d] ++ [] ++ ?X) with (([a; b; c0] ++ [d]) ++ X).
      change ([?a; ?b; ?c0; ?d] ++ B) with (([a; b; c0] ++ [d]) ++ B).
      apply rstrip_lines_block.
      apply solid_end_app. eapply numeral_solid, numeral_pretty. }
    repeat split; try assumption; try lia.
  - destruct (Hpos ltac:(lia)) as (lc & wc & Hc & Hwc & Hic & _ & Hcv & H4 & Hsum).
    rewrite Hc in Hblock. unfold entry_at in Hblock. rewrite Hwc in Hblock.
    cbv beta iota delta [or_raise bind] in Hblock. rewrite ?Hwc in Hblock.
    cbv beta iota in Hblock.
    injection Hblock as <- _.
    rewrite Hn0 in Hic. change (1023 - 0) with 1023 in Hic. rewrite Hic.
    exists A, (rstrip_lines B),
      ["play      1023,1023," +:+ pretty (Z.of_nat (length (data wc)))], items', l1, w'.
    split.
    { change ("play      " +:+ pretty 1023 +:+ "," +:+ pretty 1023 +:+ "," +:+ ?t)
        with ("play      1023,1023," +:+ t).
      rewrite !(app_assoc (play_loop _ _ _ _ _)). unfold play_loop.
      change ([?a; ?b; ?c0; ?d; ?e] ++ B) with (([a; b; c0; d] ++ [e]) ++ B).
      apply rstrip_lines_block.
      apply solid_end_app. eapply numeral_solid, numeral_pretty. }
    repeat split; try assumption; try lia.
    intros _. exists lc, wc. repeat split; try assumption; lia.
Qed.

(** C6. Folding adds up.  For one waveform folded in any table (step of
    24 or more, below a third of the length): the waveform is cut to [step]
    samples, the loop count is the quotient of the length by the step, less
    one when the remainder is 1, 2 or 3; a complementary waveform is made
    exactly when the remainder is not zero, of the remainder plus, in that
    case, one step; and loop count times step plus the length of the
    complementary waveform is the length the waveform had.  For a table that
    holds one such waveform of more than 1000 samples, the program returned
    by the pass plays it accordingly: [nb_loop] times the cut waveform in a
    loop, then the complementary waveform once. *)
Theorem folding_adds_up :
  (forall (wfms : loc) (step : Z) (st st' : fold_state) (name : string)
          (items : list (string * loc)) (l : loc) (w : wfm),
     fold_waveform wfms step st name = Ok st' ->
     dicts (fs_heap st) !! wfms = Some items ->
     dict_get items name = Some l ->
     entries (fs_heap st) !! l = Some w ->
     24 <= step -> 3 * step < Z.of_nat (length (data w)) ->
     exists (nm : string) (nb_loop : Z) (items' : list (string * loc)) (w' : wfm),
       wfm_2loop_indexes st' !! index w = Some (nm, nb_loop)
       /\ dicts (fs_heap st') !! wfms = Some items'
       /\ dict_get items' name = Some l
       /\ entries (fs_heap st') !! l = Some w'
       /\ Z.of_nat (length (data w')) = step
       /\ 2 <= nb_loop
       /\ nb_loop = Z.of_nat (length (data w)) `div` step - shortfall (length (data w)) step
       /\ (Z.of_nat (length (data w)) `mod` step = 0 ->
           items' = items /\ nb_loop * step = Z.of_nat (length (data w)))
       /\ (0 < Z.of_nat (length (data w)) `mod` step ->
           exists (lc : loc) (wc : wfm),
             dict_get items' (name +:+ "_compl") = Some lc
             /\ entries (fs_heap st') !! lc = Some wc
             /\ Z.of_nat (length (data wc))
                = Z.of_nat (length (data w)) `mod` step
                  + shortfall (length (data w)) step * step
             /\ 4 <= Z.of_nat (length (data wc))
             /\ nb_loop * step + Z.of_nat (length (data wc))
                = Z.of_nat (length (data w)))) /\
  (forall (h h' : heap) (waveforms wfms : loc) (name : string) (l : loc) (w : wfm)
          (step : Z) (pre post : list string) (line c : string) (rest : list Z)
          (prog : list string),
     dicts h !! waveforms = Some [(name, l)] ->
     entries h !! l = Some w ->
     1000 < Z.of_nat (length (data w)) ->
     24 <= step -> 3 * step < Z.of_nat (length (data w)) ->
     startswith "play" line = true ->
     q1asm_get_line_info line = Ok (c, index w :: index w :: rest) ->
     q1asm_transform_long_waveforms h (pre ++ line :: post) waveforms step
     = Ok (h', prog, wfms) ->
     exists (nb_loop loop_index : Z) (A B tail : list string),
       prog = A ++ play_loop nb_loop loop_index (index w) (index w) step ++ tail ++ B
       /\ 2 <= nb_loop
       /\ nb_loop = Z.of_nat (length (data w)) `div` step - shortfall (length (data w)) step
       /\ (Z.of_nat (length (data w)) `mod` step = 0 ->
           tail = [] /\ nb_loop * step = Z.of_nat (length (data w)))
       /\ (0 < Z.of_nat (length (data w)) `mod` step ->
           exists wait_time : Z,
             tail = ["play      1023,1023," +:+ pretty wait_time]
             /\ wait_time = Z.of_nat (length (data w)) `mod` step
                            + shortfall (length (data w)) step * step
             /\ 4 <= wait_time
             /\ nb_loop * step + wait_time = Z.of_nat (length (data w)))).
Proof.
  split.
  - intros wfms step st st' name items l w H Hitems Hl Hw Hstep Hlen.
    destruct (fold_waveform_effect _ _ _ _ _ _ _ _ H Hitems Hl Hw Hstep Hlen)
      as (nm & nb_loop & items' & w' & H1 & _ & H2 & H3 & H4 & _ & _ & H7 & H8 & H8' & H9 & H10).
    exists nm, nb_loop, items', w'.
    do 7 (split; [assumption|]).
    split; [intros Hz; destruct (H9 Hz) as (? & _ & ?); split; assumption|].
    intros Hpos. destruct (H10 Hpos) as (lc & wc & C1 & C2 & _ & _ & C4 & C5 & C6).
    exists lc, wc. repeat split; assumption.
  - intros h h' waveforms wfms name l w step pre post line c rest prog
           Hd He Hlong Hstep Hlen Hplay Hinfo H.
    destruct (long_waveform_alone _ _ _ _ _ _ _ _ _ _ _ _ _ _
                Hd He Hlong Hstep Hlen Hplay Hinfo H)
      as (nb_loop & k & A & B & tail & items' & l' & w' & E & H2 & Hv & _ & _ & _ & _ & _
          & Hz & Hp).
    exists nb_loop, k, A, B, tail.
    do 3 (split; [assumption|]).
    split; [intros Hz0; destruct (Hz Hz0) as (? & _ & ?); split; assumption|].
    intros Hpos. destruct (Hp Hpos) as (lc & wc & _ & _ & _ & Et & Ev & H4 & Hs).
    exists (Z.of_nat (length (data wc))). repeat split; assumption.
Qed.

End Store.

(** *** Long chirps *)

Section ChirpStore.
Context {FO : FloatOps} {CO : ChirpOps}.

(** The table [waveforms] of [h] binds [k] to an object that [h0] does not
    have. *)
Definition bound_to_new (h0 : heap) (waveforms : loc) (k : string) (h : heap) : Prop :=
  exists items l, dicts h !! waveforms = Some items /\ dict_get items k = Some l
                  /\ entries h0 !! l = None.

Lemma chirp_line_effect (h0 : heap) (gain : Z) (waveforms : loc) (h h' : heap)
    (idx idx' : Z) (line : string) (block : list string) :
  chirp_line gain waveforms h idx line = Ok (h', block, idx') ->
  entries h0 ⊆ entries h ->
  entries h0 ⊆ entries h'
  /\ (forall r, r <> waveforms -> dicts h' !! r = dicts h !! r)
  /\ (forall k, bound_to_new h0 waveforms k h -> bound_to_new h0 waveforms k h')
  /\ (if startswith "play_lg_chirp" line
      then bound_to_new h0 waveforms ("chirpsm" +:+ pretty idx) h' /\ idx' = idx + 1
      else h' = h /\ block = [line] /\ idx' = idx).
Proof.
  unfold chirp_line. intros H Hsub.
  destruct (startswith "play_lg_chirp" line).
  2:{ injection H as <- <- <-. repeat split; auto. }
  inv_bind H. destruct a as [c nb]. cbv beta iota zeta in H. do 4 inv_bind H.
  destruct (_ <? 0) in H; [discriminate|]. do 2 inv_bind H.
  destruct (negb _) in H; [discriminate|]. destruct (negb _) in H; [discriminate|].
  do 3 inv_bind H. unfold alloc_entry in H. cbv beta iota zeta in H.
  pose proof (fresh_entry h) as Hfresh.
  set (l := fresh (dom (entries h))) in *.
  assert (entries h0 !! l = None) as Hnew by exact (subseteq_None _ _ _ Hsub Hfresh).
  injection H as <- <- <-. cbn [write_dict dicts entries].
  unfold dict_at in *.
  destruct (dicts h !! waveforms) as [items|] eqn:Ed; [|discriminate].
  match goal with Hx : or_raise SystemError (Some items) = Ok _ |- _ =>
    injection Hx as <- end.
  split; [etrans; [exact Hsub | apply insert_subseteq, Hfresh]|].
  split; [intros r Hr; apply lookup_insert_ne; congruence|].
  split.
  - intros k (items0 & l0 & Hi & Hk & Hl0). rewrite Ed in Hi. injection Hi as <-.
    destruct (streq ("chirpsm" +:+ pretty idx) k) eqn:E.
    + apply String.eqb_eq in E. subst k.
      eexists _, l. split; [apply lookup_insert_eq|]. split; [apply dict_get_set_eq | exact Hnew].
    + eexists _, l0. split; [apply lookup_insert_eq|].
      split; [rewrite dict_get_set_ne by exact E; exact Hk | exact Hl0].
  - split; [|reflexivity].
    eexists _, l. split; [apply lookup_insert_eq|]. split; [apply dict_get_set_eq | exact Hnew].
Qed.

Lemma chirp_lines_effect (h0 : heap) (gain : Z) (waveforms : loc) (prog : list string) :
  forall (h h' : heap) (idx : Z) (out : list string),
  chirp_lines gain waveforms h idx prog = Ok (h', out) ->
  entries h0 ⊆ entries h ->
  entries h0 ⊆ entries h'
  /\ (forall r, r <> waveforms -> dicts h' !! r = dicts h !! r)
  /\ (forall k, bound_to_new h0 waveforms k h -> bound_to_new h0 waveforms k h')
  /\ (Exists (fun line => startswith "play_lg_chirp" line = true) prog ->
      bound_to_new h0 waveforms ("chirpsm" +:+ pretty idx) h')
  /\ (Forall (fun line => startswith "play_lg_chirp" line = false) prog ->
      h' = h /\ out = prog).
Proof.
  induction prog as [|line prog IH]; intros h h' idx out H Hsub.
  - injection H as <- <-. repeat split; auto. intros HE. inversion HE.
  - cbn [chirp_lines] in H. inv_bind H. destruct a as [[h1 block] idx1].
    cbv beta iota zeta in H. inv_bind H. destruct a as [h2 out2]. injection H as <- <-.
    destruct (chirp_line_effect h0 _ _ _ _ _ _ _ _ Ha Hsub) as (S1 & D1 & B1 & C1).
    destruct (IH _ _ _ _ Ha0 S1) as (S2 & D2 & B2 & E2 & N2).
    split; [exact S2|]. split; [intros r Hr; rewrite D2, D1 by exact Hr; reflexivity|].
    split; [intros k Hk; apply B2, B1, Hk|]. split.
    + intros HE. destruct (startswith "play_lg_chirp" line) eqn:El.
      * apply B2, C1.
      * destruct C1 as (-> & -> & ->). apply E2.
        inversion HE as [? ? Hx|? ? Hx]; subst; [congruence | exact Hx].
    + intros HF. inversion HF as [|? ? Hx HF']; subst. rewrite Hx in C1.
      destruct C1 as (-> & -> & ->). destruct (N2 HF') as [-> ->]. split; reflexivity.
Qed.

(** X4. The long-chirp pass works in place: it returns the reference it was
    given, leaves the other tables and all the entries of the store as they
    were, and, as soon as the program has a [play_lg_chirp] line, binds
    [chirpsm1] in the caller's table to a new entry.  Without such a line
    the store is the same and the program only loses its trailing blanks. *)
Theorem long_chirps_work_in_place (h h' : heap) (simple_prog prog : list string)
    (waveforms wfms : loc) (gain : flt) :
  q1asm_transform_long_chirps h simple_prog waveforms gain = Ok (h', prog, wfms) ->
  wfms = waveforms
  /\ entries h ⊆ entries h'
  /\ (forall r, r <> waveforms -> dicts h' !! r = dicts h !! r)
  /\ (Exists (fun line => startswith "play_lg_chirp" line = true) simple_prog ->
      exists items l, dicts h' !! waveforms = Some items
                      /\ dict_get items "chirpsm1" = Some l /\ entries h !! l = None)
  /\ (Forall (fun line => startswith "play_lg_chirp" line = false) simple_prog ->
      h' = h /\ prog = rstrip_lines simple_prog).
Proof.
  unfold q1asm_transform_long_chirps. intros H. do 2 inv_bind H.
  destruct a0 as [h1 out]. injection H as <- <- <-.
  destruct (chirp_lines_effect h _ _ _ _ _ _ _ Ha0 ltac:(reflexivity))
    as (S & D & _ & E & N).
  split; [reflexivity|]. split; [exact S|]. split; [exact D|]. split; [exact E|].
  intros HF. destruct (N HF) as [-> ->]. split; reflexivity.
Qed.

End ChirpStore.

(** *** Copied or shared *)

Section Tables.
Context {FO : FloatOps} {CO : ChirpOps}.

(** C8, as amended. The long-waveform pass returns a table that the call
    made: it is not the table of the caller, which is bound as before to the
    same entries, and nothing that the store held has changed.  The
    long-chirp pass returns the table it was given, and as soon as the
    program has a [play_lg_chirp] line this table holds [chirpsm1], a new
    entry: the caller's table is changed. *)
Theorem tables_copied_or_shared :
  (forall (h h' : heap) (simple_prog prog : list string) (waveforms wfms : loc) (step : Z),
     q1asm_transform_long_waveforms h simple_prog waveforms step = Ok (h', prog, wfms) ->
     wfms <> waveforms /\ dicts h !! wfms = None /\ is_Some (dicts h' !! wfms)
     /\ dicts h' !! waveforms = dicts h !! waveforms
     /\ dicts h ⊆ dicts h' /\ entries h ⊆ entries h') /\
  (forall (h h' : heap) (simple_prog prog : list string) (waveforms wfms : loc) (gain : flt),
     q1asm_transform_long_chirps h simple_prog waveforms gain = Ok (h', prog, wfms) ->
     wfms = waveforms /\ entries h ⊆ entries h'
     /\ (forall r, r <> waveforms -> dicts h' !! r = dicts h !! r)
     /\ (Exists (fun line => startswith "play_lg_chirp" line = true) simple_prog ->
         exists items l, dicts h' !! waveforms = Some items
                         /\ dict_get items "chirpsm1" = Some l /\ entries h !! l = None)).
Proof.
  split.
  - intros h h' simple_prog prog waveforms wfms step H.
    destruct (long_waveforms_copy _ _ _ _ _ _ _ H) as (Hd & He & Hnew & Hsome & [items Hi]).
    split; [intros ->; rewrite Hi in Hnew; discriminate|].
    split; [exact Hnew|]. split; [exact Hsome|].
    split; [rewrite Hi; exact (lookup_weaken _ _ _ _ Hi Hd)|].
    split; assumption.
  - intros h h' simple_prog prog waveforms wfms gain H.
    unfold q1asm_transform_long_chirps in H. do 2 inv_bind H.
    destruct a0 as [h1 out]. injection H as <- <- <-.
    destruct (chirp_lines_effect h _ _ _ _ _ _ _ Ha0 ltac:(reflexivity))
      as (S & D & _ & E & _).
    split; [reflexivity|]. split; [exact S|]. split; [exact D|]. exact E.
Qed.

End Tables.

(** *** A store to run the passes on *)

#[local] Existing Instance Binary64.binary64.

(** A table with one constant waveform of [n] samples, at index 0. *)
Definition square (n : nat) : wfm := {| data := replicate n 1%float; index := 0 |}.

Definition one_waveform (n : nat) : heap :=
  {| dicts := {[ 0%nat := [("square", 0%nat)] ]};
     entries := {[ 0%nat := square n ]} |}.

Definition folded (n : nat) (step : Z) : result (heap * list string * loc) :=
  q1asm_transform_long_waveforms (one_waveform n) ["play      0,0,1003"] 0%nat step.

Lemma long_waveforms_works_on_a_copy_witness :
  match folded 1003 28 with
  | Ok (h', _, wfms) => dicts (one_waveform 1003) !! wfms = None
  | Raise _ => False
  end.
Proof.
  destruct (folded 1003 28) as [[[h' prog] wfms]|e] eqn:E.
  - exact (proj1 (proj2 (proj2
             (long_waveforms_works_on_a_copy _ _ _ _ _ _ _ E)))).
  - vm_compute in E. discriminate E.
Defined.


Definition folded_state (n : nat) (step : Z) : result fold_state :=
  fold_waveform 0%nat step
    {| fs_heap := one_waveform n; nb_compl := 0;
       wfm_2loop_indexes := {[ 0 := ("square", 0) ]} |} "square".

(** 1010 samples by steps of 28: a remainder of 2, hence 35 loops and a
    complementary waveform of 30 samples. *)
Lemma fold_waveform_adds_up_witness :
  match folded_state 1010 28 with
  | Ok st' => wfm_2loop_indexes st' !! 0 = Some ("square", 35)
  | Raise _ => False
  end.
Proof.
  destruct (folded_state 1010 28) as [st'|e] eqn:E.
  - destruct (fold_waveform_adds_up 0%nat 28 _ st' "square" [("square", 0%nat)] 0%nat
                (square 1010) E)
      as (nm & nb_loop & items' & w' & H1 & _); try reflexivity; try (vm_compute; congruence).
    vm_compute in E. injection E as <-. reflexivity.
  - vm_compute in E. discriminate E.
Defined.

(** 1010 samples by steps of 28, in a program: 36 steps and a remainder of
    2, hence a loop of 35 plays and a complementary play of 30 samples. *)
Definition folded_1010 : result (heap * list string * loc) :=
  q1asm_transform_long_waveforms (one_waveform 1010)
    ["wait      20"; "play      0,0,1010"; "wait      100"] 0%nat 28.

Lemma folded_1010_program :
  (fun r => match r with Ok (_, prog, _) => Some prog | Raise _ => None end) folded_1010
  = Some ["wait      20"; "move      35,R2"; "loop_play1:"; "play      0,0,28";
          "loop      R2,@loop_play1"; "play      1023,1023,30"; "wait      100"].
Proof. vm_compute. reflexivity. Qed.

Lemma folding_adds_up_witness :
  match folded_1010 with
  | Ok (_, prog, _) =>
      exists (nb_loop loop_index : Z) (A B tail : list string),
        prog = A ++ play_loop nb_loop loop_index 0 0 28 ++ tail ++ B
        /\ nb_loop = 35 /\ tail = ["play      1023,1023,30"]
  | Raise _ => False
  end.
Proof.
  destruct folded_1010 as [[[h' prog] wfms]|e] eqn:E.
  - destruct (proj2 folding_adds_up (one_waveform 1010) h' 0%nat wfms "square" 0%nat
                (square 1010) 28 ["wait      20"] ["wait      100"]
                "play      0,0,1010" "play      0,0,1010" [1010] prog
                eq_refl eq_refl eq_refl ltac:(lia) eq_refl eq_refl eq_refl E)
      as (nb_loop & k & A & B & tail & -> & _ & Hv & _ & Hp).
    destruct (Hp eq_refl) as (wait_time & -> & -> & _).
    exists nb_loop, k, A, B, ["play      1023,1023,30"].
    split; [reflexivity|]. split; [exact Hv | reflexivity].
  - vm_compute in E. discriminate E.
Defined.

Lemma short_waveforms_leave_the_program_witness :
  exists h' wfms,
    q1asm_transform_long_waveforms (one_waveform 40) ["play      0,0,40"] 0%nat 28
    = Ok (h', ["play      0,0,40"], wfms).
Proof.
  apply (short_waveforms_leave_the_program (one_waveform 40) ["play      0,0,40"] 0%nat 28
           [("square", 0%nat)]).
  - reflexivity.
  - repeat constructor. eexists. split; [reflexivity | vm_compute; congruence].
Defined.

(** *** Chirps on that store

    The numbers of a chirp, computed as the source computes them: true
    divisions and products in binary64, cut by [int()].  The dictionary is read
    from a literal of integers. *)
Definition unquote (s : string) : string := drop_first (drop_last (strip s)).

Definition dict_item (piece : string) : result (string * Z) :=
  match split_on ":" piece with
  | [k; v] => let* n := Py.int (strip v) in Ok (unquote k, n)
  | _ => Raise ValueError
  end.

Fixpoint dict_items (pieces : list string) : result (list (string * Z)) :=
  match pieces with
  | [] => Ok []
  | p :: rest => let* kv := dict_item p in let* kvs := dict_items rest in Ok (kv :: kvs)
  end.

Definition int_dict (text : string) : result (list (string * Z)) :=
  let* body := or_raise ValueError (after_char "{" text) in
  dict_items (split_on "," (before_char "}" body)).

Definition to_float (z : Z) : float := PyFloat.of_Z z.

(** [a / b] on a Python [int] or [float] by a [float] *)
Definition py_div (a b : float) : result float :=
  if PrimFloat.eqb b 0%float then Raise ZeroDivisionError else Ok (PrimFloat.div a b).

Definition round8 (x : float) : float :=
  PrimFloat.div (PyFloat.round (PrimFloat.mul x 1e8%float)) 1e8%float.

#[local] Instance chirps64 : ChirpOps := {|
  literal_eval := int_dict;
  scale_gain g := PyFloat.to_Z (PrimFloat.mul g 32767%float);
  chirp_ints gain bw sm delta_f ns :=
    let half := PrimFloat.div (to_float bw) 2%float in
    let* chirp_start :=
      PyFloat.to_Z (PrimFloat.mul (PrimFloat.sub (to_float delta_f) half) 4%float) in
    let* chirp_end :=
      PyFloat.to_Z (PrimFloat.mul (PrimFloat.add (to_float delta_f) half) 4%float) in
    let ramp := PrimFloat.div (to_float (bw * 4 * sm)) 100%float in
    let* end_ramp_up := PyFloat.to_Z (PrimFloat.add (to_float chirp_start) ramp) in
    let* end_cst := PyFloat.to_Z (PrimFloat.sub (to_float chirp_end) ramp) in
    let* freq_step :=
      PyFloat.to_Z (PrimFloat.div (to_float (4 * Z.abs bw)) (to_float (ns - 1))) in
    let* g := py_div (to_float gain) (PrimFloat.div (to_float (ns * sm)) 100%float) in
    let* gain_step := PyFloat.to_Z g in
    Ok {| chirp_start := chirp_start; chirp_end := chirp_end;
          end_ramp_up := end_ramp_up; end_cst := end_cst;
          freq_step := freq_step; gain_step := gain_step |};
  chirp_ramp step ns sm :=
    let d := PrimFloat.div (to_float (ns * sm)) 100%float in
    (fix go (ix : list nat) : result (list float) :=
       match ix with
       | [] => Ok []
       | i :: rest =>
           let* x := py_div (PrimFloat.div (to_float (Z.of_nat i)) (to_float step)) d in
           let* xs := go rest in
           Ok (round8 x :: xs)
       end) (seq 0 (Z.to_nat step))
|}.

(** The program and the empty table of the test of the repository. *)
Definition chirp_prog : list string :=
  ["set_mrk   3"; "upd_param 146"; "acquire   0,0,4"; "wait      500";
   "play_lg_chirp({'bw': -20000000, 'sm': 10, 'delta_f': 100000000}),12008";
   "wait      16000"].

Definition empty_table : heap := {| dicts := {[ 0%nat := [] ]}; entries := ∅ |}.

Definition chirped : result (heap * list string * loc) :=
  q1asm_transform_long_chirps empty_table chirp_prog 0%nat 0.3%float.

Definition chirped_prog : list string :=
  match chirped with Ok (_, prog, _) => prog | Raise _ => [] end.
Definition chirped_entry (name : string) : option wfm :=
  match chirped with
  | Ok (h, _, w) =>
      match dicts h !! w with
      | Some items =>
          match dict_get items name with
          | Some l => entries h !! l
          | None => None
          end
      | None => None
      end
  | Raise _ => None
  end.

(** The names of the table returned by a pass, with its reference. *)
Definition returned_table (r : result (heap * list string * loc))
  : option (loc * list string) :=
  match r with
  | Ok (h, _, wfms) => (fun items => (wfms, items.*1)) <$> dicts h !! wfms
  | Raise _ => None
  end.

(** C8: the long-chirp pass is given the empty table that the store holds
    at reference 0, and returns this reference: the table of the caller
    now holds the ramp [chirpsm1]. *)
Lemma long_chirps_change_the_table_given :
  dicts empty_table !! 0%nat = Some []
  /\ returned_table (q1asm_transform_long_chirps empty_table chirp_prog 0%nat 0.3%float)
     = Some (0%nat, ["chirpsm1"]).
Proof. split; vm_compute; reflexivity. Qed.

(** The amended statement applies to the two runs: the folded table is a new
    one and the table of the caller is bound as before; the chirp pass
    returns the reference it was given. *)
Lemma tables_copied_or_shared_witness :
  match folded_1010 with
  | Ok (h', _, wfms) =>
      wfms <> 0%nat /\ dicts h' !! 0%nat = dicts (one_waveform 1010) !! 0%nat
  | Raise _ => False
  end
  /\ match chirped with
     | Ok (_, _, wfms) => wfms = 0%nat
     | Raise _ => False
     end.
Proof.
  split.
  - destruct folded_1010 as [[[h' prog] wfms]|e] eqn:E.
    + destruct (proj1 tables_copied_or_shared _ _ _ _ _ _ _ E) as (H1 & _ & _ & H2 & _).
      split; assumption.
    + vm_compute in E. discriminate E.
  - destruct chirped as [[[h' prog] wfms]|e] eqn:E.
    + exact (proj1 (proj2 tables_copied_or_shared _ _ _ _ _ _ _ E)).
    + vm_compute in E. discriminate E.
Defined.

Lemma long_chirps_work_in_place_witness :
  match chirped with
  | Ok (h', _, wfms) =>
      wfms = 0%nat
      /\ exists items l, dicts h' !! 0%nat = Some items
                         /\ dict_get items "chirpsm1" = Some l
                         /\ entries empty_table !! l = None
  | Raise _ => False
  end.
Proof.
  destruct chirped as [[[h' prog] wfms]|e] eqn:E.
  - destruct (long_chirps_work_in_place _ _ _ _ _ _ _ E) as (-> & _ & _ & H & _).
    split; [reflexivity|]. apply H.
    do 4 apply Exists_cons_tl. apply Exists_cons_hd. reflexivity.
  - vm_compute in E. discriminate E.
Defined.

End WaveformFacts.

Module ConverterFacts.
Import Py StringFacts Simple SimpleFacts.

(** *** The phase converter on whole degrees *)

Definition nearest_phase_step (k : Z) : Z := (50000000 * k + 9) `div` 18.

Definition phase_table_ok : bool :=
  forallb (fun n : nat =>
             match q1asm_ph (PyFloat.PyInt (Z.of_nat n)) true with
             | Ok r => r =? nearest_phase_step (Z.of_nat n)
             | Raise _ => false
             end) (seq 0 360).

Lemma phase_table : phase_table_ok = true.
Proof. vm_compute. reflexivity. Qed.

Lemma q1asm_ph_wraps (p : Z) :
  q1asm_ph (PyFloat.PyInt p) true = q1asm_ph (PyFloat.PyInt (p `mod` 360)) true.
Proof. unfold q1asm_ph. rewrite Z.mod_mod by lia. reflexivity. Qed.

(** X5. On a whole number of degrees the phase converter returns the integer
    nearest to [(p mod 360) * 10^9 / 360]: it never raises, and its result
    is in [0, 10^9). *)
Theorem q1asm_ph_on_whole_degrees (p : Z) :
  q1asm_ph (PyFloat.PyInt p) true = Ok (nearest_phase_step (p `mod` 360))
  /\ 0 <= nearest_phase_step (p `mod` 360) < 1000000000.
Proof.
  pose proof (Z.mod_pos_bound p 360 ltac:(lia)) as Hk.
  split.
  - rewrite q1asm_ph_wraps.
    pose proof phase_table as H. unfold phase_table_ok in H.
    rewrite forallb_forall in H.
    specialize (H (Z.to_nat (p `mod` 360))).
    rewrite Z2Nat.id in H by lia.
    assert (In (Z.to_nat (p `mod` 360)) (seq 0 360)) as Hin.
    { apply in_seq. lia. }
    specialize (H Hin).
    destruct (q1asm_ph (PyFloat.PyInt (p `mod` 360)) true) as [r|]; [|discriminate].
    apply Z.eqb_eq in H. rewrite H. reflexivity.
  - unfold nearest_phase_step. split.
    + apply Z.div_pos; lia.
    + apply Z.div_lt_upper_bound; lia.
Qed.


(** *** Lines written by hand *)

Definition starts_with_other (r : string) : Prop :=
  match r with
  | EmptyString => True
  | String c _ => is_word c = false
  end.

Lemma span_word_app (w r : string) :
  all_chars is_word w = true -> starts_with_other r -> span_word (w +:+ r) = (w, r).
Proof.
  intros Hw Hr. induction w as [|c w IH].
  - rewrite str_app_nil_l. destruct r as [|c r]; [reflexivity|].
    cbn [span_word]. cbn in Hr. rewrite Hr. reflexivity.
  - cbn [all_chars] in Hw. apply andb_prop in Hw as [Hc Hw].
    rewrite str_app_cons. cbn [span_word]. rewrite Hc, (IH Hw). reflexivity.
Qed.

Lemma lstrip_word (w r : string) : word w -> lstrip (w +:+ r) = w +:+ r.
Proof.
  intros [Hw Hne]. destruct w as [|c w]; [congruence|].
  cbn [all_chars] in Hw. apply andb_prop in Hw as [Hc _].
  rewrite str_app_cons. cbn [lstrip].
  replace (isspace c) with false; [reflexivity|].
  symmetry. destruct c as [[] [] [] [] [] [] [] []]; try discriminate Hc; reflexivity.
Qed.

Lemma scan_word_app (w r : string) :
  word w -> starts_with_other r -> scan_word (w +:+ r) = Some (w, r).
Proof.
  intros Hw Hr. unfold scan_word. rewrite (lstrip_word _ _ Hw).
  rewrite (span_word_app _ _ (proj1 Hw) Hr).
  destruct w; [destruct Hw; congruence | reflexivity].
Qed.

Lemma scan_word_blank (w r : string) :
  word w -> starts_with_other r -> scan_word (String " " (w +:+ r)) = Some (w, r).
Proof. intros Hw Hr. rewrite <- (scan_word_app w r Hw Hr). reflexivity. Qed.

Lemma scan_word_end (w : string) : word w -> scan_word (String " " w) = Some (w, "").
Proof.
  intros Hw. pose proof (scan_word_blank w "" Hw I) as H.
  rewrite str_app_nil_r in H. exact H.
Qed.

(** The line [dest = op1 <operator> op2], with single blanks. *)
Definition operation (dest op1 : string) (operator : ascii) (op2 : string) : string :=
  dest +:+ String " " (String "=" (String " "
    (op1 +:+ String " " (String operator (String " " op2))))).

(** The line [dest = source]. *)
Definition assignment (dest source : string) : string :=
  dest +:+ String " " (String "=" (String " " source)).

Lemma match_operator_operation (dest op1 op2 : string) (operator : ascii) :
  word dest -> word op1 -> word op2 -> is_operator operator = true ->
  match_operator (operation dest op1 operator op2) = Some (dest, op1, operator, op2).
Proof.
  intros Wd W1 W2 Ho. unfold match_operator, operation.
  rewrite (scan_word_app _ _ Wd) by reflexivity. simpl.
  rewrite (scan_word_blank _ _ W1) by reflexivity. simpl.
  assert (isspace operator = false) as Hs.
  { destruct operator as [[] [] [] [] [] [] [] []]; try discriminate Ho; reflexivity. }
  unfold scan_char. simpl. rewrite Hs, Ho. simpl.
  rewrite (scan_word_end _ W2). reflexivity.
Qed.

Lemma match_equal_assignment (dest source : string) :
  word dest -> word source -> match_equal (assignment dest source) = Some (dest, source).
Proof.
  intros Wd Ws. unfold match_equal, assignment.
  rewrite (scan_word_app _ _ Wd) by reflexivity. simpl.
  rewrite (scan_word_end _ Ws). reflexivity.
Qed.

(** X6. [dest = source] is lowered to a [move] that names the destination
    first. *)
Theorem assignment_names_the_destination_first (dest source : string) :
  word dest -> word source ->
  equal2q1asm (assignment dest source) = Ok ("move      " +:+ dest +:+ "," +:+ source).
Proof.
  intros Wd Ws. unfold equal2q1asm. rewrite (match_equal_assignment _ _ Wd Ws). reflexivity.
Qed.

Lemma assignment_names_the_destination_first_witness :
  equal2q1asm (assignment "R11" "R2") = Ok "move      R11,R2".
Proof.
  apply (assignment_names_the_destination_first "R11" "R2");
    (split; [reflexivity | discriminate]).
Defined.



Lemma int_of_register (reg : string) : startswith "R" reg = true -> Py.int reg = Raise ValueError.
Proof.
  destruct reg as [|c reg]; [discriminate|]. cbn [startswith]. intros H.
  apply andb_prop in H as [H _]. apply Ascii.eqb_eq in H. subst c. reflexivity.
Qed.

(** X8. A product is lowered only with the register on the left:
    [dest = n * reg] takes the register for the count and fails in [int()];
    a product by zero is refused. *)
Theorem product_wants_the_register_first (dest n reg : string) (i : option Z) :
  word dest -> word n -> word reg ->
  startswith "R" n = false -> startswith "R" reg = true -> streq n dest = false ->
  streq reg dest = false ->
  operator2q1asm (operation dest n "*" reg) i = Raise ValueError
  /\ operator2q1asm (operation dest reg "*" "0") i = Raise NotImplementedError.
Proof.
  intros Wd Wn Wr Hn Hr Hnd Hrd. unfold operator2q1asm.
  rewrite !match_operator_operation
    by (assumption || reflexivity || (split; [reflexivity | discriminate])).
  cbv beta iota delta [or_raise bind]. unfold not_register.
  rewrite Hn, Hr. cbn [negb andb orb Ascii.eqb Bool.eqb startswith].
  rewrite Hnd, Hrd, (int_of_register _ Hr). split; reflexivity.
Qed.

Lemma product_wants_the_register_first_witness :
  operator2q1asm (operation "R3" "4" "*" "R2") (Some 0) = Raise ValueError.
Proof.
  apply (product_wants_the_register_first "R3" "4" "R2" (Some 0));
    try reflexivity; (split; [reflexivity | discriminate]).
Defined.

(** *** The marker macro *)

Definition bit (b : bool) : ascii := if b then "1"%char else "0"%char.

(** The line [set_mrk(t1t2t3t4=....)] for four trigger states. *)
Definition trigger_line (t1 t2 t3 t4 : bool) : string :=
  "set_mrk(t1t2t3t4=" +:+
  String (bit t1) (String (bit t2) (String (bit t3) (String (bit t4) ")"))).

(** X9. In [set_mrk(t1t2t3t4=....)] the first trigger is the lowest bit of
    the marker word written: the macro returns
    [set_mrk   t1 + 2 t2 + 4 t3 + 8 t4], for every choice of the four
    triggers, and its range check never fires. *)
Theorem set_mrk_reads_the_first_trigger_as_the_low_bit (t1 t2 t3 t4 : bool) :
  set_mrk (trigger_line t1 t2 t3 t4)
  = Ok ("set_mrk   " +:+ pretty (Z.b2z t1 + 2 * Z.b2z t2 + 4 * Z.b2z t3 + 8 * Z.b2z t4)).
Proof. destruct t1, t2, t3, t4; vm_compute; reflexivity. Qed.

End ConverterFacts.

(** ** The passes put together *)

Module PipelineFacts.
Import Py StringFacts Esr MarkerFacts WaveformFacts.

(** *** Counting *)

Lemma bind_assoc {A B C : Type} (r : result A) (f : A -> result B) (g : B -> result C) :
  bind (bind r f) g = bind r (fun a => bind (f a) g).
Proof. destruct r; reflexivity. Qed.

(** X14. Counting pulses composes over concatenation, errors included, and
    the count of a program lies between 0 and its number of lines. *)
Theorem count_play_adds_up (A B : list string) :
  q1asm_count_play (A ++ B)
  = (let* a := q1asm_count_play A in let* b := q1asm_count_play B in Ok (a + b))
  /\ match q1asm_count_play A with
     | Ok n => 0 <= n <= Z.of_nat (length A)
     | Raise _ => True
     end.
Proof.
  split.
  - induction A as [|l A IH]; cbn [app q1asm_count_play].
    + cbn [bind]. destruct (q1asm_count_play B); reflexivity.
    + destruct (q1asm_get_line_info l) as [[c nb]|]; [|reflexivity].
      cbv beta iota delta [bind]. rewrite IH.
      destruct (q1asm_count_play A) as [a|]; [|reflexivity].
      destruct (q1asm_count_play B) as [b|]; [|reflexivity].
      cbv beta iota. destruct (contains "play" c); f_equal; lia.
  - induction A as [|l A IH]; cbn [q1asm_count_play length]; [lia|].
    destruct (q1asm_get_line_info l) as [[c nb]|]; [|exact I].
    cbv beta iota delta [bind].
    destruct (q1asm_count_play A) as [a|]; [|exact I].
    cbv beta iota. destruct (contains "play" c); lia.
Qed.

(** *** The grid duration *)

Lemma grid_duration_from_add (prog : list string) : forall acc d,
  grid_duration_from (acc + d) prog
  = let* g := grid_duration_from acc prog in Ok (g + d).
Proof.
  induction prog as [|l prog IH]; intros acc d; cbn [grid_duration_from]; [reflexivity|].
  destruct (q1asm_get_line_info l) as [[c nb]|]; [|reflexivity].
  cbv beta iota delta [bind].
  destruct (q1asm_line_issimplewait c) as [w|]; [|reflexivity]. cbv beta iota.
  destruct (w || contains "upd_param" c);
    [destruct (Py.index nb 0) as [n0|]; [|reflexivity]|];
    cbv beta iota;
    (destruct (contains "play" c || contains "acquire" c);
     [destruct (Py.last_item nb) as [n1|]; [|reflexivity]|]);
    cbv beta iota; (etrans; [|apply IH]); f_equal; lia.
Qed.

Lemma grid_duration_shift (prog : list string) (acc : Z) :
  grid_duration_from acc prog = let* g := get_grid_duration prog in Ok (acc + g).
Proof.
  unfold get_grid_duration. replace acc with (0 + acc) at 1 by lia.
  rewrite grid_duration_from_add.
  destruct (grid_duration_from 0 prog); cbn [bind]; [f_equal; lia | reflexivity].
Qed.

(** X15. The grid duration of two programs put end to end is the sum of
    their grid durations, and an error in either is the error of the
    whole. *)
Theorem grid_duration_adds_up (A B : list string) :
  get_grid_duration (A ++ B)
  = let* a := get_grid_duration A in let* b := get_grid_duration B in Ok (a + b).
Proof.
  assert (forall acc, grid_duration_from acc (A ++ B)
                      = let* a := grid_duration_from acc A in grid_duration_from a B) as H.
  { induction A as [|l A IH]; intros acc; cbn [app grid_duration_from]; [reflexivity|].
    destruct (q1asm_get_line_info l) as [[c nb]|]; [|reflexivity].
    cbv beta iota delta [bind].
    destruct (q1asm_line_issimplewait c) as [w|]; [|reflexivity]. cbv beta iota.
    destruct (w || contains "upd_param" c);
      [destruct (Py.index nb 0) as [n0|]; [|reflexivity]|];
      cbv beta iota;
      (destruct (contains "play" c || contains "acquire" c);
       [destruct (Py.last_item nb) as [n1|]; [|reflexivity]|]);
      cbv beta iota; apply IH. }
  unfold get_grid_duration at 1. rewrite H.
  fold (get_grid_duration A). destruct (get_grid_duration A) as [a|]; [|reflexivity].
  cbv beta iota delta [bind]. apply grid_duration_shift.
Qed.

(** *** The validator *)

Lemma check_line_max (st st' : amp_scan) (l : string) :
  check_line st l = Ok st' -> amp_time_max st <= amp_time_max st'.
Proof.
  unfold check_line. intros H. ok_steps; cbn [amp_time_max amp amp_time] in *;
    repeat match goal with
    | |- context [if ?c then _ else _] => destruct c eqn:?
    end; lia.
Qed.

Lemma check_lines_max (prog : list string) : forall st st',
  check_lines st prog = Ok st' -> amp_time_max st <= amp_time_max st'.
Proof.
  induction prog as [|l prog IH]; intros st st' H.
  - injection H as <-. lia.
  - cbn [check_lines] in H. inv_bind H.
    pose proof (check_line_max _ _ _ Ha). pose proof (IH _ _ H). lia.
Qed.

(** X16. What the validator returns is a duration between 0 and
    [max_time - 1]: with [max_time <= 0] it accepts no program. *)
Theorem overtrigger_result_is_bounded (prog : list string) (max_time m : Z) :
  q1asm_check_amp_overtrigger prog max_time = Ok m -> 0 <= m < max_time.
Proof.
  unfold q1asm_check_amp_overtrigger. intros H. inv_bind H.
  destruct (amp a); [discriminate|]. inv_bind H. injection H as <-.
  apply check_lines_max in Ha. cbn [amp_time_max] in Ha.
  unfold assert in Ha0. destruct (_ <? _) eqn:E in Ha0; [|discriminate]. lia.
Qed.

Lemma overtrigger_result_is_bounded_witness : 0 <= 254 < 5000.
Proof.
  apply (overtrigger_result_is_bounded
           ["set_mrk   15"; "upd_param 250"; "play      5,3,4"; "set_mrk   3"] 5000 254).
  vm_compute. reflexivity.
Defined.

(** *** Long delays *)

Lemma transform_long_delay_from_none (prog : list string) : forall i,
  Forall (fun l => q1asm_line_issimplewait l = Ok false) prog ->
  transform_long_delay_from i prog = Ok prog.
Proof.
  induction prog as [|l prog IH]; intros i H; [reflexivity|].
  inversion H as [|? ? Hl Hrest]; subst. cbn [transform_long_delay_from].
  rewrite Hl. cbv beta iota delta [bind]. rewrite (IH i Hrest). reflexivity.
Qed.

(** X17. A program without a simple wait goes through the long-delay pass
    unchanged, its trailing blanks apart. *)
Theorem long_delay_leaves_other_lines (prog : list string) :
  Forall (fun l => q1asm_line_issimplewait l = Ok false) prog ->
  q1asm_transform_long_delay prog = Ok (rstrip_lines prog).
Proof.
  intros H. unfold q1asm_transform_long_delay.
  rewrite (transform_long_delay_from_none prog 0 H). reflexivity.
Qed.

Lemma long_delay_leaves_other_lines_witness :
  q1asm_transform_long_delay ["set_mrk   3"; "play      0,0,40"; "wait_sync 4"; "  "]
  = Ok ["set_mrk   3"; "play      0,0,40"; "wait_sync 4"].
Proof.
  apply (long_delay_leaves_other_lines
           ["set_mrk   3"; "play      0,0,40"; "wait_sync 4"; "  "]).
  repeat (apply List.Forall_cons; [vm_compute; reflexivity|]). apply List.Forall_nil.
Defined.

(** *** The lines of a delay *)

Import DelayFacts.

(** The lines that [q1asm_delay] may write, for a given loop index. *)
Definition delay_line (loop_index : Z) (l : string) : Prop :=
  (exists n, 4 <= n <= 65535 /\ l = "wait      " +:+ pretty n)
  \/ (exists c, 5 <= c /\ l = "move      " +:+ pretty c +:+ ",R1")
  \/ l = "loop_delay" +:+ pretty loop_index +:+ ":"
  \/ l = "loop      R1,@loop_delay" +:+ pretty loop_index.

Lemma delay_line_wait (i n : Z) : 4 <= n <= 65535 -> delay_line i ("wait      " +:+ pretty n).
Proof. intros H. left. exists n. split; [exact H | reflexivity]. Qed.

Definition remainder_lines (r : Z) : list string :=
  if r >? 0
  then if (0 <? r) && (r <? 4)
       then ["wait      " +:+ pretty 65531; "wait      " +:+ pretty (r + 4)]
       else ["wait      " +:+ pretty r]
  else [].

(** X18. For a delay of 4 or more, every wait that [q1asm_delay] writes
    lasts between 4 and 65535, a loop is counted 5 times or more, and there
    are at most 6 lines, however long the delay. *)
Theorem q1asm_delay_writes_legal_waits (delay loop_index : Z) :
  4 <= delay ->
  Forall (delay_line loop_index) (fst (q1asm_delay delay loop_index))
  /\ (length (fst (q1asm_delay delay loop_index)) <= 6)%nat.
Proof.
  intros Hd. destruct (Z.lt_ge_cases delay 65535) as [Hlt|Hge].
  - unfold q1asm_delay. replace (delay <? 65535) with true by lia. cbn [fst].
    rewrite rstrip_lines_solid
      by (constructor; [apply solid_end_wait with (n := delay), numeral_pretty | constructor]).
    split; [|cbn; lia]. constructor; [apply delay_line_wait; lia | constructor].
  - pose proof (q1asm_delay_long delay loop_index Hge) as H. cbv zeta in H.
    rewrite H. cbn [fst]. clear H.
    pose proof (Z.mod_pos_bound delay 65535 ltac:(lia)) as Hr.
    pose proof (Z.div_mod delay 65535 ltac:(lia)) as Hq.
    set (r := delay `mod` 65535) in *. set (q := delay `div` 65535) in *.
    set (k := if (0 <? r) && (r <? 4) then q - 1 else q).
    fold (remainder_lines r).
    assert (Forall (delay_line loop_index) (remainder_lines r)
            /\ (length (remainder_lines r) <= 2)%nat) as [Htail Hlen].
    { unfold remainder_lines.
      destruct (r >? 0) eqn:E0; [|split; [constructor | cbn; lia]].
      destruct ((0 <? r) && (r <? 4)) eqn:E4; (split; [|cbn; lia]).
      - constructor; [apply delay_line_wait; lia|].
        constructor; [apply delay_line_wait; lia | constructor].
      - constructor; [apply delay_line_wait; lia | constructor]. }
    destruct (k <? 5) eqn:Ek.
    + split.
      * apply Forall_app. split; [|exact Htail].
        apply Forall_replicate, delay_line_wait. lia.
      * rewrite length_app, length_replicate. lia.
    + split.
      * apply Forall_app. split; [|exact Htail].
        constructor; [right; left; exists k; split; [lia | reflexivity]|].
        constructor; [right; right; left; reflexivity|].
        constructor; [apply delay_line_wait; lia|].
        constructor; [right; right; right; reflexivity | constructor].
      * rewrite length_app. cbn [length]. lia.
Qed.

Lemma q1asm_delay_writes_legal_waits_witness :
  Forall (delay_line 1) (fst (q1asm_delay 65537 1)).
Proof. apply (q1asm_delay_writes_legal_waits 65537 1). lia. Defined.

(** *** The end of the program in the marker pass *)

Lemma twt_line_last_reduction (d : twt_delays) (wfm_nb : Z) (st st' : twt_state)
    (l : string) :
  wfm_counter st + 1 = wfm_nb -> mentions_play l = true -> pulse_if_play l ->
  twt_line d wfm_nb st l = Ok st' ->
  delay_reduction st'
  = (if amp_off_predelay d >? 4 then amp_off_predelay d else 0)
    + (if amp_off_postdelay d >? 4 then amp_off_postdelay d else 0)
    + (if switch_closed_postdelay d >? 4 then switch_closed_postdelay d else 0).
Proof.
  intros Hn Hm Hp H. unfold twt_line in H. inv_bind H. destruct a as [c nb].
  pose proof (info_clean _ _ _ Ha) as Hc.
  cbv beta iota zeta in H. rewrite (issimplewait_clean _ _ _ Ha), (Hp Hm) in H.
  cbv beta iota delta [bind] in H.
  unfold mentions_play in Hm. rewrite <- Hc in Hm. rewrite Hm in H.
  rewrite Hn, Z.eqb_refl in H. unfold assert in H.
  destruct (delay_reduction st =? 0) eqn:E; [|discriminate].
  injection H as <-. cbn [delay_reduction]. lia.
Qed.

(** X19. A program that ends on its last pulse is accepted by the marker
    pass only when no closing delay is asked for: when the pass returns, the
    delays before and after the amplifier is switched off and after the
    switch is closed are all 0. *)
Theorem a_pulse_at_the_end_leaves_no_room (d : twt_delays) (pre : list string)
    (pulse : string) (prog : list string) :
  q1asm_insert_twt_switch_markers (pre ++ [pulse]) d = Ok prog ->
  mentions_play pulse = true ->
  Forall pulse_if_play (pre ++ [pulse]) ->
  amp_off_predelay d = 0 /\ amp_off_postdelay d = 0 /\ switch_closed_postdelay d = 0.
Proof.
  intros H Hm Hp. apply Forall_app in Hp as [Hpre Hpulse].
  inversion Hpulse as [|? ? Hpulse' _]; subst.
  unfold q1asm_insert_twt_switch_markers in H.
  inv_bind H. rename Ha into Hdelays. do 3 inv_bind H. clear H.
  match goal with
  | Hc : q1asm_count_play _ = Ok _, Ht : twt_lines _ _ _ _ = Ok ?s,
    Hz : assert (delay_reduction ?s =? 0) _ = Ok _ |- _ =>
      rename Hc into Hcount; rename Ht into Htwt; rename Hz into Hzero
  end.
  rewrite twt_lines_app in Htwt. inv_bind Htwt.
  cbn [twt_lines] in Htwt. inv_bind Htwt. injection Htwt as <-.
  match goal with
  | H1 : twt_lines _ _ _ pre = Ok ?st1, H2 : twt_line _ _ ?st1 pulse = Ok _ |- _ =>
      rename H1 into Hst1; rename H2 into Hst2
  end.
  destruct (twt_lines_counter _ _ _ _ _ Hst1 Hpre) as (k & Hk & Ek).
  cbn [wfm_counter] in Ek.
  destruct (count_play_app _ _ _ _ Hcount Hk) as (b & Hb & ->).
  assert (b = 1) as ->.
  { cbn [q1asm_count_play] in Hb. ok_steps.
    match goal with
    | H1 : q1asm_get_line_info pulse = Ok _ |- _ => pose proof (info_clean _ _ _ H1) as ->
    end.
    unfold mentions_play in Hm. rewrite Hm. reflexivity. }
  rewrite Z.add_0_l in Ek. apply (f_equal (fun x => x + 1)) in Ek.
  pose proof (twt_line_last_reduction _ _ _ _ _ Ek Hm Hpulse' Hst2) as Hred.
  unfold assert in Hzero, Hdelays.
  destruct (delay_reduction _ =? 0) eqn:E0 in Hzero; [|discriminate].
  apply Z.eqb_eq in E0. rewrite Hred in E0.
  destruct (forallb delay_ok _) eqn:Ed in Hdelays; [|discriminate].
  cbn [forallb] in Ed. unfold delay_ok in Ed.
  repeat (apply andb_prop in Ed as [? Ed]).
  repeat match goal with
  | Hx : (_ =? 0) || (_ >? 4) = true |- _ => apply orb_prop in Hx
  end.
  destruct (amp_off_predelay d >? 4) eqn:E1, (amp_off_postdelay d >? 4) eqn:E2,
           (switch_closed_postdelay d >? 4) eqn:E3; lia.
Qed.

Definition no_delays : twt_delays :=
  {| switch_open_postdelay := 0; amp_on_postdelay := 0; amp_off_predelay := 0;
     amp_off_postdelay := 0; switch_closed_postdelay := 0 |}.

Lemma a_pulse_at_the_end_leaves_no_room_witness :
  amp_off_predelay no_delays = 0 /\ amp_off_postdelay no_delays = 0
  /\ switch_closed_postdelay no_delays = 0.
Proof.
  apply (a_pulse_at_the_end_leaves_no_room no_delays ["wait      100"] "play      0,0,40"
           ["wait      100"; "set_mrk   15"; "upd_param 0"; "play      0,0,40";
            "set_mrk   3"]).
  - vm_compute. reflexivity.
  - vm_compute. reflexivity.
  - cbn [app].
    repeat (apply List.Forall_cons;
            [first [ intros _; vm_compute; reflexivity
                   | intros H; vm_compute in H; discriminate H ]|]).
    apply List.Forall_nil.
Defined.

(** *** The waveform stage of the converter *)

Section Stage.
Context {FO : FloatOps} {CO : ChirpOps}.

Lemma long_waveforms_extends (h h' : heap) (simple_prog prog : list string)
    (waveforms wfms : loc) (step : Z) :
  q1asm_transform_long_waveforms h simple_prog waveforms step = Ok (h', prog, wfms) ->
  extends h h'.
Proof.
  unfold q1asm_transform_long_waveforms, fold_table. intros H.
  inv_bind H. destruct a as [[st w] names]. inv_bind Ha.
  destruct a as [hc wc]. cbv beta iota zeta in Ha. do 2 inv_bind Ha.
  match goal with p : (list string * gmap Z (string * Z))%type |- _ =>
    destruct p as [names' idxs] end.
  cbv beta iota zeta in Ha. inv_bind Ha. injection Ha as <- <- <-.
  match goal with
  | H1 : deepcopy h waveforms = Ok _, H2 : fold_waveforms _ _ _ _ = Ok ?s |- _ =>
      pose proof (fold_waveforms_copy_at h _ _ _ _ _ H2 (deepcopy_copy_at _ _ _ _ H1))
        as (Hext & _);
      assert (h' = fs_heap s) as ->
  end.
  { cbv beta iota zeta in H.
    destruct names'; [injection H as <- _ _ | inv_bind H; injection H as <- _ _];
      reflexivity. }
  exact Hext.
Qed.

Lemma chirp_key_differs (k : string) (idx : Z) :
  startswith "chirpsm" k = false -> streq ("chirpsm" +:+ pretty idx) k = false.
Proof.
  intros Hk. apply String.eqb_neq. intros <-.
  rewrite (startswith_app_l "chirpsm" "chirpsm" (pretty idx) eq_refl) in Hk. discriminate.
Qed.

Lemma chirp_lines_keep (gain : Z) (waveforms : loc) (k : string) (l : loc)
    (prog : list string) :
  startswith "chirpsm" k = false ->
  forall (h h' : heap) (idx : Z) (out : list string) (items : list (string * loc)),
  chirp_lines gain waveforms h idx prog = Ok (h', out) ->
  dicts h !! waveforms = Some items -> dict_get items k = Some l ->
  exists items', dicts h' !! waveforms = Some items' /\ dict_get items' k = Some l.
Proof.
  intros Hk. induction prog as [|line prog IH]; intros h h' idx out items H Hitems Hl.
  - injection H as <- <-. eauto.
  - cbn [chirp_lines] in H. inv_bind H. destruct a as [[h1 block] idx1].
    cbv beta iota zeta in H. inv_bind H. destruct a as [h2 out2]. injection H as <- <-.
    assert (exists items1, dicts h1 !! waveforms = Some items1
                           /\ dict_get items1 k = Some l) as (items1 & H1 & H2).
    { unfold chirp_line in Ha. destruct (startswith "play_lg_chirp" line).
      2:{ injection Ha as <- _ _. eauto. }
      inv_bind Ha. destruct a as [c nb]. cbv beta iota zeta in Ha. do 4 inv_bind Ha.
      destruct (_ <? 0) in Ha; [discriminate|]. do 2 inv_bind Ha.
      destruct (negb _) in Ha; [discriminate|]. destruct (negb _) in Ha; [discriminate|].
      do 3 inv_bind Ha. unfold alloc_entry in Ha. cbv beta iota zeta in Ha.
      injection Ha as <- _ _. cbn [write_dict dicts].
      unfold dict_at in *. rewrite Hitems in *.
      match goal with Hx : or_raise SystemError (Some items) = Ok _ |- _ =>
        injection Hx as <- end.
      eexists. split; [apply lookup_insert_eq|].
      rewrite dict_get_set_ne by (apply chirp_key_differs, Hk). exact Hl. }
    exact (IH _ _ _ _ _ Ha0 H1 H2).
Qed.

(** X20. The waveform stage of [simple2real_Q1ASM] gives the long-chirp
    pass the caller's table, not the folded copy: the table it returns is the
    caller's own, and every waveform of it whose name does not start with
    [chirpsm] is bound to the same entry with all the samples it had before
    the call, whatever was folded in the program. *)
Theorem the_stage_returns_the_table_unfolded (h h' : heap) (prog prog' : list string)
    (waveforms wfms : loc) (items : list (string * loc)) :
  waveform_stage h prog waveforms = Ok (h', prog', wfms) ->
  dicts h !! waveforms = Some items ->
  wfms = waveforms
  /\ forall (k : string) (l : loc) (w : wfm),
       dict_get items k = Some l -> entries h !! l = Some w ->
       startswith "chirpsm" k = false ->
       exists items', dicts h' !! wfms = Some items'
                      /\ dict_get items' k = Some l /\ entries h' !! l = Some w.
Proof.
  unfold waveform_stage. intros H Hitems.
  inv_bind H. destruct a as [[h1 prog1] copy]. cbv beta iota zeta in H.
  inv_bind H. destruct a as [[h2 prog2] w2]. injection H as <- _ <-.
  destruct (long_waveforms_extends _ _ _ _ _ _ _ Ha) as [Hd He].
  unfold q1asm_transform_long_chirps in Ha0. do 2 inv_bind Ha0.
  destruct a0 as [h3 out]. injection Ha0 as <- _ <-.
  match goal with
  | Hc : chirp_lines _ _ _ _ _ = Ok _ |- _ =>
      destruct (chirp_lines_effect h1 _ _ _ _ _ _ _ Hc ltac:(reflexivity)) as (Hs & _);
      rename Hc into Hchirp
  end.
  split; [reflexivity|]. intros k l w Hk Hw Hname.
  pose proof (lookup_weaken _ _ _ _ Hitems Hd) as Hitems1.
  destruct (chirp_lines_keep _ _ k l _ Hname _ _ _ _ _ Hchirp Hitems1 Hk)
    as (items' & H1 & H2).
  exists items'. split; [exact H1|]. split; [exact H2|].
  apply (lookup_weaken _ _ _ _ Hw). etrans; [exact He | exact Hs].
Qed.

End Stage.

#[local] Existing Instance Binary64.binary64.
#[local] Existing Instance chirps64.

(** 1003 samples played once: the program returned loops 31 times over 32
    samples and plays 11 more, and the table returned still has the 1003
    samples under the same index. *)
Lemma the_stage_returns_the_table_unfolded_witness :
  match waveform_stage (one_waveform 1003) ["play      0,0,1003"] 0%nat with
  | Ok (h', prog', wfms) =>
      prog' = ["move      31,R2"; "loop_play1:"; "play      0,0,32";
               "loop      R2,@loop_play1"; "play      1023,1023,11"; "stop"]
      /\ exists items', dicts h' !! wfms = Some items'
                        /\ dict_get items' "square" = Some 0%nat
                        /\ entries h' !! 0%nat = Some (square 1003)
  | Raise _ => False
  end.
Proof.
  destruct (waveform_stage _ _ _) as [[[h' prog'] wfms]|e] eqn:E.
  - pose proof (the_stage_returns_the_table_unfolded _ _ _ _ _ _ [("square", 0%nat)]
                  E eq_refl) as [_ H].
    split; [vm_compute in E; injection E as _ <- _; reflexivity|].
    apply H; reflexivity.
  - vm_compute in E. discriminate E.
Defined.

(** *** Binary marker words *)

Definition bit_char (b : bool) : ascii := if b then "1"%char else "0"%char.

(** The line [set_mrk   m4m3m2m1] written with four binary digits. *)
Definition marker_word (m4 m3 m2 m1 : bool) : string :=
  "set_mrk   " +:+
  String (bit_char m4) (String (bit_char m3) (String (bit_char m2)
    (String (bit_char m1) EmptyString))).

(** X21. A marker written with four binary digits is read with its first
    digit as the highest bit ([0100] becomes [set_mrk   4]); the line written
    is left alone by a second run of the pass; a marker argument of three
    characters is refused, and one of one or two characters is kept as it
    is. *)
Theorem convert_markers_reads_the_first_digit_as_the_high_bit (m4 m3 m2 m1 : bool) :
  q1asm_convert_markers [marker_word m4 m3 m2 m1]
  = Ok ["set_mrk   " +:+ pretty (8 * Z.b2z m4 + 4 * Z.b2z m3 + 2 * Z.b2z m2 + Z.b2z m1)]
  /\ q1asm_convert_markers
       ["set_mrk   " +:+ pretty (8 * Z.b2z m4 + 4 * Z.b2z m3 + 2 * Z.b2z m2 + Z.b2z m1)]
     = Ok ["set_mrk   " +:+ pretty (8 * Z.b2z m4 + 4 * Z.b2z m3 + 2 * Z.b2z m2 + Z.b2z m1)]
  /\ q1asm_convert_markers ["set_mrk   R10"]
     = Raise (AssertionError "marker binary command should have a length of 4.")
  /\ q1asm_convert_markers ["set_mrk   -111"]
     = Raise (AssertionError "binary command not correctly converted to 0 <= int <= 15.").
Proof. destruct m4, m3, m2, m1; repeat split; vm_compute; reflexivity. Qed.

End PipelineFacts.

(** ** Delays on the emulator *)

Module RunFacts.
Import Py StringFacts Emu.

Section Run.
Context {FO : FloatOps}.

(** *** One line *)

(** The loop of [run] on a line whose clean text and tokens are known. *)
Lemma step_line_tokens (line clean p0 : string) (rest : list string) (numbers : list Z)
    (s : state) :
  q1asm_get_line_info (strip line) = Ok (clean, numbers) ->
  split clean = p0 :: rest ->
  step_line line s
  = (let '(s1, parts) :=
       if endswith_char ":" p0
       then (set_labels (insert (drop_last p0) (pc s)) s, rest)
       else (s, p0 :: rest) in
     match parts with
     | [] => Ok (next s1, false)
     | instruction :: _ => exec instruction parts numbers s1
     end).
Proof.
  intros Hinfo Hsplit. unfold step_line. rewrite Hinfo. cbv beta iota delta [bind].
  destruct clean as [|c r]; [discriminate Hsplit|].
  rewrite Hsplit. reflexivity.
Qed.

Lemma strip_solid_end (l : string) (c : ascii) (r : string) :
  solid_end l -> l = String c r -> isspace c = false -> strip l = l.
Proof.
  intros [Hr _] -> Hc. unfold strip. rewrite Hr. cbn [lstrip]. rewrite Hc. reflexivity.
Qed.

Section Lines.
Variables (t : string) (n : Z).
Hypothesis Ht : numeral t n.

Definition delay_wait : string := "wait      " +:+ t.
Definition delay_move : string := "move      " +:+ t +:+ ",R1".
Definition delay_label : string := "loop_delay" +:+ t +:+ ":".
Definition delay_loop : string := "loop      R1,@loop_delay" +:+ t.

Lemma strip_wait : strip delay_wait = delay_wait.
Proof.
  apply (strip_solid_end _ "w" ("ait      " +:+ t)); [|reflexivity|reflexivity].
  apply solid_end_app. eapply numeral_solid; eassumption.
Qed.

Lemma tokens_wait : split delay_wait = ["wait"; t].
Proof.
  unfold delay_wait.
  change ("wait      " +:+ t) with ("wait" +:+ String " " ("     " +:+ t)).
  rewrite split_word by (reflexivity || apply solid_literal; reflexivity).
  rewrite split_blanks by reflexivity.
  rewrite split_solid by (eapply numeral_solid; eassumption). reflexivity.
Qed.

Lemma info_wait_line : q1asm_get_line_info delay_wait = Ok (delay_wait, [n]).
Proof.
  unfold q1asm_get_line_info.
  rewrite before_char_absent by (unfold delay_wait; chars).
  rewrite replace_char_absent by (unfold delay_wait; chars).
  rewrite tokens_wait, strip_wait.
  rewrite numbers_of_word by reflexivity.
  rewrite (numbers_of_numeral t n) by exact Ht. reflexivity.
Qed.

Lemma step_wait (s : state) :
  step_line delay_wait s
  = let* s' := advance_time n s in Ok (next s', false).
Proof.
  rewrite (step_line_tokens delay_wait delay_wait "wait" [t] [n]);
    [| rewrite strip_wait; exact info_wait_line | exact tokens_wait].
  reflexivity.
Qed.

Lemma strip_move : strip delay_move = delay_move.
Proof.
  apply (strip_solid_end _ "m" ("ove      " +:+ t +:+ ",R1")); [|reflexivity|reflexivity].
  unfold delay_move. rewrite <- str_app_assoc. apply solid_end_app.
  apply solid_literal. reflexivity.
Qed.

Definition move_clean : string := "move      " +:+ t +:+ " R1".

Lemma tokens_move : split move_clean = ["move"; t; "R1"].
Proof.
  unfold move_clean.
  change ("move      " +:+ t +:+ " R1")
    with ("move" +:+ String " " ("     " +:+ t +:+ String " " "R1")).
  rewrite split_word by (reflexivity || apply solid_literal; reflexivity).
  rewrite split_blanks by reflexivity.
  rewrite split_word by (reflexivity || eapply numeral_solid; eassumption).
  reflexivity.
Qed.

Lemma info_move_line : q1asm_get_line_info delay_move = Ok (move_clean, [n]).
Proof.
  unfold q1asm_get_line_info.
  rewrite before_char_absent by (unfold delay_move; chars).
  unfold delay_move.
  rewrite !replace_char_app, (replace_char_absent _ _ t) by chars.
  change (replace_char "," " " "move      " +:+ t +:+ replace_char "," " " ",R1")
    with move_clean.
  rewrite tokens_move.
  rewrite numbers_of_word by reflexivity.
  rewrite (numbers_of_numeral t n) by exact Ht.
  change (numbers_of ["R1"]) with (Ok (@nil Z)). cbn [bind].
  assert (strip move_clean = move_clean) as ->; [|reflexivity].
  apply (strip_solid_end _ "m" ("ove      " +:+ t +:+ " R1")); [|reflexivity|reflexivity].
  replace move_clean with (("move      " +:+ t +:+ " ") +:+ "R1")
    by (unfold move_clean; rewrite !str_app_assoc; reflexivity).
  apply solid_end_app, solid_literal. reflexivity.
Qed.

Lemma step_move (s : state) :
  step_line delay_move s
  = if n >? 2 ^ 32 - 1 then Raise (Exception "Registars can only store 32 bit integers")
    else if (64 <? size (<["R1" := n]> (registers s)))%nat
         then Raise (Exception "Registar locations only in range 0 to 63")
         else Ok (next (set_registers (insert "R1" n) s), false).
Proof.
  rewrite (step_line_tokens delay_move move_clean "move" [t; "R1"] [n]);
    [| rewrite strip_move; exact info_move_line | exact tokens_move].
  reflexivity.
Qed.

Lemma solid_delay_label : solid delay_label.
Proof. split; [unfold delay_label; chars | discriminate]. Qed.

Lemma strip_label : strip delay_label = delay_label.
Proof.
  unfold strip. rewrite (rstrip_solid _ (proj1 solid_delay_label)).
  apply lstrip_solid, solid_delay_label.
Qed.

Lemma info_label_line : q1asm_get_line_info delay_label = Ok (delay_label, []).
Proof.
  unfold q1asm_get_line_info.
  rewrite before_char_absent by (unfold delay_label; chars).
  rewrite replace_char_absent by (unfold delay_label; chars).
  rewrite split_solid by apply solid_delay_label.
  rewrite numbers_of_word by reflexivity. rewrite strip_label. reflexivity.
Qed.

Lemma drop_last_colon (x : string) : drop_last (x +:+ ":") = x.
Proof.
  induction x as [|c x IH]; [reflexivity|].
  rewrite str_app_cons. cbn [drop_last]. rewrite IH.
  destruct (x +:+ ":") eqn:E; [|reflexivity].
  exfalso. revert E. apply str_app_nonempty. discriminate.
Qed.

Definition label_name : string := "loop_delay" +:+ t.

Lemma step_label (s : state) :
  step_line delay_label s
  = Ok (next (set_labels (insert label_name (pc s)) s), false).
Proof.
  rewrite (step_line_tokens delay_label delay_label delay_label [] []);
    [| rewrite strip_label; exact info_label_line
     | apply split_solid, solid_delay_label].
  assert (endswith_char ":" delay_label = true) as ->.
  { unfold delay_label. rewrite <- str_app_assoc.
    rewrite endswith_char_app by discriminate. reflexivity. }
  unfold delay_label at 1. rewrite <- str_app_assoc, drop_last_colon. reflexivity.
Qed.

Definition loop_clean : string := "loop      R1 @loop_delay" +:+ t.

Lemma tokens_loop : split loop_clean = ["loop"; "R1"; "@loop_delay" +:+ t].
Proof.
  unfold loop_clean.
  change ("loop      R1 @loop_delay" +:+ t)
    with ("loop" +:+ String " " ("     " +:+ "R1" +:+ String " " ("@loop_delay" +:+ t))).
  rewrite split_word by (reflexivity || apply solid_literal; reflexivity).
  rewrite split_blanks by reflexivity.
  rewrite split_word by (reflexivity || apply solid_literal; reflexivity).
  rewrite split_solid by (split; [chars | discriminate]). reflexivity.
Qed.

Lemma solid_end_loop (x : string) : solid_end (x +:+ t).
Proof. apply solid_end_app. eapply numeral_solid; eassumption. Qed.

Lemma info_loop_line : q1asm_get_line_info delay_loop = Ok (loop_clean, []).
Proof.
  unfold q1asm_get_line_info.
  rewrite before_char_absent by (unfold delay_loop; chars).
  unfold delay_loop.
  rewrite replace_char_app, (replace_char_absent _ _ t) by chars.
  change (replace_char "," " " "loop      R1,@loop_delay" +:+ t) with loop_clean.
  rewrite tokens_loop. rewrite !numbers_of_word by reflexivity.
  assert (strip loop_clean = loop_clean) as ->; [|reflexivity].
  apply (strip_solid_end _ "l" ("oop      R1 @loop_delay" +:+ t));
    [apply solid_end_loop | reflexivity | reflexivity].
Qed.

Lemma step_loop (s : state) :
  step_line delay_loop s
  = (let s1 := set_registers (insert "R1" (reg_get s "R1" - 1)) s in
     if reg_get s1 "R1" >? 0
     then let* target := label_at s1 label_name in Ok (set_pc target s1, false)
     else Ok (next s1, false)).
Proof.
  rewrite (step_line_tokens delay_loop loop_clean "loop" ["R1"; "@loop_delay" +:+ t] []);
    [| | exact tokens_loop].
  - reflexivity.
  - assert (strip delay_loop = delay_loop) as ->; [|exact info_loop_line].
    apply (strip_solid_end _ "l" ("oop      R1,@loop_delay" +:+ t));
      [apply solid_end_loop | reflexivity | reflexivity].
Qed.

End Lines.
(** *** Runs *)

(** Where the loop stands: program counter, registers, labels and clock,
    with no acquisition under way and the gains at their default. *)
Definition stands (s : state) (p : nat) (r : gmap string Z) (lb : gmap string nat)
    (tm : Z) : Prop :=
  pc s = p /\ registers s = r /\ labels s = lb /\ timing s = tm
  /\ acquire s = false /\ awg_gain_I s = 0 /\ awg_gain_Q s = 0.

Variable g : flt.
Hypothesis Hg : convert_gain 0 = Ok g.

Lemma ticks_stands (k : nat) (G_I G_Q : flt) : forall s p r lb tm,
  stands s p r lb tm ->
  exists s', ticks k G_I G_Q s = Ok s' /\ stands s' p r lb (tm + Z.of_nat k).
Proof.
  induction k as [|k IH]; intros s p r lb tm Hs.
  - exists s. split; [reflexivity|]. replace (tm + Z.of_nat 0) with tm by lia. exact Hs.
  - destruct Hs as (H1 & H2 & H3 & H4 & H5 & H6 & H7).
    cbn [ticks]. unfold tick. rewrite H5. cbv beta iota zeta delta [bind].
    match goal with
    | |- exists s', ticks k G_I G_Q ?x = Ok s' /\ _ =>
        destruct (IH x p r lb (tm + 1)) as (s' & E & Hs');
        [repeat split; cbn [record_sample pc registers labels timing acquire
                            awg_gain_I awg_gain_Q]; try assumption; lia|]
    end.
    exists s'. split; [exact E|].
    replace (tm + Z.of_nat (S k)) with (tm + 1 + Z.of_nat k) by lia. exact Hs'.
Qed.

Lemma advance_stands (d : Z) (s : state) p r lb tm :
  stands s p r lb tm ->
  exists s', advance_time d s = Ok s' /\ stands s' p r lb (tm + Z.max 0 d).
Proof.
  intros Hs. pose proof Hs as (_ & _ & _ & _ & _ & H6 & H7).
  unfold advance_time. rewrite H6, H7, Hg. cbv beta iota delta [bind].
  destruct (ticks_stands (Z.to_nat d) g g s p r lb tm Hs) as (s' & E & Hs').
  exists s'. split; [exact E|].
  replace (tm + Z.max 0 d) with (tm + Z.of_nat (Z.to_nat d)) by lia. exact Hs'.
Qed.

Lemma run_wait (lines : list string) (t : string) (n : Z) (s : state) p r lb tm :
  numeral t n -> nth_error lines p = Some (delay_wait t) -> stands s p r lb tm ->
  exists s', step lines s = Running s' /\ stands s' (S p) r lb (tm + Z.max 0 n).
Proof.
  intros Ht Hl Hs. unfold step. rewrite (proj1 Hs), Hl, (step_wait t n Ht).
  destruct (advance_stands n s p r lb tm Hs) as (s1 & -> & H1 & H2 & H3 & H4 & H5).
  cbv beta iota delta [bind]. eexists. split; [reflexivity|].
  repeat split; cbn [next set_pc pc registers labels timing acquire awg_gain_I awg_gain_Q];
    try tauto. f_equal. exact H1.
Qed.

Lemma run_move (lines : list string) (t : string) (n : Z) (s : state) p r lb tm :
  numeral t n -> nth_error lines p = Some (delay_move t) -> stands s p r lb tm ->
  n <= 2 ^ 32 - 1 -> is_Some (r !! "R1") -> (size r <= 64)%nat ->
  exists s', step lines s = Running s' /\ stands s' (S p) (<["R1" := n]> r) lb tm.
Proof.
  intros Ht Hl Hs Hn [v Hv] Hsize. unfold step. rewrite (proj1 Hs), Hl, (step_move t n Ht).
  destruct Hs as (H1 & H2 & H3 & H4 & H5).
  replace (n >? 2 ^ 32 - 1) with false by lia.
  rewrite H2, map_size_insert_Some by (exists v; exact Hv).
  replace (64 <? size r)%nat with false by (symmetry; apply Nat.ltb_ge; exact Hsize).
  eexists. split; [reflexivity|].
  repeat split; cbn [next set_pc set_registers pc registers labels timing acquire
                     awg_gain_I awg_gain_Q]; try tauto; congruence.
Qed.

Lemma run_label (lines : list string) (t : string) (n : Z) (s : state) p r lb tm :
  numeral t n -> nth_error lines p = Some (delay_label t) -> stands s p r lb tm ->
  exists s', step lines s = Running s'
             /\ stands s' (S p) r (<[label_name t := p]> lb) tm.
Proof.
  intros Ht Hl Hs. unfold step. rewrite (proj1 Hs), Hl, (step_label t n Ht).
  destruct Hs as (H1 & H2 & H3 & H4 & H5).
  eexists. split; [reflexivity|].
  repeat split; cbn [next set_pc set_labels pc registers labels timing acquire
                     awg_gain_I awg_gain_Q]; try tauto; congruence.
Qed.

Lemma run_loop (lines : list string) (t : string) (n : Z) (s : state) p r lb tm
    (v : Z) (target : nat) :
  numeral t n -> nth_error lines p = Some (delay_loop t) -> stands s p r lb tm ->
  r !! "R1" = Some v -> lb !! label_name t = Some target ->
  exists s', step lines s = Running s'
             /\ stands s' (if v - 1 >? 0 then target else S p) (<["R1" := v - 1]> r) lb tm.
Proof.
  intros Ht Hl Hs Hv Hlb. unfold step. rewrite (proj1 Hs), Hl, (step_loop t n Ht).
  destruct Hs as (H1 & H2 & H3 & H4 & H5). cbv zeta.
  unfold reg_get, label_at. cbn [set_registers registers labels].
  rewrite H2, Hv, lookup_insert_eq, H3, Hlb. cbn [default or_raise]. unfold id.
  destruct (v - 1 >? 0); cbv beta iota delta [bind];
    (eexists; split; [reflexivity|]);
    repeat split; cbn [next set_pc set_registers pc registers labels timing acquire
                       awg_gain_I awg_gain_Q]; try tauto; congruence.
Qed.

Lemma steps_add (lines : list string) (a b : nat) : forall s s1,
  steps a lines s = Running s1 -> steps (a + b) lines s = steps b lines s1.
Proof.
  induction a as [|a IH]; intros s s1 H; cbn [steps Nat.add] in *.
  - injection H as <-. reflexivity.
  - destruct (step lines s) as [s'| |]; try discriminate. exact (IH _ _ H).
Qed.

Lemma steps_one (lines : list string) (s s1 : state) :
  step lines s = Running s1 -> steps 1 lines s = Running s1.
Proof. intros H. cbn [steps]. rewrite H. reflexivity. Qed.

(** The lines of [block] stand in [lines] from index [p] on. *)
Definition placed (lines : list string) (p : nat) (block : list string) : Prop :=
  forall j l, nth_error block j = Some l -> nth_error lines (p + j) = Some l.

Lemma placed_head lines p l block : placed lines p (l :: block) -> nth_error lines p = Some l.
Proof. intros H. rewrite <- (Nat.add_0_r p). apply H. reflexivity. Qed.

Lemma placed_tail lines p l block : placed lines p (l :: block) -> placed lines (S p) block.
Proof.
  intros H j x Hx. replace (S p + j)%nat with (p + S j)%nat by lia. apply H. exact Hx.
Qed.

Lemma placed_app lines p A B :
  placed lines p (A ++ B) -> placed lines p A /\ placed lines (p + length A) B.
Proof.
  intros H. split; intros j x Hx.
  - apply H. rewrite nth_error_app1; [exact Hx|]. apply nth_error_Some. congruence.
  - rewrite <- Nat.add_assoc. apply H. rewrite nth_error_app2 by lia.
    replace (length A + j - length A)%nat with j by lia. exact Hx.
Qed.

Lemma placed_whole lines : placed lines 0 lines.
Proof. intros j l H. exact H. Qed.

Definition sum (ns : list Z) : Z := foldr Z.add 0 ns.

(** A block of waits takes the sum of its waits. *)
Lemma run_waits (lines : list string) (ns : list Z) : forall s p r lb tm,
  placed lines p ((fun n => delay_wait (pretty n)) <$> ns) ->
  Forall (fun n => 0 <= n) ns ->
  stands s p r lb tm ->
  exists s', steps (length ns) lines s = Running s'
             /\ stands s' (p + length ns) r lb (tm + sum ns).
Proof.
  induction ns as [|n ns IH]; intros s p r lb tm Hp Hpos Hs.
  - exists s. split; [reflexivity|]. cbn [length sum foldr].
    replace (p + 0)%nat with p by lia. replace (tm + 0) with tm by lia. exact Hs.
  - inversion Hpos as [|? ? Hn Hpos']; subst. cbn [fmap list_fmap] in Hp.
    destruct (run_wait lines _ n s p r lb tm (numeral_pretty n) (placed_head _ _ _ _ Hp) Hs)
      as (s1 & E1 & H1).
    destruct (IH s1 (S p) r lb _ (placed_tail _ _ _ _ Hp) Hpos' H1) as (s2 & E2 & H2).
    exists s2. split.
    + change (length (n :: ns)) with (1 + length ns)%nat.
      rewrite (steps_add _ 1 _ _ _ (steps_one _ _ _ E1)). exact E2.
    + cbn [length sum foldr]. fold (sum ns).
      replace (p + S (length ns))%nat with (S p + length ns)%nat by lia.
      replace (tm + (n + sum ns)) with (tm + Z.max 0 n + sum ns) by lia. exact H2.
Qed.

Lemma steps_three (lines : list string) (s s1 s2 s3 : state) :
  step lines s = Running s1 -> step lines s1 = Running s2 -> step lines s2 = Running s3 ->
  steps 3 lines s = Running s3.
Proof. intros H1 H2 H3. cbn [steps]. rewrite H1, H2, H3. reflexivity. Qed.

(** The counted loop around a full-size wait: [j] turns take [65535 j]. *)
Lemma run_counted_loop (lines : list string) (i : Z) (q : nat) (r0 : gmap string Z) :
  placed lines q [delay_label (pretty i); delay_wait (pretty 65535);
                  delay_loop (pretty i)] ->
  forall (j : nat) s lb tm,
  stands s q (<["R1" := Z.of_nat (S j)]> r0) lb tm ->
  exists s', steps (3 * S j) lines s = Running s'
             /\ stands s' (q + 3) (<["R1" := 0]> r0) (<[label_name (pretty i) := q]> lb)
                       (tm + 65535 * Z.of_nat (S j)).
Proof.
  intros Hp.
  pose proof (placed_head _ _ _ _ Hp) as Hl0.
  pose proof (placed_head _ _ _ _ (placed_tail _ _ _ _ Hp)) as Hl1.
  pose proof (placed_head _ _ _ _ (placed_tail _ _ _ _ (placed_tail _ _ _ _ Hp))) as Hl2.
  induction j as [|j IH]; intros s lb tm Hs.
  - destruct (run_label lines _ i s _ _ _ _ (numeral_pretty i) Hl0 Hs) as (s1 & E1 & H1).
    destruct (run_wait lines _ 65535 s1 _ _ _ _ (numeral_pretty 65535) Hl1 H1)
      as (s2 & E2 & H2).
    destruct (run_loop lines _ i s2 _ _ _ _ 1 q (numeral_pretty i) Hl2 H2)
      as (s3 & E3 & H3); [apply lookup_insert_eq | apply lookup_insert_eq |].
    exists s3. split; [exact (steps_three _ _ _ _ _ E1 E2 E3)|].
    cbn [Z.sub Z.gtb Z.compare Z.opp Z.add Z.pos_sub] in H3.
    rewrite insert_insert_eq in H3.
    replace (q + 3)%nat with (S (S (S q))) by lia.
    replace (tm + 65535 * Z.of_nat 1) with (tm + Z.max 0 65535) by lia. exact H3.
  - destruct (run_label lines _ i s _ _ _ _ (numeral_pretty i) Hl0 Hs) as (s1 & E1 & H1).
    destruct (run_wait lines _ 65535 s1 _ _ _ _ (numeral_pretty 65535) Hl1 H1)
      as (s2 & E2 & H2).
    destruct (run_loop lines _ i s2 _ _ _ _ (Z.of_nat (S (S j))) q (numeral_pretty i) Hl2 H2)
      as (s3 & E3 & H3); [apply lookup_insert_eq | apply lookup_insert_eq |].
    replace (Z.of_nat (S (S j)) - 1) with (Z.of_nat (S j)) in H3 by lia.
    replace (Z.of_nat (S j) >? 0) with true in H3
      by (symmetry; apply Z.gtb_lt; lia).
    rewrite insert_insert_eq in H3.
    destruct (IH s3 _ _ H3) as (s4 & E4 & H4).
    exists s4. split.
    + replace (3 * S (S j))%nat with (3 + 3 * S j)%nat by lia.
      rewrite (steps_add _ 3 _ _ _ (steps_three _ _ _ _ _ E1 E2 E3)). exact E4.
    + rewrite insert_insert_eq in H4.
      replace (tm + 65535 * Z.of_nat (S (S j)))
        with (tm + Z.max 0 65535 + 65535 * Z.of_nat (S j)) by lia.
      exact H4.
Qed.

Lemma steps_halt (lines : list string) (a : nat) (s s1 : state) :
  steps a lines s = Running s1 -> pc s1 = length lines ->
  steps (a + 1) lines s = Halted s1.
Proof.
  intros H Hpc. rewrite (steps_add _ _ _ _ _ H). cbn [steps]. unfold step.
  replace (nth_error lines (pc s1)) with (@None string); [reflexivity|].
  symmetry. apply nth_error_None. lia.
Qed.

Lemma sum_app (a b : list Z) : sum (a ++ b) = sum a + sum b.
Proof. induction a as [|x a IH]; cbn [app sum foldr] in *; [reflexivity|]. fold (sum (a ++ b)). fold (sum a). lia. Qed.

Lemma sum_replicate (k : nat) (x : Z) : sum (replicate k x) = Z.of_nat k * x.
Proof. induction k as [|k IH]; cbn [replicate sum foldr] in *; [lia|]. fold (sum (replicate k x)). lia. Qed.

(** *** The lines of a delay *)

Definition wait_lines (ns : list Z) : list string :=
  (fun n => delay_wait (pretty n)) <$> ns.

(** The waits that follow the full-size ones. *)
Definition delay_tail (r : Z) : list Z :=
  if r >? 0 then if (0 <? r) && (r <? 4) then [65531; r + 4] else [r] else [].

Lemma delay_lines (delay i : Z) :
  65535 <= delay ->
  let r := delay `mod` 65535 in
  let k := if (0 <? r) && (r <? 4) then delay `div` 65535 - 1 else delay `div` 65535 in
  fst (Esr.q1asm_delay delay i)
  = (if k <? 5 then wait_lines (replicate (Z.to_nat k) 65535)
     else [delay_move (pretty k); delay_label (pretty i);
           delay_wait (pretty 65535); delay_loop (pretty i)])
    ++ wait_lines (delay_tail (delay `mod` 65535)).
Proof.
  intros H. rewrite (DelayFacts.q1asm_delay_long delay i H). cbv zeta. cbn [fst].
  unfold delay_tail, wait_lines. f_equal.
  - destruct (_ <? 5); [rewrite fmap_replicate; reflexivity | reflexivity].
  - destruct (_ >? 0); [destruct (_ && _)|]; reflexivity.
Qed.

Lemma run_all_waits (ns : list Z) (s0 : state) r lb :
  Forall (fun n => 0 <= n) ns -> stands s0 0 r lb 0 ->
  exists s, steps (length ns + 1) (wait_lines ns) s0 = Halted s /\ timing s = sum ns.
Proof.
  intros Hpos Hs.
  destruct (run_waits (wait_lines ns) ns s0 0 r lb 0 (placed_whole _) Hpos Hs)
    as (s1 & E1 & H1).
  exists s1. split.
  - apply (steps_halt _ _ _ _ E1). rewrite (proj1 H1). unfold wait_lines.
    rewrite length_fmap. reflexivity.
  - destruct H1 as (_ & _ & _ & -> & _). lia.
Qed.

(** X22. The lines that [q1asm_delay] writes for a delay, run by the
    emulator from its initial state, end with the clock at exactly that
    delay: the loop of [run] leaves after finitely many iterations.  This
    holds for every delay from 0 up to the largest one whose loop count fits
    the 32 bits that [move] accepts. *)
Theorem a_delay_lasts_its_delay (delay i : Z) :
  0 <= delay -> delay `div` 65535 <= 2 ^ 32 - 1 ->
  exists fuel s,
    emulate fuel (EmuFacts.bare (fst (Esr.q1asm_delay delay i))) = Halted s
    /\ timing s = delay.
Proof.
  intros Hd Hbound.
  assert (forall lines, exists s0,
             init (EmuFacts.bare lines) = Ok s0
             /\ stands s0 0 initial_registers (detect_labels lines) 0) as Hinit.
  { intros lines. eexists. split; [reflexivity|]. repeat split; reflexivity. }
  unfold emulate.
  destruct (Z.lt_ge_cases delay 65535) as [Hlt|Hge].
  - assert (fst (Esr.q1asm_delay delay i) = wait_lines [delay]) as ->.
    { unfold Esr.q1asm_delay. replace (delay <? 65535) with true by lia.
      cbn [fst]. apply rstrip_lines_solid.
      constructor; [|constructor]. apply solid_end_app.
      apply (numeral_solid _ delay), numeral_pretty. }
    destruct (Hinit (wait_lines [delay])) as (s0 & -> & Hs0).
    destruct (run_all_waits [delay] s0 _ _ ltac:(repeat constructor; lia) Hs0)
      as (s & E & Ht).
    exists (length [delay] + 1)%nat, s. split; [exact E|]. rewrite Ht. cbn. lia.
  - pose proof (delay_lines delay i Hge) as Hlines. cbv zeta in Hlines.
    pose proof (Z.mod_pos_bound delay 65535 ltac:(lia)) as Hr.
    pose proof (Z.div_mod delay 65535 ltac:(lia)) as Hq.
    set (r := delay `mod` 65535) in *. set (q := delay `div` 65535) in *.
    set (k := if (0 <? r) && (r <? 4) then q - 1 else q) in *.
    assert (0 <= k /\ 65535 * k + sum (delay_tail r) = delay
            /\ Forall (fun n => 0 <= n) (delay_tail r)) as (Hk & Hsum & Hpos).
    { unfold delay_tail. subst k.
      destruct (r >? 0) eqn:E0; [destruct ((0 <? r) && (r <? 4)) eqn:E4|].
      - apply andb_prop in E4 as [? ?]. cbn [sum foldr].
        repeat split; try (repeat constructor; lia); try nia.
      - cbn [sum foldr]. repeat split; try (repeat constructor; lia); try nia.
      - replace ((0 <? r) && (r <? 4)) with false by lia. cbn [sum foldr].
        repeat split; try constructor; try nia. }
    assert (k <= 2 ^ 32 - 1) as Hk32 by (subst k; destruct ((0 <? r) && (r <? 4)); lia).
    clearbody k. rewrite Hlines. clear Hlines.
    destruct (k <? 5) eqn:Ek.
    + unfold wait_lines. rewrite <- fmap_app.
      fold (wait_lines (replicate (Z.to_nat k) 65535 ++ delay_tail r)).
      destruct (Hinit (wait_lines (replicate (Z.to_nat k) 65535 ++ delay_tail r)))
        as (s0 & -> & Hs0).
      assert (Forall (fun n => 0 <= n) (replicate (Z.to_nat k) 65535 ++ delay_tail r))
        as Hall.
      { apply Forall_app. split; [apply Forall_replicate; lia | exact Hpos]. }
      destruct (run_all_waits _ s0 _ _ Hall Hs0) as (s & E & Ht).
      eexists _, s. split; [exact E|]. rewrite Ht, sum_app, sum_replicate. lia.
    + set (lines := [delay_move (pretty k); delay_label (pretty i);
                     delay_wait (pretty 65535); delay_loop (pretty i)]
                    ++ wait_lines (delay_tail r)).
      destruct (Hinit lines) as (s0 & -> & Hs0).
      assert (placed lines 0 lines) as Hp by apply placed_whole.
      unfold lines in Hp at 2. apply placed_app in Hp as [Hp1 Hp2].
      cbn [length Nat.add] in Hp2.
      destruct (run_move lines _ k s0 _ _ _ _ (numeral_pretty k)
                  (placed_head _ _ _ _ Hp1) Hs0) as (s1 & E1 & H1).
      { exact Hk32. }
      { exists 0. vm_compute. reflexivity. }
      { apply Nat.eq_le_incl. vm_compute. reflexivity. }
      assert (k = Z.of_nat (S (Z.to_nat k - 1))) as Hkj by lia.
      rewrite Hkj in H1 at 1.
      destruct (run_counted_loop lines i 1 initial_registers
                  (placed_tail _ _ _ _ Hp1) (Z.to_nat k - 1) s1 _ _ H1)
        as (s2 & E2 & H2).
      rewrite <- Hkj in H2. cbn [Nat.add] in H2.
      destruct (run_waits lines (delay_tail r) s2 4 _ _ _ Hp2 Hpos H2) as (s3 & E3 & H3).
      exists (1 + (3 * S (Z.to_nat k - 1) + (length (delay_tail r) + 1)))%nat, s3. split.
      * rewrite (steps_add _ 1 _ _ _ (steps_one _ _ _ E1)).
        rewrite (steps_add _ _ _ _ _ E2).
        apply (steps_halt _ _ _ _ E3). rewrite (proj1 H3). unfold lines.
        rewrite length_app. unfold wait_lines. rewrite length_fmap. reflexivity.
      * destruct H3 as (_ & _ & _ & -> & _). lia.
Qed.

End Run.

Lemma a_delay_lasts_its_delay_witness :
  exists fuel s,
    emulate (FO := Binary64.binary64) fuel
      (EmuFacts.bare (fst (Esr.q1asm_delay 400000 1))) = Halted s
    /\ timing s = 400000.
Proof.
  apply (a_delay_lasts_its_delay (FO := Binary64.binary64) 1%float
           ltac:(vm_compute; reflexivity) 400000 1).
  - lia.
  - vm_compute. congruence.
Defined.

End RunFacts.

(** ** Bounds and labels on the emulator *)

Module BoundFacts.
Import Py StringFacts Emu RunFacts.

Section Bounds.
Context {FO : FloatOps}.

(** X23. Past the 32 bits of a register the lines of a delay no longer
    run: when the count of the loop written by [q1asm_delay] exceeds
    [2^32 - 1], the emulator stops on its first line, the [move] of that
    count, with the error of the register width. *)
Theorem a_delay_too_long_for_a_register (delay i : Z) :
  2 ^ 32 < delay `div` 65535 ->
  emulate 1 (EmuFacts.bare (fst (Esr.q1asm_delay delay i)))
  = Failed (Exception "Registars can only store 32 bit integers").
Proof.
  intros Hbig.
  assert (65535 <= delay) as Hge.
  { pose proof (Z.div_mod delay 65535 ltac:(lia)).
    pose proof (Z.mod_pos_bound delay 65535 ltac:(lia)). lia. }
  rewrite (delay_lines delay i Hge). cbv zeta.
  set (r := delay `mod` 65535). set (q := delay `div` 65535) in *.
  set (k := if (0 <? r) && (r <? 4) then q - 1 else q).
  assert (2 ^ 32 - 1 < k) as Hk by (subst k; destruct ((0 <? r) && (r <? 4)); lia).
  clearbody k. replace (k <? 5) with false by lia.
  unfold emulate.
  match goal with
  | |- context [init ?sq] =>
      assert (exists s0, init sq = Ok s0 /\ pc s0 = 0%nat) as (s0 & -> & Hpc)
        by (eexists; split; reflexivity)
  end.
  cbn [steps]. unfold step. cbn [EmuFacts.bare program app]. rewrite Hpc. cbn [nth_error].
  rewrite (step_move (pretty k) k (numeral_pretty k)).
  replace (k >? 2 ^ 32 - 1) with true by lia. reflexivity.
Qed.

(** X24. [jmp] looks its operand up as it is written, [jlt] and [loop]
    without its first character: with a label [name] on record, a jump to
    [@name] is a [KeyError] under [jmp] and reaches the label under [jlt] and
    under [loop]. *)
Theorem jmp_keeps_the_at_sign (name reg imm : string) (n v : Z) (rest : list Z)
    (target : nat) (s : state) :
  labels s !! name = Some target ->
  labels s !! String "@" name = None ->
  registers s !! reg = Some v -> v < n -> 1 < v ->
  exec "jmp" ["jmp"; String "@" name] [] s = Raise KeyError
  /\ exec "jlt" ["jlt"; reg; imm; String "@" name] (n :: rest) s
     = Ok (set_pc target s, false)
  /\ exec "loop" ["loop"; reg; String "@" name] [] s
     = Ok (set_pc target (set_registers (insert reg (v - 1)) s), false).
Proof.
  intros Hname Hat Hreg Hlt Hpos. repeat split.
  - unfold exec, label_at.
    cbn [Py.streq String.eqb Ascii.eqb Bool.eqb Py.index nth_error or_raise bind].
    rewrite Hat. reflexivity.
  - unfold exec, label_at, reg_get.
    cbn [Py.streq String.eqb Ascii.eqb Bool.eqb Py.index nth_error or_raise bind
         Py.drop_first].
    rewrite Hreg. cbn [default]. unfold id.
    replace (v <? n) with true by lia. rewrite Hname. reflexivity.
  - unfold exec, label_at, reg_get.
    cbn [Py.streq String.eqb Ascii.eqb Bool.eqb Py.index nth_error or_raise bind
         Py.drop_first].
    cbv zeta. cbn [set_registers registers labels].
    rewrite Hreg, lookup_insert_eq. cbn [default]. unfold id.
    replace (v - 1 >? 0) with true by lia. rewrite Hname. reflexivity.
Qed.

End Bounds.

Lemma a_delay_too_long_for_a_register_witness :
  emulate (FO := Binary64.binary64) 1
    (EmuFacts.bare (fst (Esr.q1asm_delay (65535 * 2 ^ 32 + 65535) 1)))
  = Failed (Exception "Registars can only store 32 bit integers").
Proof.
  apply (a_delay_too_long_for_a_register (FO := Binary64.binary64)
           (65535 * 2 ^ 32 + 65535) 1).
  vm_compute. reflexivity.
Defined.

Definition at_start : state (FO := Binary64.binary64) :=
  set_labels (insert "start" 0%nat) (set_registers (insert "R0" 3) TimelineFacts.blank).

Lemma jmp_keeps_the_at_sign_witness :
  exec "jmp" ["jmp"; "@start"] [] at_start = Raise KeyError.
Proof.
  refine (proj1 (jmp_keeps_the_at_sign (FO := Binary64.binary64)
                   "start" "R0" "5" 5 3 [] 0%nat at_start _ _ _ _ _)).
  - vm_compute. reflexivity.
  - vm_compute. reflexivity.
  - vm_compute. reflexivity.
  - lia.
  - lia.
Defined.

End BoundFacts.

(** ** The averaging loop on the emulator *)

Module AverageFacts.
Import Py StringFacts Emu RunFacts.
Import Esr (q1asm_add_avg_loop).

Section Average.
Context {FO : FloatOps}.
Variable g : flt.
Hypothesis Hg : convert_gain 0 = Ok g.

Section Count.
Variables (t : string) (n : Z).
Hypothesis Ht : numeral t n.

Definition avg_move : string := "move      " +:+ t +:+ ",R0".
Definition avg_move_clean : string := "move      " +:+ t +:+ " R0".

Lemma solid_end_avg_move : solid_end avg_move.
Proof.
  unfold avg_move. rewrite <- str_app_assoc. apply solid_end_app, solid_literal. reflexivity.
Qed.

Lemma tokens_avg_move : split avg_move_clean = ["move"; t; "R0"].
Proof.
  unfold avg_move_clean.
  change ("move      " +:+ t +:+ " R0")
    with ("move" +:+ String " " ("     " +:+ t +:+ String " " "R0")).
  rewrite split_word by (reflexivity || apply solid_literal; reflexivity).
  rewrite split_blanks by reflexivity.
  rewrite split_word by (reflexivity || eapply numeral_solid; eassumption).
  reflexivity.
Qed.

Lemma info_avg_move : q1asm_get_line_info avg_move = Ok (avg_move_clean, [n]).
Proof.
  unfold q1asm_get_line_info.
  rewrite before_char_absent by (unfold avg_move; chars).
  unfold avg_move.
  rewrite !replace_char_app, (replace_char_absent _ _ t) by chars.
  change (replace_char "," " " "move      " +:+ t +:+ replace_char "," " " ",R0")
    with avg_move_clean.
  rewrite tokens_avg_move.
  rewrite numbers_of_word by reflexivity.
  rewrite (numbers_of_numeral t n) by exact Ht.
  change (numbers_of ["R0"]) with (Ok (@nil Z)). cbn [bind].
  assert (strip avg_move_clean = avg_move_clean) as ->; [|reflexivity].
  apply (strip_solid_end _ "m" ("ove      " +:+ t +:+ " R0")); [|reflexivity|reflexivity].
  replace avg_move_clean with (("move      " +:+ t +:+ " ") +:+ "R0")
    by (unfold avg_move_clean; rewrite !str_app_assoc; reflexivity).
  apply solid_end_app, solid_literal. reflexivity.
Qed.

Lemma step_avg_move (s : state) :
  step_line avg_move s
  = if n >? 2 ^ 32 - 1 then Raise (Exception "Registars can only store 32 bit integers")
    else if (64 <? size (<["R0" := n]> (registers s)))%nat
         then Raise (Exception "Registar locations only in range 0 to 63")
         else Ok (next (set_registers (insert "R0" n) s), false).
Proof.
  rewrite (step_line_tokens avg_move avg_move_clean "move" [t; "R0"] [n]);
    [| | exact tokens_avg_move].
  - reflexivity.
  - rewrite (strip_solid_end _ "m" ("ove      " +:+ t +:+ ",R0") solid_end_avg_move);
      [exact info_avg_move | reflexivity | reflexivity].
Qed.

End Count.

Lemma step_avg_label (s : state) :
  step_line "loop_avg:" s = Ok (next (set_labels (insert "loop_avg" (pc s)) s), false).
Proof. reflexivity. Qed.

Lemma step_avg_loop (s : state) :
  step_line "loop      R0,@loop_avg" s
  = (let s1 := set_registers (insert "R0" (reg_get s "R0" - 1)) s in
     if reg_get s1 "R0" >? 0
     then let* target := label_at s1 "loop_avg" in Ok (set_pc target s1, false)
     else Ok (next s1, false)).
Proof. reflexivity. Qed.

(** *** Runs *)

Lemma run_avg_move (lines : list string) (n : Z) (s : state) p r lb tm :
  nth_error lines p = Some (avg_move (pretty n)) -> stands s p r lb tm ->
  n <= 2 ^ 32 - 1 -> is_Some (r !! "R0") -> (size r <= 64)%nat ->
  exists s', step lines s = Running s' /\ stands s' (S p) (<["R0" := n]> r) lb tm.
Proof.
  intros Hl Hs Hn Hv Hsize. unfold step.
  rewrite (proj1 Hs), Hl, (step_avg_move _ n (numeral_pretty n)).
  destruct Hs as (H1 & H2 & H3 & H4 & H5).
  replace (n >? 2 ^ 32 - 1) with false by lia.
  rewrite H2, map_size_insert_Some by exact Hv.
  replace (64 <? size r)%nat with false by (symmetry; apply Nat.ltb_ge; exact Hsize).
  eexists. split; [reflexivity|].
  repeat split; cbn [next set_pc set_registers pc registers labels timing acquire
                     awg_gain_I awg_gain_Q]; try tauto; congruence.
Qed.

Lemma run_avg_label (lines : list string) (s : state) p r lb tm :
  nth_error lines p = Some "loop_avg:" -> stands s p r lb tm ->
  exists s', step lines s = Running s' /\ stands s' (S p) r (<["loop_avg" := p]> lb) tm.
Proof.
  intros Hl Hs. unfold step. rewrite (proj1 Hs), Hl, step_avg_label.
  destruct Hs as (H1 & H2 & H3 & H4 & H5).
  eexists. split; [reflexivity|].
  repeat split; cbn [next set_pc set_labels pc registers labels timing acquire
                     awg_gain_I awg_gain_Q]; try tauto; congruence.
Qed.

Lemma run_avg_loop (lines : list string) (s : state) p r lb tm (v : Z) (target : nat) :
  nth_error lines p = Some "loop      R0,@loop_avg" -> stands s p r lb tm ->
  r !! "R0" = Some v -> lb !! "loop_avg" = Some target ->
  exists s', step lines s = Running s'
             /\ stands s' (if v - 1 >? 0 then target else S p) (<["R0" := v - 1]> r) lb tm.
Proof.
  intros Hl Hs Hv Hlb. unfold step. rewrite (proj1 Hs), Hl, step_avg_loop.
  destruct Hs as (H1 & H2 & H3 & H4 & H5). cbv zeta.
  unfold reg_get, label_at. cbn [set_registers registers labels].
  rewrite H2, Hv, lookup_insert_eq, H3, Hlb. cbn [default or_raise]. unfold id.
  destruct (v - 1 >? 0); cbv beta iota delta [bind];
    (eexists; split; [reflexivity|]);
    repeat split; cbn [next set_pc set_registers pc registers labels timing acquire
                       awg_gain_I awg_gain_Q]; try tauto; congruence.
Qed.

(** One turn of the loop: the label, the body, the [loop] line. *)
Lemma run_avg_turn (lines : list string) (ns : list Z) (s : state) r lb tm (v : Z) :
  nth_error lines 1 = Some "loop_avg:" ->
  placed lines 2 (wait_lines ns) ->
  nth_error lines (2 + length ns) = Some "loop      R0,@loop_avg" ->
  Forall (fun n => 0 <= n) ns ->
  stands s 1 r lb tm -> r !! "R0" = Some v ->
  exists s', steps (length ns + 2) lines s = Running s'
             /\ stands s' (if v - 1 >? 0 then 1%nat else (3 + length ns)%nat)
                       (<["R0" := v - 1]> r) (<["loop_avg" := 1%nat]> lb) (tm + sum ns).
Proof.
  intros Hl1 Hbody Hl2 Hpos Hs Hv.
  destruct (run_avg_label lines s _ _ _ _ Hl1 Hs) as (s1 & E1 & H1).
  destruct (run_waits g Hg lines ns s1 2 _ _ _ Hbody Hpos H1) as (s2 & E2 & H2).
  destruct (run_avg_loop lines s2 _ _ _ _ v 1%nat Hl2 H2 Hv (lookup_insert_eq _ _ _))
    as (s3 & E3 & H3).
  exists s3. split.
  - replace (length ns + 2)%nat with (1 + (length ns + 1))%nat by lia.
    rewrite (steps_add _ 1 _ _ _ (steps_one _ _ _ E1)).
    rewrite (steps_add _ _ _ _ _ E2). apply steps_one, E3.
  - replace (3 + length ns)%nat with (S (2 + length ns)) by lia. exact H3.
Qed.

Lemma run_avg_turns (lines : list string) (ns : list Z) (r0 : gmap string Z) :
  nth_error lines 1 = Some "loop_avg:" ->
  placed lines 2 (wait_lines ns) ->
  nth_error lines (2 + length ns) = Some "loop      R0,@loop_avg" ->
  Forall (fun n => 0 <= n) ns ->
  forall (j : nat) s lb tm,
  stands s 1 (<["R0" := Z.of_nat (S j)]> r0) lb tm ->
  exists s', steps ((length ns + 2) * S j) lines s = Running s'
             /\ stands s' (3 + length ns) (<["R0" := 0]> r0) (<["loop_avg" := 1%nat]> lb)
                       (tm + sum ns * Z.of_nat (S j)).
Proof.
  intros Hl1 Hbody Hl2 Hpos. induction j as [|j IH]; intros s lb tm Hs.
  - destruct (run_avg_turn lines ns s _ _ _ 1 Hl1 Hbody Hl2 Hpos Hs (lookup_insert_eq _ _ _))
      as (s1 & E1 & H1).
    exists s1. split; [rewrite Nat.mul_1_r; exact E1|].
    cbn [Z.sub Z.gtb Z.compare Z.opp Z.add Z.pos_sub] in H1.
    rewrite insert_insert_eq in H1.
    replace (tm + sum ns * Z.of_nat 1) with (tm + sum ns) by lia. exact H1.
  - destruct (run_avg_turn lines ns s _ _ _ (Z.of_nat (S (S j))) Hl1 Hbody Hl2 Hpos Hs
                (lookup_insert_eq _ _ _)) as (s1 & E1 & H1).
    replace (Z.of_nat (S (S j)) - 1) with (Z.of_nat (S j)) in H1 by lia.
    replace (Z.of_nat (S j) >? 0) with true in H1 by (symmetry; apply Z.gtb_lt; lia).
    rewrite insert_insert_eq in H1.
    destruct (IH s1 _ _ H1) as (s2 & E2 & H2).
    exists s2. split.
    + replace ((length ns + 2) * S (S j))%nat
        with ((length ns + 2) + (length ns + 2) * S j)%nat by lia.
      rewrite (steps_add _ _ _ _ _ E1). exact E2.
    + rewrite insert_insert_eq in H2.
      replace (tm + sum ns * Z.of_nat (S (S j)))
        with (tm + sum ns + sum ns * Z.of_nat (S j)) by lia.
      exact H2.
Qed.

(** X25. The averaging loop repeats its body: around a program of waits,
    the lines of [q1asm_add_avg_loop] with [avg_nb] between 1 and [2^32 - 1]
    run on the emulator to their end, and the clock then shows [avg_nb]
    times the duration of the program. *)
Theorem an_average_loop_repeats_its_body (ns : list Z) (avg_nb : Z) :
  ns <> [] -> Forall (fun n => 0 <= n) ns -> 1 <= avg_nb <= 2 ^ 32 - 1 ->
  exists fuel s,
    emulate fuel (EmuFacts.bare (q1asm_add_avg_loop (wait_lines ns) avg_nb "R0" "loop_avg"))
    = Halted s
    /\ timing s = avg_nb * sum ns.
Proof.
  intros Hne Hpos Hn.
  set (lines := [avg_move (pretty avg_nb); "loop_avg:"]
                ++ wait_lines ns ++ ["loop      R0,@loop_avg"]).
  assert (q1asm_add_avg_loop (wait_lines ns) avg_nb "R0" "loop_avg" = lines) as ->.
  { unfold q1asm_add_avg_loop, lines. destruct ns; [congruence | reflexivity]. }
  assert (exists s0, init (EmuFacts.bare lines) = Ok s0
                     /\ stands s0 0 initial_registers (detect_labels lines) 0)
    as (s0 & Hinit & Hs0).
  { eexists. split; [reflexivity|]. repeat split; reflexivity. }
  unfold emulate. rewrite Hinit.
  assert (placed lines 0 lines) as Hp by apply placed_whole.
  unfold lines in Hp at 2. apply placed_app in Hp as [Hp1 Hp2].
  cbn [length Nat.add] in Hp2. apply placed_app in Hp2 as [Hp2 Hp3].
  unfold wait_lines in Hp3 at 1. rewrite length_fmap in Hp3.
  destruct (run_avg_move lines avg_nb s0 _ _ _ _ (placed_head _ _ _ _ Hp1) Hs0)
    as (s1 & E1 & H1).
  { lia. }
  { exists 0. vm_compute. reflexivity. }
  { apply Nat.eq_le_incl. vm_compute. reflexivity. }
  assert (avg_nb = Z.of_nat (S (Z.to_nat avg_nb - 1))) as Hj by lia.
  rewrite Hj in H1 at 1.
  destruct (run_avg_turns lines ns initial_registers
              (placed_head _ _ _ _ (placed_tail _ _ _ _ Hp1)) Hp2
              (placed_head _ _ _ _ Hp3) Hpos (Z.to_nat avg_nb - 1) s1 _ _ H1)
    as (s2 & E2 & H2).
  rewrite <- Hj in H2.
  exists (1 + ((length ns + 2) * S (Z.to_nat avg_nb - 1) + 1))%nat, s2. split.
  - rewrite (steps_add _ 1 _ _ _ (steps_one _ _ _ E1)).
    apply (steps_halt _ _ _ _ E2). rewrite (proj1 H2). unfold lines.
    rewrite !length_app. unfold wait_lines. rewrite length_fmap. cbn [length]. lia.
  - destruct H2 as (_ & _ & _ & -> & _). lia.
Qed.

End Average.

Lemma an_average_loop_repeats_its_body_witness :
  exists fuel s,
    emulate (FO := Binary64.binary64) fuel
      (EmuFacts.bare (q1asm_add_avg_loop (wait_lines [100; 20]) 3 "R0" "loop_avg"))
    = Halted s
    /\ timing s = 3 * sum [100; 20].
Proof.
  apply (an_average_loop_repeats_its_body (FO := Binary64.binary64) 1%float
           ltac:(vm_compute; reflexivity) [100; 20] 3).
  - discriminate.
  - repeat constructor; lia.
  - vm_compute. split; congruence.
Defined.


End AverageFacts.

(** ** Dummy shots *)

Module DummyFacts.
Import Py StringFacts Esr.

Definition quiet (l : string) : Prop := contains "acquire" l = false.

Lemma quiet_rstrip (l : string) : quiet l -> quiet (rstrip l).
Proof.
  unfold quiet. intros H. destruct (contains "acquire" (rstrip l)) eqn:E; [|reflexivity].
  rewrite (contains_rstrip _ _ E) in H. discriminate.
Qed.

Lemma quiet_wait (n : Z) : quiet ("wait      " +:+ pretty n).
Proof.
  pose proof (numeral_pretty n). apply (not_contains (is_not "q")); [chars | reflexivity].
Qed.

Lemma dummy_lines_quiet (prog : list string) : forall out,
  dummy_lines prog = Ok out -> Forall quiet out /\ length out = length prog.
Proof.
  induction prog as [|l prog IH]; intros out H.
  - injection H as <-. split; [constructor | reflexivity].
  - cbn [dummy_lines] in H. do 2 inv_bind H. injection H as <-.
    destruct (IH _ Ha0) as [H1 H2]. split; [|cbn [length]; congruence].
    constructor; [|exact H1].
    destruct (contains "acquire" l) eqn:E.
    + inv_bind Ha. destruct a1 as [c nb]. inv_bind Ha. injection Ha as <-.
      apply quiet_wait.
    + injection Ha as <-. exact E.
Qed.

Lemma length_rstrip_lines (ls : list string) : (length (rstrip_lines ls) <= length ls)%nat.
Proof.
  induction ls as [|l ls IH]; [reflexivity|]. cbn [rstrip_lines].
  destruct (rstrip_lines ls) as [|x xs]; [destruct (rstrip l); cbn; lia | cbn in *; lia].
Qed.

(** X26. The program of the dummy shots never acquires: no line of what
    [q1asm_get_prog_dummy] returns contains [acquire], with or without the
    loop around it; and without the loop it has at most as many lines as
    the program. *)
Theorem dummy_shots_never_acquire (prog out : list string) (dummy_nb : Z) :
  q1asm_get_prog_dummy prog dummy_nb = Ok out ->
  Forall (fun l => contains "acquire" l = false) out
  /\ (dummy_nb <= 1 -> (length out <= length prog)%nat).
Proof.
  unfold q1asm_get_prog_dummy. intros H. inv_bind H. injection H as <-.
  destruct (dummy_lines_quiet _ _ Ha) as [Hq Hlen].
  pose proof (Forall_rstrip_lines quiet a quiet_rstrip Hq) as Hq'.
  pose proof (length_rstrip_lines a) as Hlen'.
  destruct (dummy_nb >? 1) eqn:E.
  - split; [|lia].
    unfold q1asm_add_avg_loop.
    pose proof (numeral_pretty dummy_nb).
    repeat (apply Forall_app; split).
    + constructor; [apply (not_contains (is_not "q")); [chars | reflexivity]|].
      constructor; [reflexivity | constructor].
    + destruct (rstrip_lines a); [constructor; [reflexivity | constructor] | exact Hq'].
    + constructor; [reflexivity | constructor].
  - split; [exact Hq'|]. intros _. lia.
Qed.

Lemma dummy_shots_never_acquire_witness :
  Forall (fun l => contains "acquire" l = false)
         ["move      2,R63"; "loop_dummy:"; "play      0,0,40"; "wait      1000";
          "loop      R63,@loop_dummy"].
Proof.
  apply (dummy_shots_never_acquire ["play      0,0,40"; "acquire   0,0,1000"; ""] _ 2).
  vm_compute. reflexivity.
Defined.

End DummyFacts.
